(** * Jade asset generator: [Assets/generate_assets.py]

    A shallow embedding of the asset generator of the Chinese Chess
    application and the properties of its output tree.

    The script is a sequence of drawing calls on Pillow canvases followed by
    [save] calls.  What Pillow, [random] and [os] do is not part of the
    repository: the development takes them as a record of parameters
    (the random generator, the font loader, the text measurer, the oracle
    saying which paths the disk accepts) and models the script on top.

    - An image is the history of the calls made on it: the canvas created by
      [Image.new], then each [ImageDraw] call, [paste] and [resize].
      [Image.new] raises [ValueError] for a negative side.  The pixels of a
      canvas of [w] by [h] are the columns 0 to [w - 1] and the rows 0 to
      [h - 1]; Pillow clips what is drawn outside them.
    - The process state (the [world]) is the state of the global random
      generator together with the directory tree below [ASSETS_DIR]: the set
      of directories and the map from file paths to saved images.
    - A routine is a function from the world to an outcome (a value or a
      raised exception) and the world it leaves behind; an exception does
      not undo what was written before it.  A function of the script that
      touches neither the generator nor the disk (font lookup, the drawing
      of one piece) is a plain [outcome]; the wood-grain loop, which only
      draws random numbers, is a function of the generator state.
    - Console messages ([print]) are not modelled, and the [COLORS] table,
      which no routine of the script reads, is left out.
    - Python floats are read as exact rationals.  Every [int(size * c)] of
      the script is taken at a size where the product is an integer or is far
      from one, so the truncation of the rational is the truncation of the
      float. *)

From Stdlib Require Import ZArith QArith List Permutation.
From stdpp Require Import base gmap strings list fin_maps fin_sets pretty.

Local Open Scope Z_scope.

(** ** Python arithmetic *)

(** [int(x)] on a float: truncation toward zero. *)
Definition int_Q (q : Q) : Z := Z.quot (Qnum q) (Z.pos (Qden q)).

(** [range(n)] and [range(hi, 0, -1)]. *)
Definition range (n : Z) : list Z := seqZ 0 n.
Definition range_down (hi : Z) : list Z := reverse (seqZ 1 hi).

(** [str(n)] for an integer. *)
Definition str (n : Z) : string := pretty n.

(** ** Paths

    A path is the list of its components below [ASSETS_DIR], so
    [os.path.join(ASSETS_DIR, 'Icons', 'AppIcon_1024.png')] is
    [["Icons"; "AppIcon_1024.png"]] and [ASSETS_DIR] itself is [[]]. *)
Definition path := list string.

Definition os_path_join (dir : path) (name : string) : path := dir ++ [name].

Definition dirname (p : path) : path := removelast p.

(** Every directory on the way to [p], [p] included: what [os.makedirs]
    makes sure exists. *)
Definition ancestors (p : path) : list path :=
  map (fun n => take n p) (seq 0 (S (length p))).

(** The directories above [p], from [ASSETS_DIR] down to [dirname p]: what
    the system walks through to reach [p]. *)
Definition parents (p : path) : list path :=
  map (fun n => take n p) (seq 0 (length p)).

(** ** Colours, drawing calls and images *)

Inductive mode := mode_RGBA | mode_RGB | mode_L.

Inductive color :=
| Hex (s : string)            (* '#CC0000' *)
| RGB (r g b : Z)             (* (r, g, b) *)
| RGBA (r g b a : Z)          (* (r, g, b, a) *)
| Lum (v : Z).                (* an integer, for mode 'L' *)

Definition point := (Z * Z)%type.
Definition box := (Z * Z * Z * Z)%type.

Inductive resampling := LANCZOS.

Section Canvas.
(** The type of loaded fonts is Pillow's. *)
Context {font : Type}.

(** The [ImageDraw] calls of the script, with the keyword arguments it
    leaves out at Pillow's defaults ([fill=None], [outline=None],
    [width=0] for [line], [width=1] otherwise). *)
Inductive draw_op :=
| line (xy : list point) (fill : color) (width : Z)
| rectangle (xy : box) (fill : option color)
| ellipse (xy : box) (fill outline : option color) (width : Z)
| arc (xy : box) (start stop : Z) (fill : color) (width : Z)
| polygon (xy : list point) (fill : color)
| rounded_rectangle (xy : box) (radius : Z) (fill : color)
| text (xy : Q * Q) (s : string) (f : font) (fill : color).

Inductive image :=
| Image_new (m : mode) (size : Z * Z) (c : color)
| draw (im : image) (op : draw_op)
| paste (im src : image) (at_ : point) (mask : image)
| resize (im : image) (size : Z * Z) (r : resampling).

(** [im.size] *)
Fixpoint im_size (im : image) : Z * Z :=
  match im with
  | Image_new _ size _ => size
  | draw im _ => im_size im
  | paste im _ _ _ => im_size im
  | resize _ size _ => size
  end.

(** The drawing calls made directly on an image, oldest first. *)
Fixpoint im_ops (im : image) : list draw_op :=
  match im with
  | Image_new _ _ _ => []
  | draw im op => im_ops im ++ [op]
  | paste im _ _ _ => im_ops im
  | resize _ _ _ => []
  end.

(** Several calls in a row on the same canvas. *)
Definition draw_all (im : image) (ops : list draw_op) : image :=
  fold_left draw ops im.

(** The colour a call paints with ([fill], else [outline]). *)
Definition op_colors (op : draw_op) : list color :=
  match op with
  | line _ c _ | arc _ _ _ c _ | polygon _ c
  | rounded_rectangle _ _ c | text _ _ _ c => [c]
  | rectangle _ f => option_list f
  | ellipse _ f o _ => option_list f ++ option_list o
  end.
End Canvas.
Arguments draw_op : clear implicits.
Arguments image : clear implicits.

(** A colour given by components is one Pillow accepts when every
    component is a byte. *)
Definition byte_range (v : Z) : Prop := 0 <= v <= 255.

Definition color_in_range (c : color) : Prop :=
  match c with
  | Hex _ => True
  | RGB r g b => byte_range r /\ byte_range g /\ byte_range b
  | RGBA r g b a => byte_range r /\ byte_range g /\ byte_range b /\ byte_range a
  | Lum v => byte_range v
  end.

#[global] Instance color_in_range_dec c : Decision (color_in_range c).
Proof. destruct c; unfold color_in_range, byte_range; apply _. Defined.

(** The alpha component of a colour, when it has one. *)
Definition alpha_of (c : color) : option Z :=
  match c with
  | RGBA _ _ _ a => Some a
  | _ => None
  end.

(** ** Exceptions and outcomes *)

Inductive exn :=
| FileNotFoundError      (* saving below a directory that does not exist *)
| NotADirectoryError     (* a file stands where the path needs a directory *)
| FileExistsError        (* makedirs over a path that is a file *)
| IsADirectoryError      (* saving over a directory *)
| OSError                (* the disk refuses the write; a font cannot be opened *)
| ValueError.            (* a canvas with a negative side *)

Inductive outcome (A : Type) :=
| Ok (a : A)
| Raise (e : exn).
Arguments Ok {A} a.
Arguments Raise {A} e.

Definition raised {A} (o : outcome A) : option exn :=
  match o with
  | Ok _ => None
  | Raise e => Some e
  end.

Definition bind_outcome {A B} (o : outcome A) (k : A -> outcome B) : outcome B :=
  match o with
  | Ok a => k a
  | Raise e => Raise e
  end.

(** [try: o  except: h]: a bare [except] catches whatever [o] raises. *)
Definition try_except {A} (o h : outcome A) : outcome A :=
  match o with
  | Ok a => Ok a
  | Raise _ => h
  end.

Declare Scope outcome_scope.
Delimit Scope outcome_scope with outcome.
Notation "x <- o ;; k" := (bind_outcome o (fun x => k))
  (at level 100, o at next level, right associativity) : outcome_scope.

(** ** What the script takes from outside the repository

    [random], [ImageFont], [ImageDraw.textbbox], [os.path.exists] on the
    system font paths, and the disk. *)
Record platform (rng_state font : Type) := Platform {
  (* [random.seed(n)]: the generator state is a function of the seed alone *)
  seed : Z -> rng_state;
  (* [random.randint(a, b)]: the value drawn and the next state *)
  randint : Z -> Z -> rng_state -> Z * rng_state;
  (* [os.path.exists(path)] for a system font path *)
  path_exists : string -> bool;
  (* [ImageFont.truetype(path, size)]; [None] when it raises *)
  truetype : string -> Z -> option font;
  (* [ImageFont.load_default()] *)
  load_default : font;
  (* [draw.textbbox((0, 0), text, font=font)] *)
  textbbox : string -> font -> box;
  (* whether the disk accepts a write to this path *)
  disk_accepts : path -> bool;
}.
Arguments seed {rng_state font}.
Arguments randint {rng_state font}.
Arguments path_exists {rng_state font}.
Arguments truetype {rng_state font}.
Arguments load_default {rng_state font}.
Arguments textbbox {rng_state font}.
Arguments disk_accepts {rng_state font}.

(** ** The world and the monad of routines *)

Section World.
Context {rng_state font : Type}.

Record world := World {
  w_rng : rng_state;                     (* state of the global [random] generator *)
  w_dirs : gset path;                    (* directories that exist *)
  w_files : gmap path (image font);      (* files and what was saved in them *)
}.

Definition M (A : Type) : Type := world -> outcome A * world.

Definition ret {A} (a : A) : M A := fun w => (Ok a, w).

Definition bind {A B} (m : M A) (k : A -> M B) : M B :=
  fun w =>
    match m w with
    | (Ok a, w') => k a w'
    | (Raise e, w') => (Raise e, w')
    end.

(** A call of a function that touches neither the generator nor the disk. *)
Definition lift {A} (o : outcome A) : M A := fun w => (o, w).
End World.
Arguments world : clear implicits.
Arguments M : clear implicits.

Declare Scope py_scope.
Delimit Scope py_scope with py.
Notation "x <- m ;; k" := (bind m (fun x => k))
  (at level 100, m at next level, right associativity) : py_scope.
Notation "m ;; k" := (bind m (fun _ => k))
  (at level 100, right associativity) : py_scope.
Local Open Scope py_scope.

(** ** The generator *)

Section Generator.
Context {rng_state font : Type} (P : platform rng_state font).

#[local] Abbreviation world := (world rng_state font).
#[local] Abbreviation M := (M rng_state font).
#[local] Abbreviation image := (image font).
#[local] Abbreviation draw_op := (draw_op font).

(** *** Loops *)

(** [for x in xs: body(x)] *)
Fixpoint for_ {A} (xs : list A) (body : A -> M unit) : M unit :=
  match xs with
  | [] => ret tt
  | x :: xs => body x ;; for_ xs body
  end.

(** *** [os], [Image.save], [random], [ImageFont] *)

Definition is_dir (w : world) (p : path) : bool := bool_decide (p ∈ w_dirs w).
Definition is_file (w : world) (p : path) : bool :=
  bool_decide (is_Some (w_files w !! p)).

(** [os.makedirs(p, exist_ok=True)]: creates [p] and the directories above
    it that are missing.  It raises when a file is in the way:
    [NotADirectoryError] when the file is above [p], [FileExistsError] when
    it is [p] itself. *)
Definition os_makedirs (p : path) : M unit :=
  fun w =>
    if existsb (is_file w) (ancestors p)
    then (Raise (if existsb (is_file w) (parents p) then NotADirectoryError
                 else FileExistsError), w)
    else (Ok tt, World (w_rng w) (list_to_set (ancestors p) ∪ w_dirs w) (w_files w)).

(** [im.save(p)]: raises when the directory of [p] is not there
    ([NotADirectoryError] when a file stands on the way to it,
    [FileNotFoundError] otherwise), when [p] is a directory, or when the disk
    refuses the write; writes the file otherwise, over what was there.

    What is found at [p] itself after a refused write depends on when the
    disk refuses: nothing new when the file cannot be opened, a truncated
    file when the write is cut short.  The map of files, which holds whole
    images, is left as it was; the theorems on a refused write speak of the
    other paths only. *)
Definition Image_save (im : image) (p : path) : M unit :=
  fun w =>
    if negb (is_dir w (dirname p))
    then (Raise (if existsb (is_file w) (parents p) then NotADirectoryError
                 else FileNotFoundError), w)
    else if is_dir w p then (Raise IsADirectoryError, w)
    else if negb (disk_accepts P p) then (Raise OSError, w)
    else (Ok tt, World (w_rng w) (w_dirs w) (<[p := im]> (w_files w))).

(** [Image.new(mode, size, color)]: Pillow raises [ValueError] for a
    negative side.  The pieces and the launch screen, whose theorems range
    over every size, make their canvas with [new_image].  The canvases that
    the script makes at sizes it fixes itself are written [Image_new], and
    what is proved of them at a size left open is proved for sizes that
    [Image.new] accepts. *)
Definition new_image (m : mode) (size : Z * Z) (c : color) : outcome image :=
  if bool_decide (0 <= fst size /\ 0 <= snd size) then Ok (Image_new m size c)
  else Raise ValueError.

Definition random_seed (n : Z) : M unit :=
  fun w => (Ok tt, World (seed P n) (w_dirs w) (w_files w)).

(** Code that only draws random numbers, run on the global generator. *)
Definition with_random {A} (r : rng_state -> A * rng_state) : M A :=
  fun w =>
    let '(a, g) := r (w_rng w) in
    (Ok a, World g (w_dirs w) (w_files w)).

Definition ImageFont_truetype (font_path : string) (size : Z) : outcome font :=
  match truetype P font_path size with
  | Some f => Ok f
  | None => Raise OSError
  end.

Definition ImageFont_load_default : outcome font := Ok (load_default P).

(** *** [save_iconset] (lines 40-60) *)

Definition iconset_sizes : list (Z * string) :=
  [ (16, "16x16"); (32, "16x16@2x"); (32, "32x32"); (64, "32x32@2x");
    (128, "128x128"); (256, "128x128@2x"); (256, "256x256");
    (512, "256x256@2x"); (512, "512x512"); (1024, "512x512@2x") ].

Definition save_iconset (im : image) (name : string) (iconset_dir : path) : M unit :=
  os_makedirs iconset_dir ;;
  for_ iconset_sizes (fun '(size, label) =>
    let resized := resize im (size, size) LANCZOS in
    let filename := name +:+ "_" +:+ label +:+ ".png" in
    Image_save resized (os_path_join iconset_dir filename)).

(** *** [create_rounded_rect] (lines 63-86; no routine calls it) *)

(** [if outline:] (line 78) is Python's truth value of the argument: [None],
    the integer 0 and the empty string are false; a tuple of components is
    true. *)
Definition truthy (c : color) : bool :=
  match c with
  | Hex s => negb (String.eqb s EmptyString)
  | RGB _ _ _ | RGBA _ _ _ _ => true
  | Lum v => negb (v =? 0)
  end.

Definition create_rounded_rect (im : image) (xy : box) (radius : Z)
    (fill : color) (outline : option color) (width : Z) : image :=
  let '(x1, y1, x2, y2) := xy in
  let r := radius in
  let im := draw_all im
    [ rectangle (x1 + r, y1, x2 - r, y2) (Some fill);
      rectangle (x1, y1 + r, x2, y2 - r) (Some fill);
      ellipse (x1, y1, x1 + 2 * r, y1 + 2 * r) (Some fill) None 1;
      ellipse (x2 - 2 * r, y1, x2, y1 + 2 * r) (Some fill) None 1;
      ellipse (x1, y2 - 2 * r, x1 + 2 * r, y2) (Some fill) None 1;
      ellipse (x2 - 2 * r, y2 - 2 * r, x2, y2) (Some fill) None 1 ] in
  match outline with
  | Some outline =>
      if truthy outline then
        draw_all im
          [ arc (x1, y1, x1 + 2 * r, y1 + 2 * r) 180 270 outline width;
            arc (x2 - 2 * r, y1, x2, y1 + 2 * r) 270 360 outline width;
            arc (x1, y2 - 2 * r, x1 + 2 * r, y2) 90 180 outline width;
            arc (x2 - 2 * r, y2 - 2 * r, x2, y2) 0 90 outline width;
            line [(x1 + r, y1); (x2 - r, y1)] outline width;
            line [(x1 + r, y2); (x2 - r, y2)] outline width;
            line [(x1, y1 + r); (x1, y2 - r)] outline width;
            line [(x2, y1 + r); (x2, y2 - r)] outline width ]
      else im
  | None => im
  end.

(** *** Text placement

    The four text-drawing routines measure the text with [textbbox] and
    centre it the same way, up to the vertical offset. *)
Definition centred_text (im : image) (center_x center_y : Z) (dy : Q)
    (s : string) (f : font) (fill : color) : image :=
  let '(b0, b1, b2, b3) := textbbox P s f in
  let text_width := b2 - b0 in
  let text_height := b3 - b1 in
  let text_x := center_x - text_width / 2 - b0 in
  let text_y := (inject_Z (center_y - text_height / 2 - b1) - dy)%Q in
  draw im (text (inject_Z text_x, text_y) s f fill).

(** *** [create_app_icon] (lines 89-169) *)

(** Lines 138-146: [truetype] on the first path, on the second when the
    first raises, [load_default] when both raise. *)
Definition app_icon_font : outcome font :=
  let font_size := 240 in
  try_except (ImageFont_truetype "/System/Library/Fonts/STHeiti Light.ttc" font_size)
    (try_except (ImageFont_truetype "/System/Library/Fonts/PingFang.ttc" font_size)
       ImageFont_load_default).

(** Lines 100-105: one horizontal line per row. *)
Definition gradient_line (size y : Z) : draw_op :=
  let progress := (inject_Z y / inject_Z size)%Q in
  let r := int_Q (44 + (60 - 44) * progress)%Q in
  let g := int_Q (44 + (60 - 44) * progress)%Q in
  let b := int_Q (46 + (64 - 46) * progress)%Q in
  line [(0, y); (size, y)] (RGB r g b) 0.

(** Lines 91-159: the canvas.  The copy [bg] made pixel by pixel at lines
    113-116 is never read again and is left out. *)
Definition app_icon_image : outcome image :=
  let size := 1024 in
  let img := Image_new mode_RGBA (size, size) (RGBA 0 0 0 0) in
  let corner_radius := 200 in
  let img := draw_all img (map (gradient_line size) (range size)) in
  let mask := Image_new mode_L (size, size) (Lum 0) in
  let mask := draw mask (rounded_rectangle (0, 0, size, size) corner_radius (Lum 255)) in
  let piece_center := (size / 2, size / 2) in
  let piece_radius := 280 in
  let img := draw img
    (ellipse (fst piece_center - piece_radius, snd piece_center - piece_radius,
              fst piece_center + piece_radius, snd piece_center + piece_radius)
       (Some (Hex "#CC0000")) (Some (Hex "#990000")) 8) in
  let inner_radius := 240 in
  let img := draw img
    (ellipse (fst piece_center - inner_radius, snd piece_center - inner_radius,
              fst piece_center + inner_radius, snd piece_center + inner_radius)
       (Some (Hex "#F5F0E6")) None 1) in
  (f <- app_icon_font ;;
   let img := centred_text img (fst piece_center) (snd piece_center) 10
                "帅" f (Hex "#CC0000") in
   let final_img := Image_new mode_RGBA (size, size) (RGBA 0 0 0 0) in
   let final_img := paste final_img img (0, 0) mask in
   Ok final_img)%outcome.

Definition create_app_icon : M image :=
  final_img <- lift app_icon_image ;;
  let iconset_dir := ["Icons"; "AppIcon.iconset"] in
  save_iconset final_img "AppIcon" iconset_dir ;;
  Image_save final_img ["Icons"; "AppIcon_1024.png"] ;;
  ret final_img.

(** *** [create_board_styles] (lines 172-273) *)

(** Line 191: [max(0, min(255, c + color_var))]. *)
Definition clamp (color_var c : Z) : Z := Z.max 0 (Z.min 255 (c + color_var)).

(** Lines 186-192: one round of the wood-grain loop, from the generator
    state [g] to the line drawn and the state after the four draws. *)
Definition wood_grain_line (size : Z) (g : rng_state) : draw_op * rng_state :=
  let '(x, g) := randint P 0 (size - 1) g in
  let '(y, g) := randint P 0 (size - 1) g in
  let '(length, g) := randint P 20 100 g in
  let '(color_var, g) := randint P (-20) 20 g in
  let color := RGB (clamp color_var 232) (clamp color_var 212) (clamp color_var 162) in
  (line [(x, y); (x, y + length)] color 1, g).

(** Lines 185-192: [for _ in range(rounds)]. *)
Fixpoint wood_grain (size : Z) (rounds : nat) (im : image) (g : rng_state)
    : image * rng_state :=
  match rounds with
  | O => (im, g)
  | S rounds =>
      let '(op, g) := wood_grain_line size g in
      wood_grain size rounds (draw im op) g
  end.

(** The grid and the palace diagonals.  The script draws them three times
    (lines 194-224, 232-247, 255-269) with the same coordinates and a
    different colour and width. *)
Definition board_lines (size margin : Z) (line_color : color) (width : Z)
    : list draw_op :=
  let grid_size := size - 2 * margin in
  let palace_margin_x := margin + 3 * grid_size / 8 in
  let palace_width := 2 * grid_size / 8 in
  let palace_top := margin in
  let palace_bottom := margin + 4 * grid_size / 9 in
  let palace_mid_top := margin + 5 * grid_size / 9 in
  let palace_mid_bottom := size - margin in
  map (fun i =>
         let y := margin + i * grid_size / 9 in
         line [(margin, y); (size - margin, y)] line_color width)
      (range 10)
  ++ flat_map (fun i =>
         let x := margin + i * grid_size / 8 in
         [ line [(x, margin); (x, margin + 4 * grid_size / 9)] line_color width;
           line [(x, margin + 5 * grid_size / 9); (x, size - margin)] line_color width ])
      (range 9)
  ++ [ line [(palace_margin_x, palace_top);
             (palace_margin_x + palace_width, palace_bottom)] line_color width;
       line [(palace_margin_x + palace_width, palace_top);
             (palace_margin_x, palace_bottom)] line_color width;
       line [(palace_margin_x, palace_mid_bottom);
             (palace_margin_x + palace_width, palace_mid_top)] line_color width;
       line [(palace_margin_x + palace_width, palace_mid_bottom);
             (palace_margin_x, palace_mid_top)] line_color width ].

Definition create_board_styles : M unit :=
  let board_dir := ["BoardStyles"] in
  let size := 1024 in
  let wood_img := Image_new mode_RGB (size, size) (Hex "#E8D4A2") in
  random_seed 42 ;;
  wood_img <- with_random (wood_grain size 5000 wood_img) ;;
  let margin := 80 in
  let wood_img := draw_all wood_img (board_lines size margin (Hex "#5C4033") 2) in
  Image_save wood_img (os_path_join board_dir "Board_Wood.png") ;;
  let modern_light := Image_new mode_RGB (size, size) (Hex "#F5F5F7") in
  let modern_light := draw_all modern_light (board_lines size margin (Hex "#8E8E93") 1) in
  Image_save modern_light (os_path_join board_dir "Board_Modern_Light.png") ;;
  let modern_dark := Image_new mode_RGB (size, size) (Hex "#1C1C1E") in
  let modern_dark := draw_all modern_dark (board_lines size margin (Hex "#636366") 1) in
  Image_save modern_dark (os_path_join board_dir "Board_Modern_Dark.png").

(** *** Font lookup of the pieces and the launch screen

    Lines 349-368, 416-434 and 667-685 are the same code up to the font
    size. *)
Definition font_paths : list string :=
  [ "/System/Library/Fonts/STHeiti Light.ttc";
    "/System/Library/Fonts/PingFang.ttc";
    "/System/Library/Fonts/Hiragino Sans GB.ttc" ].

(** The [for path in font_paths] loop: the value of [font] after it. *)
Fixpoint first_loadable (paths : list string) (font_size : Z)
    : outcome (option font) :=
  match paths with
  | [] => Ok None
  | font_path :: rest =>
      if path_exists P font_path
      then try_except
             (f <- ImageFont_truetype font_path font_size ;; Ok (Some f))%outcome
                                                        (* font = ...; break *)
             (first_loadable rest font_size)            (* continue *)
      else first_loadable rest font_size
  end.

Definition resolve_font (font_size : Z) : outcome font :=
  try_except
    (found <- first_loadable font_paths font_size ;;
     match found with
     | Some f => Ok f
     | None => ImageFont_load_default
     end)%outcome
    ImageFont_load_default.

(** *** [create_traditional_piece] (lines 316-379) *)

Definition create_traditional_piece (size : Z) (char : string) (colour : string)
    : outcome image :=
  (img <- new_image mode_RGBA (size, size) (RGBA 0 0 0 0) ;;
   let center := size / 2 in
   let radius := int_Q (inject_Z size * (45 # 100))%Q in
   let '(border_color, bg_color, text_color) :=
     if decide (colour = "red")
     then (Hex "#CC0000", Hex "#F5F0E6", Hex "#CC0000")
     else (Hex "#1A1A1A", Hex "#F5F0E6", Hex "#1A1A1A") in
   let img := draw img
     (ellipse (center - radius - 2, center - radius - 2,
               center + radius + 2, center + radius + 2)
        (Some border_color) None 1) in
   let img := draw img
     (ellipse (center - radius, center - radius, center + radius, center + radius)
        (Some bg_color) None 1) in
   f <- resolve_font (int_Q (inject_Z size * (55 # 100))%Q) ;;
   Ok (centred_text img center center (inject_Z size * (5 # 100))%Q
         char f text_color))%outcome.

(** *** [create_modern_piece] (lines 382-444) *)

Definition create_modern_piece (size : Z) (char : string) (colour : string)
    : outcome image :=
  (img <- new_image mode_RGBA (size, size) (RGBA 0 0 0 0) ;;
   let center := size / 2 in
   let radius := int_Q (inject_Z size * (42 # 100))%Q in
   let '(bg_color, text_color, shadow_color) :=
     if decide (colour = "red")
     then (Hex "#FF3B30", Hex "#FFFFFF", Hex "#CC2E24")
     else (Hex "#1C1C1E", Hex "#FFFFFF", Hex "#000000") in
   let shadow_offset := int_Q (inject_Z size * (3 # 100))%Q in
   let img := draw img
     (ellipse (center - radius + shadow_offset, center - radius + shadow_offset,
               center + radius + shadow_offset, center + radius + shadow_offset)
        (Some shadow_color) None 1) in
   let img := draw img
     (ellipse (center - radius, center - radius, center + radius, center + radius)
        (Some bg_color) None 1) in
   f <- resolve_font (int_Q (inject_Z size * (5 # 10))%Q) ;;
   Ok (centred_text img center center (inject_Z size * (5 # 100))%Q
         char f text_color))%outcome.

(** *** [create_pieces] (lines 276-313) *)

Definition red_pieces : list string := ["帅"; "仕"; "相"; "傌"; "俥"; "炮"; "兵"].
Definition black_pieces : list string := ["将"; "士"; "象"; "马"; "车"; "砲"; "卒"].

(** [enumerate(xs)] *)
Definition enumerate {A} (xs : list A) : list (Z * A) :=
  zip (seqZ 0 (Z.of_nat (length xs))) xs.

(** One style at one size: the inner loop of lines 291-298 and 304-311. *)
Definition save_piece_set (create_piece : Z -> string -> string -> outcome image)
    (size : Z) (dir : path) : M unit :=
  for_ (enumerate (zip red_pieces black_pieces)) (fun '(i, (red_char, black_char)) =>
    img <- lift (create_piece size red_char "red") ;;
    Image_save img (os_path_join dir ("Red_" +:+ str i +:+ ".png")) ;;
    img <- lift (create_piece size black_char "black") ;;
    Image_save img (os_path_join dir ("Black_" +:+ str i +:+ ".png"))).

Definition create_pieces : M unit :=
  let piece_dir := ["PieceStyles"] in
  let sizes := [64; 128; 256] in
  for_ sizes (fun size =>
    let trad_dir := os_path_join (os_path_join piece_dir "Traditional") (str size) in
    os_makedirs trad_dir ;;
    save_piece_set create_traditional_piece size trad_dir ;;
    let modern_dir := os_path_join (os_path_join piece_dir "Modern") (str size) in
    os_makedirs modern_dir ;;
    save_piece_set create_modern_piece size modern_dir).

(** *** [create_toolbar_icons] (lines 447-525) *)

(** The [icons] dict, in insertion order: name, (type, colour). *)
Definition toolbar_icons : list (string * (string * string)) :=
  [ ("NewGame", ("new", "#007AFF"));
    ("Undo", ("undo", "#5856D6"));
    ("Hint", ("hint", "#FF9500"));
    ("Settings", ("settings", "#8E8E93"));
    ("Analysis", ("analysis", "#34C759")) ].

Definition toolbar_sizes : list Z := [18; 24; 36].

(** Lines 464-518: the canvas of one icon at one size. *)
Definition toolbar_icon (icon_type colour : string) (size : Z) : image :=
  let img := Image_new mode_RGBA (size, size) (RGBA 0 0 0 0) in
  let center := size / 2 in
  let stroke := Z.max 1 (size / 12) in
  let color := Hex colour in
  if decide (icon_type = "new") then
    draw_all img
      [ line [(center, stroke); (center, size - stroke)] color stroke;
        line [(stroke, center); (size - stroke, center)] color stroke ]
  else if decide (icon_type = "undo") then
    let arc_radius := size / 3 in
    let arrow_x := center - arc_radius in
    let arrow_y := center in
    draw_all img
      [ arc (center - arc_radius, center - arc_radius,
             center + arc_radius, center + arc_radius) 200 340 color stroke;
        polygon [ (arrow_x, arrow_y);
                  (arrow_x + stroke * 2, arrow_y - stroke);
                  (arrow_x + stroke * 2, arrow_y + stroke) ] color ]
  else if decide (icon_type = "hint") then
    let bulb_radius := size / 3 in
    draw_all img
      [ ellipse (center - bulb_radius, center - bulb_radius - stroke,
                 center + bulb_radius, center + bulb_radius - stroke)
          (Some color) (Some color) 1;
        rectangle (center - stroke, center + stroke,
                   center + stroke, center + bulb_radius + stroke * 2)
          (Some color) ]
  else if decide (icon_type = "settings") then
    let gear_radius := size / 3 in
    draw_all img
      [ ellipse (center - gear_radius, center - gear_radius,
                 center + gear_radius, center + gear_radius)
          None (Some color) stroke;
        ellipse (center - stroke, center - stroke, center + stroke, center + stroke)
          (Some color) None 1 ]
  else if decide (icon_type = "analysis") then
    let points := [ (stroke * 4, size - stroke * 4); (size / 3, size / 2);
                    (size / 2, size / 3); (size - stroke * 4, stroke * 4) ] in
    draw_all img
      [ line [(stroke * 2, size - stroke * 2); (stroke * 2, stroke * 2)] color stroke;
        line [(stroke * 2, size - stroke * 2);
              (size - stroke * 2, size - stroke * 2)] color stroke;
        line points color stroke ]
  else img.

(** Lines 521-523: the file name of an icon drawn at [size]. *)
Definition toolbar_filename (icon_name : string) (size : Z) : string :=
  let scale_suffix := if bool_decide (size <= 24) then "" else "@2x" in
  let save_size := if bool_decide (size <= 24) then size else size / 2 in
  icon_name +:+ "_" +:+ str save_size +:+ "x" +:+ str save_size
    +:+ scale_suffix +:+ ".png".

Definition create_toolbar_icons : M unit :=
  let toolbar_dir := ["Toolbar"] in
  os_makedirs toolbar_dir ;;
  for_ toolbar_icons (fun '(icon_name, (icon_type, colour)) =>
    for_ toolbar_sizes (fun size =>
      let img := toolbar_icon icon_type colour size in
      Image_save img (os_path_join toolbar_dir (toolbar_filename icon_name size)))).

(** *** [create_ui_elements] (lines 528-594) *)

(** Lines 542-548: the rings of the selection highlight. *)
Definition selection_ring (center radius i : Z) : draw_op :=
  let alpha := 50 - i * 4 in
  ellipse (center - radius - i, center - radius - i,
           center + radius + i, center + radius + i)
    None (Some (RGBA 0 122 255 alpha)) 2.

(** Lines 570-576: the rings of the check warning. *)
Definition check_ring (center radius i : Z) : draw_op :=
  let alpha := 100 - i * 15 in
  ellipse (center - radius - i * 3, center - radius - i * 3,
           center + radius + i * 3, center + radius + i * 3)
    None (Some (RGBA 255 59 48 alpha)) 3.

Definition selection_image (size : Z) : image :=
  let selection := Image_new mode_RGBA (size, size) (RGBA 0 0 0 0) in
  let center := size / 2 in
  let radius := size / 2 - 10 in
  draw_all selection (map (selection_ring center radius) (range_down 10)).

Definition move_dot_image (size : Z) : image :=
  let move_dot := Image_new mode_RGBA (size, size) (RGBA 0 0 0 0) in
  let center := size / 2 in
  let dot_radius := size / 6 in
  draw move_dot
    (ellipse (center - dot_radius, center - dot_radius,
              center + dot_radius, center + dot_radius)
       (Some (RGBA 52 199 89 180)) None 1).

Definition check_warning_image (size : Z) : image :=
  let check_warning := Image_new mode_RGBA (size, size) (RGBA 0 0 0 0) in
  let center := size / 2 in
  let radius := size / 2 - 10 in
  draw_all check_warning (map (check_ring center radius) (range_down 5)).

Definition last_move_image (size : Z) : image :=
  let last_move := Image_new mode_RGBA (size, size) (RGBA 0 0 0 0) in
  let center := size / 2 in
  let radius := size / 2 - 5 in
  draw last_move
    (ellipse (center - radius, center - radius, center + radius, center + radius)
       None (Some (RGBA 255 149 0 150)) 3).

Definition create_ui_elements : M unit :=
  let ui_dir := ["UI"] in
  os_makedirs ui_dir ;;
  let size := 256 in
  Image_save (selection_image size) (os_path_join ui_dir "Selection_Highlight.png") ;;
  Image_save (move_dot_image size) (os_path_join ui_dir "Move_Indicator.png") ;;
  Image_save (check_warning_image size) (os_path_join ui_dir "Check_Warning.png") ;;
  Image_save (last_move_image size) (os_path_join ui_dir "Last_Move_Indicator.png").

(** *** [create_launch_screen] (lines 628-716) *)

Definition launch_sizes : list (Z * Z * string) :=
  [ (800, 600, "LaunchScreen_800x600");
    (1024, 768, "LaunchScreen_1024x768");
    (1200, 800, "LaunchScreen_1200x800");
    (1600, 1000, "LaunchScreen_1600x1000") ].

(** Lines 697-703. *)
Definition launch_name_font : outcome font :=
  try_except (ImageFont_truetype "/System/Library/Fonts/SFProDisplay-Semibold.otf" 36)
    (try_except (ImageFont_truetype "/System/Library/Fonts/Helvetica.ttc" 36)
       ImageFont_load_default).

(** Lines 642-711: the canvas of one launch screen. *)
Definition launch_image (width height : Z) : outcome image :=
  (img <- new_image mode_RGB (width, height) (Hex "#F5F5F7") ;;
   let center_x := width / 2 in
   let center_y := height / 2 in
   let piece_radius := Z.min width height / 8 in
   let img := draw img
     (ellipse (center_x - piece_radius, center_y - piece_radius - 40,
               center_x + piece_radius, center_y + piece_radius - 40)
        (Some (Hex "#CC0000")) (Some (Hex "#990000")) 4) in
   let inner_radius := int_Q (inject_Z piece_radius * (85 # 100))%Q in
   let img := draw img
     (ellipse (center_x - inner_radius, center_y - inner_radius - 40,
               center_x + inner_radius, center_y + inner_radius - 40)
        (Some (Hex "#F5F0E6")) None 1) in
   f <- resolve_font (int_Q (inject_Z piece_radius * (12 # 10))%Q) ;;
   let img := centred_text img center_x center_y 40 "棋" f (Hex "#CC0000") in
   name_font <- launch_name_font ;;
   let app_name := "Chinese Chess" in
   let '(b0, _, b2, _) := textbbox P app_name name_font in
   let name_width := b2 - b0 in
   let name_x := center_x - name_width / 2 in
   let name_y := center_y + piece_radius + 20 in
   Ok (draw img (text (inject_Z name_x, inject_Z name_y) app_name name_font
                   (Hex "#1C1C1E"))))%outcome.

Definition create_launch_screen : M unit :=
  let launch_dir := ["LaunchScreen"] in
  os_makedirs launch_dir ;;
  for_ launch_sizes (fun '(width, height, name) =>
    img <- lift (launch_image width height) ;;
    Image_save img (os_path_join launch_dir (name +:+ ".png"))).

(** *** [main] (lines 597-625) *)

Definition main : M unit :=
  create_app_icon ;;
  create_board_styles ;;
  create_pieces ;;
  create_toolbar_icons ;;
  create_ui_elements ;;
  create_launch_screen.

(** The six routines in the order [main] calls them, and the run of any
    sequence of routines: the next one starts only if the one before
    returned. *)
Inductive routine :=
| app_icon | board_styles | pieces | toolbar | ui_elements | launch_screen.

#[global] Instance routine_eq_dec : EqDecision routine.
Proof. solve_decision. Defined.

Definition main_order : list routine :=
  [app_icon; board_styles; pieces; toolbar; ui_elements; launch_screen].

Definition run_routine (r : routine) : M unit :=
  match r with
  | app_icon => create_app_icon ;; ret tt
  | board_styles => create_board_styles
  | pieces => create_pieces
  | toolbar => create_toolbar_icons
  | ui_elements => create_ui_elements
  | launch_screen => create_launch_screen
  end.

Definition run_in_order (order : list routine) : M unit := for_ order run_routine.

(** *** The disk and generator operations of a routine, in sequence

    Every routine comes down to a fixed sequence of three kinds of steps:
    [os.makedirs], saving the image an expression evaluates to, and leaving
    the generator in a given state.  [exec] runs such a sequence; the
    lemmas below show each routine equal to the run of its own. *)
Inductive fs_op :=
| Makedirs (p : path)
| SaveOf (o : outcome image) (p : path)
| Reseed (g : rng_state).

Definition step (op : fs_op) : M unit :=
  match op with
  | Makedirs p => os_makedirs p
  | SaveOf o p => img <- lift o ;; Image_save img p
  | Reseed g => fun w => (Ok tt, World g (w_dirs w) (w_files w))
  end.

Definition exec (s : list fs_op) : M unit := for_ s step.

Definition iconset_script (o : outcome image) (name : string) (iconset_dir : path)
    : list fs_op :=
  Makedirs iconset_dir
  :: map (fun '(size, label) =>
            SaveOf (im <- o ;; Ok (resize im (size, size) LANCZOS))%outcome
              (os_path_join iconset_dir (name +:+ "_" +:+ label +:+ ".png")))
       iconset_sizes.

Definition app_icon_script : list fs_op :=
  iconset_script app_icon_image "AppIcon" ["Icons"; "AppIcon.iconset"]
  ++ [SaveOf app_icon_image ["Icons"; "AppIcon_1024.png"]].

Definition board_script : list fs_op :=
  let size := 1024 in
  let grain := wood_grain size 5000 (Image_new mode_RGB (size, size) (Hex "#E8D4A2"))
                 (seed P 42) in
  let board bg line_color width :=
    draw_all bg (board_lines size 80 (Hex line_color) width) in
  [ Reseed (snd grain);
    SaveOf (Ok (board (fst grain) "#5C4033" 2)) ["BoardStyles"; "Board_Wood.png"];
    SaveOf (Ok (board (Image_new mode_RGB (size, size) (Hex "#F5F5F7")) "#8E8E93" 1))
      ["BoardStyles"; "Board_Modern_Light.png"];
    SaveOf (Ok (board (Image_new mode_RGB (size, size) (Hex "#1C1C1E")) "#636366" 1))
      ["BoardStyles"; "Board_Modern_Dark.png"] ].

Definition piece_set_script (create_piece : Z -> string -> string -> outcome image)
    (size : Z) (dir : path) : list fs_op :=
  flat_map (fun '(i, (red_char, black_char)) =>
              [ SaveOf (create_piece size red_char "red")
                  (os_path_join dir ("Red_" +:+ str i +:+ ".png"));
                SaveOf (create_piece size black_char "black")
                  (os_path_join dir ("Black_" +:+ str i +:+ ".png")) ])
    (enumerate (zip red_pieces black_pieces)).

Definition pieces_script : list fs_op :=
  flat_map (fun size =>
              Makedirs ["PieceStyles"; "Traditional"; str size]
              :: piece_set_script create_traditional_piece size
                   ["PieceStyles"; "Traditional"; str size]
              ++ Makedirs ["PieceStyles"; "Modern"; str size]
              :: piece_set_script create_modern_piece size
                   ["PieceStyles"; "Modern"; str size])
    [64; 128; 256].

Definition toolbar_script : list fs_op :=
  Makedirs ["Toolbar"]
  :: flat_map (fun '(icon_name, (icon_type, colour)) =>
                 map (fun size =>
                        SaveOf (Ok (toolbar_icon icon_type colour size))
                          ["Toolbar"; toolbar_filename icon_name size])
                   toolbar_sizes)
       toolbar_icons.

Definition ui_script : list fs_op :=
  [ Makedirs ["UI"];
    SaveOf (Ok (selection_image 256)) ["UI"; "Selection_Highlight.png"];
    SaveOf (Ok (move_dot_image 256)) ["UI"; "Move_Indicator.png"];
    SaveOf (Ok (check_warning_image 256)) ["UI"; "Check_Warning.png"];
    SaveOf (Ok (last_move_image 256)) ["UI"; "Last_Move_Indicator.png"] ].

Definition launch_script : list fs_op :=
  Makedirs ["LaunchScreen"]
  :: map (fun '(width, height, name) =>
            SaveOf (launch_image width height) ["LaunchScreen"; name +:+ ".png"])
       launch_sizes.

Definition routine_script (r : routine) : list fs_op :=
  match r with
  | app_icon => app_icon_script
  | board_styles => board_script
  | pieces => pieces_script
  | toolbar => toolbar_script
  | ui_elements => ui_script
  | launch_screen => launch_script
  end.

(** What a step touches, without the image. *)
Inductive op_key :=
| K_makedirs (p : path)
| K_save (p : path)
| K_reseed.

#[global] Instance op_key_eq_dec : EqDecision op_key.
Proof. solve_decision. Defined.

Definition key_of (op : fs_op) : op_key :=
  match op with
  | Makedirs p => K_makedirs p
  | SaveOf _ p => K_save p
  | Reseed _ => K_reseed
  end.

Definition saved_paths (s : list fs_op) : list path :=
  omap (fun op => match op with SaveOf _ p => Some p | _ => None end) s.

Definition made_dirs (s : list fs_op) : list path :=
  flat_map (fun op => match op with Makedirs p => ancestors p | _ => [] end) s.

(** The image expression the first save to [p] in a sequence is of. *)
Fixpoint saved_as (s : list fs_op) (p : path) : option (outcome image) :=
  match s with
  | [] => None
  | SaveOf o q :: s => if decide (q = p) then Some o else saved_as s p
  | _ :: s => saved_as s p
  end.

(** The file [p] holds the image that [o] evaluates to. *)
Definition holds (files : gmap path image) (p : path) (o : outcome image) : Prop :=
  exists im, o = Ok im /\ files !! p = Some im.

(** *** What the font lookup comes to

    The first path of the list, in order, that is there (when the lookup
    checks [os.path.exists]) and that [truetype] loads; the default font
    when there is none. *)
Fixpoint first_font (check_exists : bool) (paths : list string) (font_size : Z)
    : option font :=
  match paths with
  | [] => None
  | font_path :: rest =>
      if negb check_exists || path_exists P font_path
      then match truetype P font_path font_size with
           | Some f => Some f
           | None => first_font check_exists rest font_size
           end
      else first_font check_exists rest font_size
  end.

Definition font_or_default (check_exists : bool) (paths : list string)
    (font_size : Z) : font :=
  default (load_default P) (first_font check_exists paths font_size).

End Generator.

(** Two steps are independent when neither can see what the other does:
    two [makedirs]; two saves to different paths; a [makedirs] and a save
    whose file and directory are not on the way to the directory made; a
    reseeding and anything but a reseeding. *)
Definition independent (k1 k2 : op_key) : bool :=
  match k1, k2 with
  | K_reseed, K_reseed => false
  | K_reseed, _ | _, K_reseed => true
  | K_makedirs _, K_makedirs _ => true
  | K_save p, K_save q => bool_decide (p ≠ q)
  | K_makedirs d, K_save f | K_save f, K_makedirs d =>
      bool_decide ((f ∉ ancestors d) ∧ (dirname f ∉ ancestors d))
  end.

Definition independent_keys (ks1 ks2 : list op_key) : bool :=
  forallb (fun k1 => forallb (independent k1) ks2) ks1.

(** Whether a sequence of steps goes through on a disk that takes every
    write, from the directories [dirs] and the files [files]. *)
Fixpoint keys_ok (ks : list op_key) (dirs files : gset path) : bool :=
  match ks with
  | [] => true
  | K_makedirs d :: ks =>
      forallb (fun q => bool_decide (q ∉ files)) (ancestors d)
      && keys_ok ks (list_to_set (ancestors d) ∪ dirs) files
  | K_save f :: ks =>
      bool_decide (dirname f ∈ dirs) && bool_decide (f ∉ dirs)
      && keys_ok ks dirs ({[ f ]} ∪ files)
  | K_reseed :: ks => keys_ok ks dirs files
  end.

(** ** A small platform to run the generator on

    A linear congruential generator stands for [random]; one of the font
    files exists and loads, the others do not; the disk accepts every
    write. *)
Definition demo_randint (a b g : Z) : Z * Z :=
  let g' := (g * 1103515245 + 12345) mod 2147483648 in
  (a + g' mod (b - a + 1), g').

Definition demo_platform : platform Z (string * Z) :=
  {| seed := fun n => n;
     randint := demo_randint;
     path_exists := fun p => bool_decide (p = "/System/Library/Fonts/PingFang.ttc");
     truetype := fun p size =>
       if bool_decide (p = "/System/Library/Fonts/PingFang.ttc")
       then Some (p, size) else None;
     load_default := ("default", 10);
     textbbox := fun s f => (0, 2, snd f * Z.of_nat (String.length s), snd f + 2);
     disk_accepts := fun _ => true |}.

(** An output tree with nothing in it, and one where [BoardStyles] has been
    created by hand; the generator is in state [g]. *)
Definition empty_tree (g : Z) : world Z (string * Z) :=
  World g {[ [] ]} ∅.

Definition prepared_tree (g : Z) : world Z (string * Z) :=
  World g {[ []; ["BoardStyles"] ]} ∅.

(** A tree in which a regular file stands where the directory [BoardStyles]
    is expected. *)
Definition board_file_tree (g : Z) : world Z (string * Z) :=
  World g {[ [] ]} {[ ["BoardStyles"] := Image_new mode_RGB (1, 1) (Hex "#000000") ]}.

(** ** The output tree as the specification describes it

    The files each routine is to produce, with the pixel size of each:
    the icon set and the 1024 master, the three board textures, fourteen
    pieces per style and size, three files per toolbar action, the four
    overlays and the four launch screens. *)
Definition iconset_labels : list string :=
  [ "16x16"; "16x16@2x"; "32x32"; "32x32@2x"; "128x128"; "128x128@2x";
    "256x256"; "256x256@2x"; "512x512"; "512x512@2x" ].

Definition piece_styles : list string := ["Traditional"; "Modern"].
Definition piece_sizes : list Z := [64; 128; 256].
Definition piece_file_names : list string :=
  [ "Red_0.png"; "Red_1.png"; "Red_2.png"; "Red_3.png"; "Red_4.png";
    "Red_5.png"; "Red_6.png";
    "Black_0.png"; "Black_1.png"; "Black_2.png"; "Black_3.png"; "Black_4.png";
    "Black_5.png"; "Black_6.png" ].

Definition piece_paths : list path :=
  style ← piece_styles; size ← piece_sizes; name ← piece_file_names;
  [ ["PieceStyles"; style; str size; name] ].

Definition toolbar_names : list string :=
  ["NewGame"; "Undo"; "Hint"; "Settings"; "Analysis"].

Definition toolbar_paths : list path :=
  name ← toolbar_names;
  [ ["Toolbar"; name +:+ "_18x18.png"];
    ["Toolbar"; name +:+ "_24x24.png"];
    ["Toolbar"; name +:+ "_18x18@2x.png"] ].

Definition app_icon_paths : list path :=
  map (fun label => ["Icons"; "AppIcon.iconset"; "AppIcon_" +:+ label +:+ ".png"])
    iconset_labels
  ++ [ ["Icons"; "AppIcon_1024.png"] ].

Definition expected_sizes (r : routine) : list (path * (Z * Z)) :=
  match r with
  | app_icon =>
      map (fun '(n, label) =>
             (["Icons"; "AppIcon.iconset"; "AppIcon_" +:+ label +:+ ".png"], (n, n)))
        iconset_sizes
      ++ [ (["Icons"; "AppIcon_1024.png"], (1024, 1024)) ]
  | board_styles =>
      [ (["BoardStyles"; "Board_Wood.png"], (1024, 1024));
        (["BoardStyles"; "Board_Modern_Light.png"], (1024, 1024));
        (["BoardStyles"; "Board_Modern_Dark.png"], (1024, 1024)) ]
  | pieces =>
      style ← piece_styles; size ← piece_sizes; name ← piece_file_names;
      [ (["PieceStyles"; style; str size; name], (size, size)) ]
  | toolbar =>
      name ← toolbar_names;
      [ (["Toolbar"; name +:+ "_18x18.png"], (18, 18));
        (["Toolbar"; name +:+ "_24x24.png"], (24, 24));
        (["Toolbar"; name +:+ "_18x18@2x.png"], (36, 36)) ]
  | ui_elements =>
      [ (["UI"; "Selection_Highlight.png"], (256, 256));
        (["UI"; "Move_Indicator.png"], (256, 256));
        (["UI"; "Check_Warning.png"], (256, 256));
        (["UI"; "Last_Move_Indicator.png"], (256, 256)) ]
  | launch_screen =>
      [ (["LaunchScreen"; "LaunchScreen_800x600.png"], (800, 600));
        (["LaunchScreen"; "LaunchScreen_1024x768.png"], (1024, 768));
        (["LaunchScreen"; "LaunchScreen_1200x800.png"], (1200, 800));
        (["LaunchScreen"; "LaunchScreen_1600x1000.png"], (1600, 1000)) ]
  end.

Definition routine_files (r : routine) : list path := map fst (expected_sizes r).

(** A save of a routine's sequence is of an image that is produced, to a
    path and at a size of the routine's table. *)
Definition saves_sized {rng_state font} (r : routine)
    (op : @fs_op rng_state font) : Prop :=
  match op with
  | SaveOf o p => exists im, o = Ok im /\ (p, im_size im) ∈ expected_sizes r
  | _ => True
  end.

(** Two lists with the same elements. *)
Definition same_elements {A} (l1 l2 : list A) : Prop :=
  Forall (fun x => x ∈ l2) l1 /\ Forall (fun x => x ∈ l1) l2.

(** Every call of an image paints with colours in range; the alpha values
    its calls use. *)
Definition op_in_range {font} (op : draw_op font) : Prop :=
  Forall color_in_range (op_colors op).

Definition alphas {font} (im : image font) : list Z :=
  omap alpha_of (flat_map op_colors (im_ops im)).

(** ** Geometry, the directory of a routine, the generator's contract *)

(** The points a drawing call is given: the vertices of a line or polygon,
    the two corners of the box of the other shapes.  The extent of a text
    depends on the font and is not part of it. *)
Definition op_points {font} (op : draw_op font) : list point :=
  match op with
  | line xy _ _ => xy
  | polygon xy _ => xy
  | rectangle (x1, y1, x2, y2) _ => [(x1, y1); (x2, y2)]
  | ellipse (x1, y1, x2, y2) _ _ _ => [(x1, y1); (x2, y2)]
  | arc (x1, y1, x2, y2) _ _ _ _ => [(x1, y1); (x2, y2)]
  | rounded_rectangle (x1, y1, x2, y2) _ _ => [(x1, y1); (x2, y2)]
  | text _ _ _ _ => []
  end.

Definition in_box (b : box) (pt : point) : Prop :=
  let '(x1, y1, x2, y2) := b in
  x1 <= fst pt <= x2 /\ y1 <= snd pt <= y2.

Definition op_in_box {font} (b : box) (op : draw_op font) : Prop :=
  Forall (in_box b) (op_points op).

(** The pixels of a canvas: columns 0 to [width - 1], rows 0 to
    [height - 1].  A shape whose box ends at [width] or [height] reaches one
    past the last column or row. *)
Definition canvas_box (size : Z * Z) : box := (0, 0, fst size - 1, snd size - 1).

(** The directory below [ASSETS_DIR] each routine names as its own
    ([iconset_dir] and the master under [Icons], [board_dir], [piece_dir],
    [toolbar_dir], [ui_dir], [launch_dir]). *)
Definition routine_dir (r : routine) : string :=
  match r with
  | app_icon => "Icons"
  | board_styles => "BoardStyles"
  | pieces => "PieceStyles"
  | toolbar => "Toolbar"
  | ui_elements => "UI"
  | launch_screen => "LaunchScreen"
  end.

(** The directories there are when [main] has returned from a tree that
    held [BoardStyles] only. *)
Definition output_dirs : list path :=
  [ []; ["Icons"]; ["Icons"; "AppIcon.iconset"]; ["BoardStyles"]; ["PieceStyles"] ]
  ++ (style ← piece_styles;
      ["PieceStyles"; style] :: (size ← piece_sizes; [ ["PieceStyles"; style; str size] ]))
  ++ [ ["Toolbar"]; ["UI"]; ["LaunchScreen"] ].

(** The number of reseedings in a sequence of steps. *)
Fixpoint reseeds (ks : list op_key) : nat :=
  match ks with
  | [] => 0
  | K_reseed :: ks => S (reseeds ks)
  | _ :: ks => reseeds ks
  end.

(** What [random.randint(a, b)] promises: a value between [a] and [b]. *)
Definition randint_in_range {rng_state font} (P : platform rng_state font) : Prop :=
  forall a b g, a <= b -> a <= fst (randint P a b g) <= b.

(** A line of the wood grain on a canvas of side [size]: vertical, from a
    point of the canvas down by 20 to 100, one pixel wide, in the base
    colour moved by the same amount, at most 20, on the three channels. *)
Definition grain_line {font} (size : Z) (op : draw_op font) : Prop :=
  exists x y length color_var,
    0 <= x <= size - 1 /\ 0 <= y <= size - 1 /\ 20 <= length <= 100
    /\ -20 <= color_var <= 20
    /\ op = line [(x, y); (x, y + length)]
              (RGB (232 + color_var) (212 + color_var) (162 + color_var)) 1.

(** A platform where the only font file there is, and the only one that
    loads, is Hiragino Sans GB. *)
Definition hiragino_platform : platform Z (string * Z) :=
  {| seed := fun n => n;
     randint := demo_randint;
     path_exists := fun p =>
       bool_decide (p = "/System/Library/Fonts/Hiragino Sans GB.ttc");
     truetype := fun p size =>
       if bool_decide (p = "/System/Library/Fonts/Hiragino Sans GB.ttc")
       then Some (p, size) else None;
     load_default := ("default", 10);
     textbbox := fun s f => (0, 2, snd f * Z.of_nat (String.length s), snd f + 2);
     disk_accepts := fun _ => true |}.

(** A disk that takes every write but the one to [refused]. *)
Definition refusing_platform (refused : path) : platform Z (string * Z) :=
  {| seed := fun n => n;
     randint := demo_randint;
     path_exists := fun _ => false;
     truetype := fun _ _ => None;
     load_default := ("default", 10);
     textbbox := fun s f => (0, 2, snd f * Z.of_nat (String.length s), snd f + 2);
     disk_accepts := fun p => bool_decide (p <> refused) |}.

(** * Properties *)

(** ** The arithmetic of the script at the sizes it uses

    The truncations [int(size * c)] at the three piece sizes and the four
    launch screens, and the file names built from numbers. *)
Example piece_radii :
  map (fun size => int_Q (inject_Z size * (45 # 100))%Q) piece_sizes = [28; 57; 115]
  /\ map (fun size => int_Q (inject_Z size * (42 # 100))%Q) piece_sizes = [26; 53; 107]
  /\ map (fun size => int_Q (inject_Z size * (3 # 100))%Q) piece_sizes = [1; 3; 7].
Proof. repeat split; reflexivity. Qed.

Example piece_font_sizes :
  map (fun size => int_Q (inject_Z size * (55 # 100))%Q) piece_sizes = [35; 70; 140]
  /\ map (fun size => int_Q (inject_Z size * (5 # 10))%Q) piece_sizes = [32; 64; 128].
Proof. split; reflexivity. Qed.

Example launch_radii :
  map (fun '(width, height, _) =>
         let piece_radius := Z.min width height / 8 in
         (piece_radius,
          int_Q (inject_Z piece_radius * (85 # 100))%Q,
          int_Q (inject_Z piece_radius * (12 # 10))%Q))
    launch_sizes
  = [(75, 63, 90); (96, 81, 115); (100, 85, 120); (125, 106, 150)].
Proof. reflexivity. Qed.

Example toolbar_file_names :
  map (toolbar_filename "NewGame") toolbar_sizes
  = ["NewGame_18x18.png"; "NewGame_24x24.png"; "NewGame_18x18@2x.png"].
Proof. reflexivity. Qed.

Example board_grid_rows :
  map (fun i => 80 + i * (1024 - 2 * 80) / 9) (range 10)
  = [80; 176; 272; 368; 464; 560; 656; 752; 848; 944].
Proof. reflexivity. Qed.

Example ring_indices : range_down 10 = [10; 9; 8; 7; 6; 5; 4; 3; 2; 1].
Proof. reflexivity. Qed.

Example demo_font_lookups :
  app_icon_font demo_platform = Ok ("/System/Library/Fonts/PingFang.ttc", 240)
  /\ resolve_font demo_platform 35 = Ok ("/System/Library/Fonts/PingFang.ttc", 35)
  /\ launch_name_font demo_platform = Ok ("default", 10).
Proof. repeat split; reflexivity. Qed.

Example demo_main_on_empty_tree :
  fst (main demo_platform (empty_tree 7)) = Raise FileNotFoundError
  /\ size (w_files (snd (main demo_platform (empty_tree 7)))) = 11%nat.
Proof. split; vm_compute; reflexivity. Qed.

Example demo_main_on_prepared_tree :
  fst (main demo_platform (prepared_tree 7)) = Ok tt
  /\ size (w_files (snd (main demo_platform (prepared_tree 7)))) = 121%nat.
Proof. split; vm_compute; reflexivity. Qed.

Section Properties.
Context {rng_state font : Type} (P : platform rng_state font).

#[local] Abbreviation world := (world rng_state font).
#[local] Abbreviation image := (image font).
#[local] Abbreviation fs_op := (@fs_op rng_state font).

(** ** Font lookup *)

Lemma first_loadable_total paths size :
  first_loadable P paths size = Ok (first_font P true paths size).
Proof.
  induction paths as [|font_path rest IH]; simpl; [reflexivity|].
  destruct (path_exists P font_path); simpl; [|exact IH].
  unfold ImageFont_truetype.
  destruct (truetype P font_path size); simpl; [reflexivity | exact IH].
Qed.

Lemma resolve_font_total size :
  resolve_font P size = Ok (font_or_default P true font_paths size).
Proof.
  unfold resolve_font, font_or_default.
  rewrite first_loadable_total.
  generalize (first_font P true font_paths size). intros [f|]; reflexivity.
Qed.

Lemma app_icon_font_total :
  app_icon_font P =
  Ok (font_or_default P false
        [ "/System/Library/Fonts/STHeiti Light.ttc";
          "/System/Library/Fonts/PingFang.ttc" ] 240).
Proof.
  unfold app_icon_font, font_or_default, ImageFont_truetype. simpl.
  repeat (destruct (truetype P _ _); simpl; try reflexivity).
Qed.

Lemma launch_name_font_total :
  launch_name_font P =
  Ok (font_or_default P false
        [ "/System/Library/Fonts/SFProDisplay-Semibold.otf";
          "/System/Library/Fonts/Helvetica.ttc" ] 36).
Proof.
  unfold launch_name_font, font_or_default, ImageFont_truetype. simpl.
  repeat (destruct (truetype P _ _); simpl; try reflexivity).
Qed.

(** A canvas is made when no side is negative. *)
Lemma new_image_Ok m (size : Z * Z) c :
  0 <= fst size -> 0 <= snd size ->
  new_image (font:=font) m size c = Ok (Image_new m size c).
Proof.
  intros H1 H2. unfold new_image. rewrite bool_decide_eq_true_2; auto.
Qed.

Lemma new_image_negative m (size : Z * Z) c :
  fst size < 0 \/ snd size < 0 -> new_image (font:=font) m size c = Raise ValueError.
Proof.
  intros H. unfold new_image. rewrite bool_decide_eq_false_2; [reflexivity | lia].
Qed.

(** The images that need a font are always produced, at the size asked,
    when the canvas is. *)
Lemma create_traditional_piece_total size char colour :
  0 <= size ->
  exists im, create_traditional_piece P size char colour = Ok im
             /\ im_size im = (size, size).
Proof.
  intros Hsize. unfold create_traditional_piece.
  rewrite new_image_Ok by exact Hsize. cbn [bind_outcome].
  rewrite resolve_font_total.
  destruct (decide (colour = "red")); simpl; unfold centred_text;
    destruct (textbbox P _ _) as [[[b0 b1] b2] b3]; eexists; split; reflexivity.
Qed.

Lemma create_modern_piece_total size char colour :
  0 <= size ->
  exists im, create_modern_piece P size char colour = Ok im
             /\ im_size im = (size, size).
Proof.
  intros Hsize. unfold create_modern_piece.
  rewrite new_image_Ok by exact Hsize. cbn [bind_outcome].
  rewrite resolve_font_total.
  destruct (decide (colour = "red")); simpl; unfold centred_text;
    destruct (textbbox P _ _) as [[[b0 b1] b2] b3]; eexists; split; reflexivity.
Qed.

Lemma launch_image_total width height :
  0 <= width -> 0 <= height ->
  exists im, launch_image P width height = Ok im /\ im_size im = (width, height).
Proof.
  intros Hwidth Hheight. unfold launch_image.
  rewrite new_image_Ok by assumption. cbn [bind_outcome].
  rewrite resolve_font_total, launch_name_font_total.
  simpl. unfold centred_text.
  destruct (textbbox P "棋" _) as [[[b0 b1] b2] b3].
  destruct (textbbox P "Chinese Chess" _) as [[[c0 c1] c2] c3].
  eexists; split; reflexivity.
Qed.

Lemma app_icon_image_total :
  exists im, app_icon_image P = Ok im /\ im_size im = (1024, 1024).
Proof.
  unfold app_icon_image. rewrite app_icon_font_total.
  cbv beta iota zeta delta [bind_outcome]. unfold centred_text.
  destruct (textbbox P "帅" _) as [[[b0 b1] b2] b3].
  eexists; split; reflexivity.
Qed.

(** ** The monad of routines *)

Lemma bind_ext {A B} (m m' : M rng_state font A) (k k' : A -> M rng_state font B) :
  (forall w, m w = m' w) -> (forall a w, k a w = k' a w) ->
  forall w, bind m k w = bind m' k' w.
Proof.
  intros Hm Hk w. unfold bind. rewrite Hm.
  destruct (m' w) as [[a|e] w']; [apply Hk | reflexivity].
Qed.

Lemma bind_assoc {A B C} (m : M rng_state font A) (k : A -> M rng_state font B)
    (h : B -> M rng_state font C) w :
  bind (bind m k) h w = bind m (fun a => bind (k a) h) w.
Proof. unfold bind. destruct (m w) as [[a|e] w']; reflexivity. Qed.

Lemma bind_ret_r (m : M rng_state font unit) w :
  bind m (fun _ => ret tt) w = m w.
Proof. unfold bind, ret. destruct (m w) as [[[]|e] w']; reflexivity. Qed.

Lemma bind_Ok {A B} (m : M rng_state font A) (k : A -> M rng_state font B) w b w' :
  bind m k w = (Ok b, w') <->
  exists a w1, m w = (Ok a, w1) /\ k a w1 = (Ok b, w').
Proof.
  unfold bind. destruct (m w) as [[a|e] w1]; split.
  - intros H. eauto.
  - intros (a' & w1' & [= <- <-] & H). exact H.
  - discriminate.
  - intros (a' & w1' & [=] & _).
Qed.

(** ** Running a sequence of steps *)

Lemma exec_nil w : exec P [] w = (Ok tt, w).
Proof. reflexivity. Qed.

Lemma exec_cons op (s : list fs_op) w :
  exec P (op :: s) w = bind (step P op) (fun _ => exec P s) w.
Proof. reflexivity. Qed.

Lemma exec_app (s1 s2 : list fs_op) w :
  exec P (s1 ++ s2) w = bind (exec P s1) (fun _ => exec P s2) w.
Proof.
  revert w. induction s1 as [|op s1 IH]; intros w.
  - reflexivity.
  - change (bind (step P op) (fun _ => exec P (s1 ++ s2)) w
            = bind (bind (step P op) (fun _ => exec P s1)) (fun _ => exec P s2) w).
    rewrite bind_assoc.
    apply bind_ext; [reflexivity | intros _; apply IH].
Qed.

Lemma exec_singleton op w : exec P [op] w = step P op w.
Proof. rewrite exec_cons. apply bind_ret_r. Qed.

(** A loop whose body is a sequence of steps is the sequence of all of
    them. *)
Lemma for_exec {A} (xs : list A) (body : A -> M rng_state font unit)
    (f : A -> list fs_op) :
  (forall x w, body x w = exec P (f x) w) ->
  forall w, for_ xs body w = exec P (flat_map f xs) w.
Proof.
  intros H. induction xs as [|x xs IH]; intros w; simpl.
  - reflexivity.
  - rewrite exec_app. apply bind_ext; [apply H | intros _; apply IH].
Qed.

Lemma for_exec_map {A} (xs : list A) (body : A -> M rng_state font unit)
    (f : A -> fs_op) :
  (forall x w, body x w = step P (f x) w) ->
  forall w, for_ xs body w = exec P (map f xs) w.
Proof.
  intros H. induction xs as [|x xs IH]; intros w; simpl.
  - reflexivity.
  - rewrite exec_cons. apply bind_ext; [apply H | intros _; apply IH].
Qed.

Lemma exec_Ok_cons op (s : list fs_op) w w' :
  exec P (op :: s) w = (Ok tt, w') <->
  exists w1, step P op w = (Ok tt, w1) /\ exec P s w1 = (Ok tt, w').
Proof.
  rewrite exec_cons, bind_Ok. split.
  - intros ([] & w1 & H1 & H2). eauto.
  - intros (w1 & H1 & H2). eauto.
Qed.

Lemma exec_Ok_app (s1 s2 : list fs_op) w w' :
  exec P (s1 ++ s2) w = (Ok tt, w') <->
  exists w1, exec P s1 w = (Ok tt, w1) /\ exec P s2 w1 = (Ok tt, w').
Proof.
  rewrite exec_app, bind_Ok. split.
  - intros ([] & w1 & H1 & H2). eauto.
  - intros (w1 & H1 & H2). eauto.
Qed.

(** What one step that returns has checked and done. *)
Lemma makedirs_Ok p (w w' : world) :
  os_makedirs p w = (Ok tt, w') <->
  existsb (is_file w) (ancestors p) = false
  /\ w' = World (w_rng w) (list_to_set (ancestors p) ∪ w_dirs w) (w_files w).
Proof.
  unfold os_makedirs. destruct (existsb _ _); split.
  - discriminate.
  - intros [[=] _].
  - intros [= <-]. auto.
  - intros [_ ->]. reflexivity.
Qed.

Lemma save_Ok (im : image) p (w w' : world) :
  Image_save P im p w = (Ok tt, w') <->
  is_dir w (dirname p) = true /\ is_dir w p = false /\ disk_accepts P p = true
  /\ w' = World (w_rng w) (w_dirs w) (<[p := im]> (w_files w)).
Proof.
  unfold Image_save.
  destruct (is_dir w (dirname p)), (is_dir w p), (disk_accepts P p); simpl;
    split; try discriminate; try (intros (? & ? & ? & ?); discriminate).
  - intros [= <-]. auto.
  - intros (_ & _ & _ & ->). reflexivity.
Qed.

Lemma step_save_Ok o p (w w' : world) :
  step P (SaveOf o p) w = (Ok tt, w') <->
  exists im, o = Ok im /\ Image_save P im p w = (Ok tt, w').
Proof.
  simpl. unfold bind, lift. destruct o as [im|e]; split.
  - intros H. eauto.
  - intros (im' & [= <-] & H). exact H.
  - discriminate.
  - intros (im' & [=] & _).
Qed.

(** A step that raises leaves the tree as it was. *)
Lemma step_Raise op (w w' : world) e :
  step P op w = (Raise e, w') -> w' = w.
Proof.
  destruct op as [p|o p|g]; simpl.
  - unfold os_makedirs. destruct (existsb _ _); [intros [= _ <-]; reflexivity | discriminate].
  - unfold bind, lift, Image_save. destruct o as [im|e'].
    + destruct (negb _); [intros [= _ <-]; reflexivity|].
      destruct (is_dir w p); [intros [= _ <-]; reflexivity|].
      destruct (negb _); [intros [= _ <-]; reflexivity | discriminate].
    + intros [= _ <-]. reflexivity.
  - discriminate.
Qed.

(** ** Every routine is the run of its sequence of steps *)

Lemma save_iconset_exec (im : image) name dir w :
  save_iconset P im name dir w = exec P (iconset_script (Ok im) name dir) w.
Proof.
  unfold save_iconset, iconset_script. rewrite exec_cons.
  apply bind_ext; [reflexivity | intros _].
  apply for_exec_map. intros [size label] w'. reflexivity.
Qed.

Lemma create_app_icon_exec w :
  run_routine P app_icon w = exec P (app_icon_script P) w.
Proof.
  destruct app_icon_image_total as (im & Him & _).
  unfold run_routine, create_app_icon, app_icon_script. rewrite Him.
  rewrite exec_app, bind_assoc.
  change (bind (bind (save_iconset P im "AppIcon" ["Icons"; "AppIcon.iconset"])
                  (fun _ => bind (Image_save P im ["Icons"; "AppIcon_1024.png"])
                              (fun _ => ret im)))
            (fun _ => ret tt) w
          = bind (exec P (iconset_script (Ok im) "AppIcon" ["Icons"; "AppIcon.iconset"]))
              (fun _ => exec P [SaveOf (Ok im) ["Icons"; "AppIcon_1024.png"]]) w).
  rewrite bind_assoc.
  apply bind_ext; [apply save_iconset_exec | intros _ w'].
  rewrite bind_assoc, exec_cons.
  apply bind_ext; [reflexivity | reflexivity].
Qed.

Lemma create_board_styles_exec w :
  run_routine P board_styles w = exec P (board_script P) w.
Proof.
  unfold run_routine, create_board_styles, board_script.
  cbv beta zeta.
  unfold bind at 1. unfold random_seed at 1.
  unfold bind at 1. unfold with_random at 1. cbn [w_rng w_dirs w_files].
  generalize (wood_grain P 1024 5000 (Image_new mode_RGB (1024, 1024) (Hex "#E8D4A2"))
                (seed P 42)).
  intros [wood g]. cbn [fst snd].
  change (exec P (Reseed g :: ?s) w)
    with (exec P s (World g (w_dirs w) (w_files w))).
  rewrite exec_cons.
  apply bind_ext; [reflexivity | intros _ w1].
  rewrite exec_cons.
  apply bind_ext; [reflexivity | intros _ w2].
  symmetry. apply exec_singleton.
Qed.

Lemma save_piece_set_exec create_piece size dir w :
  save_piece_set P create_piece size dir w
  = exec P (piece_set_script create_piece size dir) w.
Proof.
  unfold save_piece_set, piece_set_script.
  apply for_exec. intros [i [red_char black_char]] w'. cbv beta iota.
  rewrite exec_cons. cbn [step]. rewrite bind_assoc.
  apply bind_ext; [reflexivity | intros img w1].
  apply bind_ext; [reflexivity | intros _ w2].
  symmetry. apply exec_singleton.
Qed.

Lemma create_pieces_exec w :
  run_routine P pieces w = exec P (pieces_script P) w.
Proof.
  unfold run_routine, create_pieces, pieces_script.
  apply for_exec. intros size w'.
  rewrite exec_cons.
  apply bind_ext; [reflexivity | intros _ w1].
  rewrite exec_app.
  apply bind_ext; [apply save_piece_set_exec | intros _ w2].
  rewrite exec_cons.
  apply bind_ext; [reflexivity | intros _ w3].
  apply save_piece_set_exec.
Qed.

Lemma create_toolbar_icons_exec w :
  run_routine P toolbar w = exec P toolbar_script w.
Proof.
  unfold run_routine, create_toolbar_icons, toolbar_script. rewrite exec_cons.
  apply bind_ext; [reflexivity | intros _].
  apply for_exec. intros [icon_name [icon_type colour]] w'.
  apply for_exec_map. intros size w1. reflexivity.
Qed.

Lemma create_ui_elements_exec w :
  run_routine P ui_elements w = exec P ui_script w.
Proof.
  unfold run_routine, create_ui_elements, ui_script.
  do 4 (rewrite exec_cons; apply bind_ext; [reflexivity | intros _ ?]).
  symmetry. apply exec_singleton.
Qed.

Lemma create_launch_screen_exec w :
  run_routine P launch_screen w = exec P (launch_script P) w.
Proof.
  unfold run_routine, create_launch_screen, launch_script. rewrite exec_cons.
  apply bind_ext; [reflexivity | intros _].
  apply for_exec_map. intros [[width height] name] w'. reflexivity.
Qed.

Lemma run_routine_exec r w :
  run_routine P r w = exec P (routine_script P r) w.
Proof.
  destruct r; simpl routine_script.
  - apply create_app_icon_exec.
  - apply create_board_styles_exec.
  - apply create_pieces_exec.
  - apply create_toolbar_icons_exec.
  - apply create_ui_elements_exec.
  - apply create_launch_screen_exec.
Qed.

Lemma run_in_order_exec order w :
  run_in_order P order w = exec P (flat_map (routine_script P) order) w.
Proof. apply for_exec. apply run_routine_exec. Qed.

Lemma main_run_in_order w : main P w = run_in_order P main_order w.
Proof.
  unfold main, run_in_order, main_order. simpl for_.
  rewrite bind_assoc.
  apply bind_ext; [reflexivity | intros _ w1].
  change (bind (ret tt) (fun _ => ?k) w1) with (k w1).
  do 4 (apply bind_ext; [reflexivity | intros _ ?]).
  symmetry. apply bind_ret_r.
Qed.

(** ** What a run leaves behind *)

Lemma existsb_false {A} (f : A -> bool) (l : list A) :
  existsb f l = false <-> forall x, x ∈ l -> f x = false.
Proof.
  induction l as [|a l IH]; simpl.
  - split; [intros _ x Hx; inversion Hx | reflexivity].
  - rewrite orb_false_iff, IH. split.
    + intros [Ha Hl] x [->|Hx]%elem_of_cons; auto.
    + intros H. split; [apply H; left | intros x Hx; apply H; right; exact Hx].
Qed.

Lemma is_file_insert (g : rng_state) (d : gset path) (w : world)
    (p q : path) (im : image) :
  q <> p ->
  is_file (World g d (<[p := im]> (w_files w))) q = is_file w q.
Proof.
  intros Hq. unfold is_file. simpl. rewrite lookup_insert_ne by congruence.
  reflexivity.
Qed.

(** A step changes no file but the one it saves. *)
Lemma step_files_frame op (w w' : world) o p :
  step P op w = (o, w') -> K_save p <> key_of op ->
  w_files w' !! p = w_files w !! p.
Proof.
  intros Hstep Hp. destruct o as [[]|e].
  - destruct op as [d|o' f|g]; simpl in *.
    + apply makedirs_Ok in Hstep as [_ ->]. reflexivity.
    + apply (step_save_Ok o' f) in Hstep as (im & _ & H).
      apply save_Ok in H as (_ & _ & _ & ->). simpl.
      apply lookup_insert_ne. congruence.
    + injection Hstep as <-. reflexivity.
  - apply step_Raise in Hstep as ->. reflexivity.
Qed.

Lemma exec_files_frame (s : list fs_op) (w w' : world) o p :
  exec P s w = (o, w') -> p ∉ saved_paths s ->
  w_files w' !! p = w_files w !! p.
Proof.
  revert w. induction s as [|op s IH]; intros w Hexec Hp.
  - injection Hexec as _ <-. reflexivity.
  - rewrite exec_cons in Hexec. unfold bind in Hexec.
    destruct (step P op w) as [[[]|e] w1] eqn:Hstep.
    + rewrite (IH w1 Hexec).
      * eapply step_files_frame; [exact Hstep|].
        intros Hk. apply Hp. destruct op; try discriminate.
        injection Hk as ->. simpl. left.
      * intros Hin. apply Hp. unfold saved_paths in *. simpl.
        destruct op; simpl; try right; exact Hin.
    + injection Hexec as _ <-.
      apply step_Raise in Hstep as ->. reflexivity.
Qed.

(** A file a run has touched holds the image of one of its saves. *)
Lemma exec_files_written (s : list fs_op) (w w' : world) o p :
  exec P s w = (o, w') ->
  w_files w' !! p = w_files w !! p
  \/ exists o', SaveOf o' p ∈ s /\ Ok <$> (w_files w' !! p) = Some o'.
Proof.
  revert w. induction s as [|op s IH]; intros w Hexec.
  - injection Hexec as _ <-. left. reflexivity.
  - rewrite exec_cons in Hexec. unfold bind in Hexec.
    destruct (step P op w) as [[[]|e] w1] eqn:Hstep.
    + destruct (IH w1 Hexec) as [Hsame | (o' & Hin & Ho')].
      * rewrite Hsame. clear Hsame Hexec IH.
        destruct op as [d|o' f|g]; simpl in Hstep.
        -- apply makedirs_Ok in Hstep as [_ ->]. left. reflexivity.
        -- apply (step_save_Ok o' f) in Hstep as (im & -> & H).
           apply save_Ok in H as (_ & _ & _ & ->). simpl.
           destruct (decide (f = p)) as [->|Hne].
           ++ right. exists (Ok im). split; [left|].
              rewrite lookup_insert_eq. reflexivity.
           ++ left. apply lookup_insert_ne. exact Hne.
        -- injection Hstep as <-. left. reflexivity.
      * right. exists o'. split; [right; exact Hin | exact Ho'].
    + injection Hexec as _ <-.
      apply step_Raise in Hstep as ->. left. reflexivity.
Qed.

(** A run that returns has made its directories and written every one of
    its files, each accepted by the disk. *)
Lemma exec_Ok_dirs (s : list fs_op) (w w' : world) :
  exec P s w = (Ok tt, w') ->
  w_dirs w' = list_to_set (made_dirs s) ∪ w_dirs w.
Proof.
  revert w. induction s as [|op s IH]; intros w.
  - intros [= <-]. symmetry. apply (left_id_L ∅ (∪)).
  - intros (w1 & Hstep & Hexec)%exec_Ok_cons.
    rewrite (IH w1 Hexec). clear IH Hexec.
    destruct op as [d|o' f|g]; simpl in Hstep; unfold made_dirs; simpl.
    + apply makedirs_Ok in Hstep as [_ ->]. cbn [w_dirs].
      rewrite list_to_set_app_L, !(assoc_L (∪)). f_equal. apply (comm_L (∪)).
    + apply (step_save_Ok o' f) in Hstep as (im & _ & H).
      apply save_Ok in H as (_ & _ & _ & ->). reflexivity.
    + injection Hstep as <-. reflexivity.
Qed.

Lemma exec_Ok_saved (s : list fs_op) (w w' : world) :
  exec P s w = (Ok tt, w') -> NoDup (saved_paths s) ->
  forall o p, SaveOf o p ∈ s ->
    Ok <$> (w_files w' !! p) = Some o /\ disk_accepts P p = true.
Proof.
  revert w. induction s as [|op s IH]; intros w Hexec Hnd o p Hin.
  - inversion Hin.
  - apply exec_Ok_cons in Hexec as (w1 & Hstep & Hexec).
    apply elem_of_cons in Hin as [<-|Hin].
    + apply (step_save_Ok o p) in Hstep as (im & -> & H).
      apply save_Ok in H as (_ & _ & Hdisk & ->).
      split; [|exact Hdisk].
      rewrite (exec_files_frame s _ w' (Ok tt) p Hexec).
      * simpl. rewrite lookup_insert_eq. reflexivity.
      * unfold saved_paths in Hnd. simpl in Hnd.
        apply NoDup_cons in Hnd as [Hnotin _]. exact Hnotin.
    + apply (IH w1 Hexec); [|exact Hin].
      unfold saved_paths in *. destruct op; simpl in Hnd; try exact Hnd.
      apply NoDup_cons in Hnd as [_ Hnd]. exact Hnd.
Qed.

(** ** Independent steps commute *)

Lemma reseed_step g (w : world) :
  step P (Reseed g) w = (Ok tt, World g (w_dirs w) (w_files w)).
Proof. reflexivity. Qed.

Lemma step_makedirs_Ok d (w w' : world) :
  step P (Makedirs d) w = (Ok tt, w') <->
  (forall q, q ∈ ancestors d -> is_file w q = false)
  /\ w' = World (w_rng w) (list_to_set (ancestors d) ∪ w_dirs w) (w_files w).
Proof. simpl. rewrite makedirs_Ok, existsb_false. reflexivity. Qed.

Lemma step_save_Ok' o f (w w' : world) :
  step P (SaveOf o f) w = (Ok tt, w') <->
  exists im, o = Ok im
    /\ (dirname f ∈ w_dirs w) /\ (f ∉ w_dirs w) /\ disk_accepts P f = true
    /\ w' = World (w_rng w) (w_dirs w) (<[f := im]> (w_files w)).
Proof.
  rewrite step_save_Ok. unfold is_dir.
  split; intros (im & Ho & H); exists im; (split; [exact Ho|]).
  - apply save_Ok in H as (H1 & H2 & H3 & H4).
    apply bool_decide_eq_true in H1. apply bool_decide_eq_false in H2. auto.
  - destruct H as (H1 & H2 & H3 & H4). apply save_Ok. unfold is_dir.
    rewrite bool_decide_eq_true, bool_decide_eq_false. auto.
Qed.

Lemma step_commute (o1 o2 : fs_op) (w w1 w2 : world) :
  independent (key_of o1) (key_of o2) = true ->
  step P o1 w = (Ok tt, w1) -> step P o2 w1 = (Ok tt, w2) ->
  exists w1', step P o2 w = (Ok tt, w1') /\ step P o1 w1' = (Ok tt, w2).
Proof.
  intros Hind H1 H2.
  destruct o1 as [d1|i1 f1|g1], o2 as [d2|i2 f2|g2]; cbn [independent key_of] in Hind;
    try discriminate.
  - (* makedirs, makedirs *)
    apply step_makedirs_Ok in H1 as [Hf1 ->].
    apply step_makedirs_Ok in H2 as [Hf2 ->]. cbn [w_rng w_dirs w_files] in *.
    eexists. split; [apply step_makedirs_Ok; split; [exact Hf2 | reflexivity]|].
    apply step_makedirs_Ok. split; [exact Hf1|]. cbn [w_rng w_dirs w_files]. f_equal.
    rewrite !(assoc_L (∪)). f_equal. apply (comm_L (∪)).
  - (* makedirs, save *)
    apply bool_decide_eq_true in Hind as [Hnf Hnd].
    apply step_makedirs_Ok in H1 as [Hf1 ->].
    apply step_save_Ok' in H2 as (im & -> & Hdir & Hnot & Hdisk & ->). cbn [w_rng w_dirs w_files] in *.
    apply elem_of_union in Hdir as [Hdir%elem_of_list_to_set|Hdir]; [tauto|].
    apply not_elem_of_union in Hnot as [_ Hnot].
    eexists. split.
    + apply step_save_Ok'. exists im. repeat split; eauto.
    + apply step_makedirs_Ok. split; [|reflexivity].
      intros q Hq. rewrite is_file_insert; [apply Hf1; exact Hq|].
      intros ->. tauto.
  - (* makedirs, reseed *)
    apply step_makedirs_Ok in H1 as [Hf1 ->]. injection H2 as <-. cbn [w_rng w_dirs w_files].
    eexists. split; [apply reseed_step|].
    apply step_makedirs_Ok. split; [exact Hf1 | reflexivity].
  - (* save, makedirs *)
    apply bool_decide_eq_true in Hind as [Hnf Hnd].
    apply step_save_Ok' in H1 as (im & -> & Hdir & Hnot & Hdisk & ->).
    apply step_makedirs_Ok in H2 as [Hf2 ->]. cbn [w_rng w_dirs w_files] in *.
    eexists. split.
    + apply step_makedirs_Ok. split; [|reflexivity].
      intros q Hq. rewrite <- (Hf2 q Hq). symmetry. apply is_file_insert.
      intros ->. tauto.
    + apply step_save_Ok'. exists im. cbn [w_rng w_dirs w_files]. repeat split; eauto.
      * apply elem_of_union. right. exact Hdir.
      * apply not_elem_of_union. split; [|exact Hnot].
        rewrite elem_of_list_to_set. exact Hnf.
  - (* save, save *)
    apply bool_decide_eq_true in Hind.
    apply step_save_Ok' in H1 as (im1 & -> & Hdir1 & Hnot1 & Hdisk1 & ->).
    apply step_save_Ok' in H2 as (im2 & -> & Hdir2 & Hnot2 & Hdisk2 & ->).
    cbn [w_rng w_dirs w_files] in *.
    eexists. split.
    + apply step_save_Ok'. exists im2. repeat split; eauto.
    + apply step_save_Ok'. exists im1. cbn [w_rng w_dirs w_files]. repeat split; eauto.
      f_equal. apply insert_insert_ne. congruence.
  - (* save, reseed *)
    apply step_save_Ok' in H1 as (im & -> & Hdir & Hnot & Hdisk & ->).
    injection H2 as <-. cbn [w_rng w_dirs w_files].
    eexists. split; [apply reseed_step|].
    apply step_save_Ok'. exists im. cbn [w_rng w_dirs w_files]. repeat split; eauto.
  - (* reseed, makedirs *)
    injection H1 as <-. apply step_makedirs_Ok in H2 as [Hf2 ->]. cbn [w_rng w_dirs w_files] in *.
    eexists. split; [apply step_makedirs_Ok; split; [exact Hf2 | reflexivity]|].
    reflexivity.
  - (* reseed, save *)
    injection H1 as <-.
    apply step_save_Ok' in H2 as (im & -> & Hdir & Hnot & Hdisk & ->).
    cbn [w_rng w_dirs w_files] in *.
    eexists. split.
    + apply step_save_Ok'. exists im. repeat split; eauto.
    + reflexivity.
Qed.

(** One step moved behind a sequence it is independent of. *)
Lemma exec_move_step o (s t : list fs_op) (w w' : world) :
  forallb (independent (key_of o)) (map key_of s) = true ->
  exec P (o :: s ++ t) w = (Ok tt, w') ->
  exec P (s ++ o :: t) w = (Ok tt, w').
Proof.
  revert w. induction s as [|o' s IH]; intros w Hind Hexec; [exact Hexec|].
  simpl in Hind. apply andb_true_iff in Hind as [Hind Hrest].
  apply exec_Ok_cons in Hexec as (w1 & H1 & Hexec).
  apply exec_Ok_cons in Hexec as (w2 & H2 & Hexec).
  destruct (step_commute o o' w w1 w2 Hind H1 H2) as (w1' & H2' & H1').
  simpl app. apply exec_Ok_cons. exists w1'. split; [exact H2'|].
  apply IH; [exact Hrest|].
  apply exec_Ok_cons. exists w2. split; assumption.
Qed.

(** Two sequences of steps, every step of the one independent of every step
    of the other, in either order. *)
Lemma exec_swap (s1 s2 t : list fs_op) (w w' : world) :
  independent_keys (map key_of s1) (map key_of s2) = true ->
  exec P (s1 ++ s2 ++ t) w = (Ok tt, w') ->
  exec P (s2 ++ s1 ++ t) w = (Ok tt, w').
Proof.
  revert w. induction s1 as [|o s1 IH]; intros w Hind Hexec; [exact Hexec|].
  unfold independent_keys in Hind. simpl in Hind.
  apply andb_true_iff in Hind as [Ho Hind].
  simpl app in Hexec. apply exec_Ok_cons in Hexec as (w1 & H1 & Hexec).
  apply (IH w1 Hind) in Hexec.
  simpl app. apply exec_move_step; [exact Ho|].
  apply exec_Ok_cons. exists w1. split; assumption.
Qed.

(** ** The routines are pairwise independent *)

Lemma routines_independent r1 r2 :
  r1 <> r2 ->
  independent_keys (map key_of (routine_script P r1))
                   (map key_of (routine_script P r2)) = true.
Proof.
  intros Hne. destruct r1, r2; try congruence; vm_compute; reflexivity.
Qed.

(** Running the routines of [l1] or the same routines in another order
    [l2]: if the first run returns, so does the second, in the same
    world. *)
Lemma exec_permutation (l1 l2 : list routine) :
  Permutation l1 l2 -> NoDup l1 ->
  forall (t : list fs_op) (w w' : world),
    exec P (flat_map (routine_script P) l1 ++ t) w = (Ok tt, w') ->
    exec P (flat_map (routine_script P) l2 ++ t) w = (Ok tt, w').
Proof.
  induction 1 as [|r l l' Hperm IH|r1 r2 l|l l' l'' H1 IH1 H2 IH2];
    intros Hnd t w w' Hexec.
  - exact Hexec.
  - simpl in *. rewrite <- app_assoc in *.
    apply exec_Ok_app in Hexec as (w1 & Hr & Hrest).
    apply exec_Ok_app. exists w1. split; [exact Hr|].
    apply IH; [|exact Hrest]. apply NoDup_cons in Hnd as [_ Hnd]. exact Hnd.
  - simpl in *. rewrite <- !app_assoc in *.
    apply exec_swap; [|exact Hexec].
    apply routines_independent.
    apply NoDup_cons in Hnd as [Hnotin _].
    intros ->. apply Hnotin. left.
  - apply IH2; [|apply IH1; assumption].
    rewrite <- H1. exact Hnd.
Qed.

(** ** The files of a routine and their sizes *)

Lemma im_size_draw_all (im : image) ops : im_size (draw_all im ops) = im_size im.
Proof.
  unfold draw_all. revert im.
  induction ops as [|op ops IH]; intros im; simpl; [reflexivity|].
  rewrite IH. reflexivity.
Qed.

Lemma wood_grain_size size rounds (im : image) g :
  im_size (fst (wood_grain P size rounds im g)) = im_size im.
Proof.
  revert im g. induction rounds as [|rounds IH]; intros im g; simpl; [reflexivity|].
  destruct (wood_grain_line P size g) as [op g']. rewrite IH. reflexivity.
Qed.

Ltac sized_by H :=
  destruct H as (?im & ?Him & ?Hsz); eexists; split;
  [ first [exact Him | rewrite Him; reflexivity]
  | simpl im_size; rewrite ?Hsz; compute_done ].

Ltac save_sized :=
  cbv [saves_sized];
  lazymatch goal with
  | |- True => exact I
  | |- exists im, create_traditional_piece _ ?s ?c ?col = Ok im /\ _ =>
      sized_by (create_traditional_piece_total s c col ltac:(lia))
  | |- exists im, create_modern_piece _ ?s ?c ?col = Ok im /\ _ =>
      sized_by (create_modern_piece_total s c col ltac:(lia))
  | |- exists im, launch_image _ ?w ?h = Ok im /\ _ =>
      sized_by (launch_image_total w h ltac:(lia) ltac:(lia))
  | |- exists im, bind_outcome (app_icon_image _) _ = Ok im /\ _ =>
      sized_by app_icon_image_total
  | |- exists im, app_icon_image _ = Ok im /\ _ =>
      sized_by app_icon_image_total
  | |- exists im, Ok _ = Ok im /\ _ =>
      eexists; split;
      [ reflexivity
      | rewrite ?im_size_draw_all, ?wood_grain_size; compute_done ]
  end.

Lemma script_sizes r : Forall (saves_sized r) (routine_script P r).
Proof.
  destruct r; unfold routine_script; try unfold board_script; cbv zeta;
    repeat constructor; save_sized.
Qed.

Lemma routine_paths r :
  same_elements (saved_paths (routine_script P r)) (routine_files r).
Proof. destruct r; split; compute_done. Qed.

Lemma routine_paths_NoDup r : NoDup (saved_paths (routine_script P r)).
Proof. destruct r; compute_done. Qed.

Lemma routine_files_NoDup r : NoDup (routine_files r).
Proof. destruct r; compute_done. Qed.

Lemma NoDup_fst_unique {A B} (l : list (A * B)) x y1 y2 :
  NoDup (map fst l) -> (x, y1) ∈ l -> (x, y2) ∈ l -> y1 = y2.
Proof.
  induction l as [|[a b] l IH]; simpl; intros Hnd H1 H2; [inversion H1|].
  apply NoDup_cons in Hnd as [Hnotin Hnd].
  assert (forall y, (a, y) ∈ l -> False) as Hno.
  { intros y Hy. apply Hnotin. apply list_elem_of_fmap. exists (a, y). auto. }
  apply elem_of_cons in H1 as [[= -> ->]|H1];
    apply elem_of_cons in H2 as [[= ->]|H2]; subst.
  - reflexivity.
  - destruct (Hno _ H2).
  - destruct (Hno _ H1).
  - apply IH; assumption.
Qed.

Lemma saved_paths_elem (s : list fs_op) p :
  p ∈ saved_paths s <-> exists o, SaveOf o p ∈ s.
Proof.
  unfold saved_paths. rewrite list_elem_of_omap. split.
  - intros ([d|o f|g] & Hin & Heq); try discriminate.
    injection Heq as ->. eauto.
  - intros (o & Hin). exists (SaveOf o p). auto.
Qed.

Lemma routine_files_saved r p :
  p ∈ routine_files r <-> p ∈ saved_paths (routine_script P r).
Proof.
  destruct (routine_paths r) as [H1 H2].
  rewrite Forall_forall in H1, H2. split; auto.
Qed.

(** What a routine that returns leaves behind: every file of its table
    holds an image of the size of the table, the disk has accepted each
    one, and no other file has changed. *)
Lemma routine_Ok r (w w' : world) :
  run_routine P r w = (Ok tt, w') ->
  (forall p dims, (p, dims) ∈ expected_sizes r ->
     exists im, w_files w' !! p = Some im /\ im_size im = dims
                /\ disk_accepts P p = true)
  /\ (forall p, p ∉ routine_files r -> w_files w' !! p = w_files w !! p).
Proof.
  rewrite run_routine_exec. intros Hexec. split.
  - intros p dims Hin.
    assert (p ∈ routine_files r) as Hp.
    { unfold routine_files. apply list_elem_of_fmap. exists (p, dims). auto. }
    apply routine_files_saved, saved_paths_elem in Hp as (o & Ho).
    pose proof (script_sizes r) as Hsz. rewrite Forall_forall in Hsz.
    destruct (Hsz _ Ho) as (im & -> & Hin').
    destruct (exec_Ok_saved _ _ _ Hexec (routine_paths_NoDup r) _ _ Ho)
      as [Hfile Hdisk].
    exists im. split; [|split; [|exact Hdisk]].
    + destruct (w_files w' !! p); [|discriminate].
      injection Hfile as ->. reflexivity.
    + eapply NoDup_fst_unique; [apply (routine_files_NoDup r) | exact Hin' | exact Hin].
  - intros p Hp. eapply exec_files_frame; [exact Hexec|].
    intros Hin. apply Hp. apply routine_files_saved. exact Hin.
Qed.

(** ** Font lookup never fails (C6) *)

(** Before any font is looked up, a piece or a launch screen of a negative
    size is refused by [Image.new]. *)
Lemma negative_size_refused :
  (forall size char colour,
     size < 0 ->
     create_traditional_piece P size char colour = Raise ValueError
     /\ create_modern_piece P size char colour = Raise ValueError)
  /\ (forall width height,
        width < 0 \/ height < 0 -> launch_image P width height = Raise ValueError).
Proof.
  split.
  - intros size char colour Hsize.
    unfold create_traditional_piece, create_modern_piece.
    rewrite !new_image_negative by (left; exact Hsize). split; reflexivity.
  - intros width height Hneg. unfold launch_image.
    rewrite new_image_negative by exact Hneg. reflexivity.
Qed.

(** C6: font lookup is total.  Each of the text-drawing routines (the app
    icon, the traditional and the modern piece, the launch screen with its
    two lookups) tries its font paths in order and takes the first that is
    there and loads, and the default font when none does; whatever files
    exist and whatever [truetype] raises, the lookup yields a font, and on a
    canvas that [Image.new] accepts (no negative side) the routine's image
    is produced: nothing is raised out of the lookup.  For a negative size
    it is [Image.new] that raises [ValueError], before any font is looked
    up. *)
Theorem C6_font_lookup_total :
  app_icon_font P
  = Ok (font_or_default P false
          [ "/System/Library/Fonts/STHeiti Light.ttc";
            "/System/Library/Fonts/PingFang.ttc" ] 240)
  /\ (forall font_size,
        resolve_font P font_size
        = Ok (font_or_default P true
                [ "/System/Library/Fonts/STHeiti Light.ttc";
                  "/System/Library/Fonts/PingFang.ttc";
                  "/System/Library/Fonts/Hiragino Sans GB.ttc" ] font_size))
  /\ launch_name_font P
     = Ok (font_or_default P false
             [ "/System/Library/Fonts/SFProDisplay-Semibold.otf";
               "/System/Library/Fonts/Helvetica.ttc" ] 36)
  /\ (exists im, app_icon_image P = Ok im)
  /\ (forall size char colour,
        0 <= size ->
        exists im, create_traditional_piece P size char colour = Ok im)
  /\ (forall size char colour,
        0 <= size ->
        exists im, create_modern_piece P size char colour = Ok im)
  /\ (forall width height,
        0 <= width -> 0 <= height ->
        exists im, launch_image P width height = Ok im)
  /\ (forall size char colour,
        size < 0 ->
        create_traditional_piece P size char colour = Raise ValueError
        /\ create_modern_piece P size char colour = Raise ValueError)
  /\ (forall width height,
        width < 0 \/ height < 0 -> launch_image P width height = Raise ValueError).
Proof.
  split; [apply app_icon_font_total|].
  split; [apply resolve_font_total|].
  split; [apply launch_name_font_total|].
  split; [destruct app_icon_image_total as (im & H & _); eauto|].
  split; [intros size char colour Hsize;
          destruct (create_traditional_piece_total size char colour Hsize)
            as (im & H & _);
          eauto|].
  split; [intros size char colour Hsize;
          destruct (create_modern_piece_total size char colour Hsize) as (im & H & _);
          eauto|].
  split; [|exact negative_size_refused].
  intros width height Hwidth Hheight.
  destruct (launch_image_total width height Hwidth Hheight) as (im & H & _). eauto.
Qed.

(** ** Colour components are bytes (C10) *)

Lemma clamp_byte color_var c : byte_range (clamp color_var c).
Proof. unfold byte_range, clamp. lia. Qed.

Lemma wood_grain_line_in_range size g :
  op_in_range (fst (wood_grain_line P size g)).
Proof.
  unfold wood_grain_line.
  destruct (randint P 0 (size - 1) g) as [x g1].
  destruct (randint P 0 (size - 1) g1) as [y g2].
  destruct (randint P 20 100 g2) as [len g3].
  destruct (randint P (-20) 20 g3) as [color_var g4].
  constructor; [|constructor]. simpl. auto using clamp_byte.
Qed.

Lemma wood_grain_in_range size rounds (im : image) g :
  Forall op_in_range (im_ops im) ->
  Forall op_in_range (im_ops (fst (wood_grain P size rounds im g))).
Proof.
  revert im g. induction rounds as [|rounds IH]; intros im g Him; simpl.
  - exact Him.
  - pose proof (wood_grain_line_in_range size g) as Hop.
    destruct (wood_grain_line P size g) as [op g']. apply IH. simpl.
    apply Forall_app. split; [exact Him | constructor; [exact Hop | constructor]].
Qed.

(** C10: every colour component the script computes is a byte.  The
    wood-grain channels are clamped to [0, 255] whatever [color_var] is
    drawn, so every line of the grain is in range whatever the generator
    does; the alphas of the selection rings are 10, 14, .., 46 and those of
    the check-warning rings 25, 40, .., 85; the gradient of the app icon and
    the two remaining overlays are in range too. *)
Theorem C10_color_components_in_range :
  (forall color_var c, byte_range (clamp color_var c))
  /\ (forall size rounds m sz c g,
        Forall op_in_range
          (im_ops (fst (wood_grain P size rounds (Image_new m sz c) g))))
  /\ alphas (font:=font) (selection_image 256)
     = [10; 14; 18; 22; 26; 30; 34; 38; 42; 46]
  /\ Forall (fun a => 10 <= a <= 46) (alphas (font:=font) (selection_image 256))
  /\ Forall op_in_range (im_ops (font:=font) (selection_image 256))
  /\ alphas (font:=font) (check_warning_image 256) = [25; 40; 55; 70; 85]
  /\ Forall (fun a => 25 <= a <= 85) (alphas (font:=font) (check_warning_image 256))
  /\ Forall op_in_range (im_ops (font:=font) (check_warning_image 256))
  /\ Forall op_in_range (map (gradient_line (font:=font) 1024) (range 1024))
  /\ Forall op_in_range (im_ops (font:=font) (move_dot_image 256))
  /\ Forall op_in_range (im_ops (font:=font) (last_move_image 256)).
Proof.
  assert (forall im : image,
            Forall (fun op => Forall (fun c => bool_decide (color_in_range c))
                                (op_colors op)) (im_ops im) ->
            Forall op_in_range (im_ops im)) as Hdec.
  { intros im Him. eapply Forall_impl; [exact Him|]. intros op Hop.
    eapply Forall_impl; [exact Hop|]. intros c. apply bool_decide_unpack. }
  split; [apply clamp_byte|].
  split; [intros; apply wood_grain_in_range; constructor|].
  split; [reflexivity|].
  split; [compute_done|].
  split; [apply Hdec; compute_done|].
  split; [reflexivity|].
  split; [compute_done|].
  split; [apply Hdec; compute_done|].
  split; [|split; apply Hdec; compute_done].
  apply Forall_forall. intros op (y & -> & Hy)%list_elem_of_fmap.
  apply elem_of_seqZ in Hy.
  unfold gradient_line, op_in_range, int_Q. simpl.
  repeat constructor.
  all: try (apply Z.quot_pos; lia).
  all: apply Z.quot_le_upper_bound; lia.
Qed.

(** ** The icon set (C3, C9) *)

Lemma iconset_paths_NoDup (dir : path) (name : string) :
  NoDup (map (fun label => os_path_join dir (name +:+ "_" +:+ label +:+ ".png"))
           iconset_labels).
Proof.
  change (NoDup (map (fun s => os_path_join dir (name +:+ "_" +:+ s))
                   (map (fun label => label +:+ ".png") iconset_labels))).
  apply NoDup_fmap_2; [|compute_done].
  intros s1 s2 Heq. unfold os_path_join in Heq.
  apply app_inv_head in Heq. injection Heq as Heq.
  apply (String.app_inj name) in Heq. apply (String.app_inj "_") in Heq.
  exact Heq.
Qed.

Lemma iconset_saved_paths (o : outcome image) name dir :
  saved_paths (iconset_script o name dir : list fs_op)
  = map (fun label => os_path_join dir (name +:+ "_" +:+ label +:+ ".png"))
      iconset_labels.
Proof. reflexivity. Qed.

Lemma save_iconset_Ok (im : image) name dir (w w' : world) :
  save_iconset P im name dir w = (Ok tt, w') ->
  (forall size label, (size, label) ∈ iconset_sizes ->
     w_files w' !! os_path_join dir (name +:+ "_" +:+ label +:+ ".png")
     = Some (resize im (size, size) LANCZOS))
  /\ (forall p,
        p ∉ map (fun label => os_path_join dir (name +:+ "_" +:+ label +:+ ".png"))
              iconset_labels ->
        w_files w' !! p = w_files w !! p).
Proof.
  rewrite save_iconset_exec. intros Hexec.
  pose proof (iconset_paths_NoDup dir name) as Hnd.
  split.
  - intros size label Hin.
    destruct (exec_Ok_saved _ _ _ Hexec) with
      (o := Ok (resize im (size, size) LANCZOS))
      (p := os_path_join dir (name +:+ "_" +:+ label +:+ ".png")) as [Hfile _].
    + rewrite iconset_saved_paths. exact Hnd.
    + unfold iconset_script. right. apply list_elem_of_fmap.
      exists (size, label). split; [reflexivity | exact Hin].
    + destruct (w_files w' !! _); [|discriminate].
      injection Hfile as ->. reflexivity.
  - intros p Hp. eapply exec_files_frame; [exact Hexec|].
    rewrite iconset_saved_paths. exact Hp.
Qed.

(** C3 (as amended): [save_iconset] writes exactly ten files, one per entry
    of its table and named after the entry's label; the ten labels, and so
    the ten files, are pairwise distinct, and each file is the image
    resized to the pixel size of its entry.  The ten entries have seven
    pixel sizes between them: 32, 256 and 512 each serve two labels. *)
Theorem C3_iconset_ten_files (im : image) name dir (w w' : world) :
  save_iconset P im name dir w = (Ok tt, w') ->
  (forall size label, (size, label) ∈ iconset_sizes ->
     w_files w' !! os_path_join dir (name +:+ "_" +:+ label +:+ ".png")
     = Some (resize im (size, size) LANCZOS))
  /\ (forall p,
        p ∉ map (fun label => os_path_join dir (name +:+ "_" +:+ label +:+ ".png"))
              iconset_labels ->
        w_files w' !! p = w_files w !! p)
  /\ map snd iconset_sizes = iconset_labels
  /\ length iconset_labels = 10%nat
  /\ NoDup (map (fun label => os_path_join dir (name +:+ "_" +:+ label +:+ ".png"))
              iconset_labels)
  /\ remove_dups (map fst iconset_sizes) = [16; 32; 64; 128; 256; 512; 1024].
Proof.
  intros Hrun. destruct (save_iconset_Ok _ _ _ _ _ Hrun) as [Hfiles Hframe].
  split; [exact Hfiles|]. split; [exact Hframe|].
  split; [reflexivity|]. split; [reflexivity|].
  split; [apply iconset_paths_NoDup | compute_done].
Qed.

(** C9: [create_app_icon] writes eleven files: the ten of the icon set
    under [Icons/AppIcon.iconset], each the master resized, and the master
    itself, 1024 by 1024, as [Icons/AppIcon_1024.png]; the master is the
    image the routine returns. *)
Theorem C9_app_icon_eleven_files (w w' : world) (final_img : image) :
  create_app_icon P w = (Ok final_img, w') ->
  app_icon_image P = Ok final_img
  /\ im_size final_img = (1024, 1024)
  /\ w_files w' !! ["Icons"; "AppIcon_1024.png"] = Some final_img
  /\ (forall size label, (size, label) ∈ iconset_sizes ->
        w_files w' !! ["Icons"; "AppIcon.iconset"; "AppIcon_" +:+ label +:+ ".png"]
        = Some (resize final_img (size, size) LANCZOS))
  /\ (forall p, p ∉ app_icon_paths -> w_files w' !! p = w_files w !! p)
  /\ length app_icon_paths = 11%nat
  /\ NoDup app_icon_paths.
Proof.
  intros Hrun.
  destruct app_icon_image_total as (im & Him & Hsize).
  unfold create_app_icon in Hrun. rewrite Him in Hrun.
  change (bind (save_iconset P im "AppIcon" ["Icons"; "AppIcon.iconset"])
            (fun _ => bind (Image_save P im ["Icons"; "AppIcon_1024.png"])
                        (fun _ => ret im)) w = (Ok final_img, w')) in Hrun.
  apply bind_Ok in Hrun as ([] & w1 & Hset & Hrun).
  apply bind_Ok in Hrun as ([] & w2 & Hsave & Hret).
  injection Hret as <- <-.
  apply save_Ok in Hsave as (_ & _ & _ & ->).
  destruct (save_iconset_Ok _ _ _ _ _ Hset) as (Hfiles & Hframe).
  split; [exact Him|]. split; [exact Hsize|]. cbn [w_files].
  split; [apply lookup_insert_eq|].
  split; [|split; [|split; compute_done]].
  - intros size label Hin. rewrite lookup_insert_ne by discriminate.
    apply (Hfiles size label Hin).
  - intros p Hp. unfold app_icon_paths in Hp.
    apply not_elem_of_app in Hp as [Hp1 Hp2].
    rewrite lookup_insert_ne.
    + apply Hframe. exact Hp1.
    + intros <-. apply Hp2. left.
Qed.

(** ** Reading the files of a routine that returned *)

Lemma saved_as_elem (s : list fs_op) p o :
  saved_as s p = Some o -> SaveOf o p ∈ s.
Proof.
  induction s as [|[d|o' q|g] s IH]; simpl; intros H; try discriminate.
  - right. auto.
  - destruct (decide (q = p)) as [->|Hne].
    + injection H as ->. left.
    + right. auto.
  - right. auto.
Qed.

Lemma routine_holds r (w w' : world) p o :
  run_routine P r w = (Ok tt, w') ->
  saved_as (routine_script P r) p = Some o ->
  holds (w_files w') p o.
Proof.
  rewrite run_routine_exec. intros Hexec Ho%saved_as_elem.
  destruct (exec_Ok_saved _ _ _ Hexec (routine_paths_NoDup r) _ _ Ho) as [Hfile _].
  destruct (w_files w' !! p) as [im|] eqn:Hp; [|discriminate].
  injection Hfile as <-. exists im. auto.
Qed.

Lemma routine_frame r (w w' : world) o p :
  run_routine P r w = (o, w') -> p ∉ routine_files r ->
  w_files w' !! p = w_files w !! p.
Proof.
  rewrite run_routine_exec. intros Hexec Hp.
  eapply exec_files_frame; [exact Hexec|].
  intros Hin. apply Hp. apply routine_files_saved. exact Hin.
Qed.

(** ** The toolbar icons (C4) *)

(** C4: [create_toolbar_icons] writes exactly fifteen files, three for each
    of the five actions: the icon drawn at 18 as [<Name>_18x18.png], the one
    drawn at 24 as [<Name>_24x24.png] and the one drawn at 36 as
    [<Name>_18x18@2x.png].  The [@2x] suffix goes with a drawn size above
    24, and the size in the name is then half the drawn size. *)
Theorem C4_toolbar_fifteen_files (w w' : world) :
  create_toolbar_icons P w = (Ok tt, w') ->
  (forall icon_name icon_type colour,
     (icon_name, (icon_type, colour)) ∈ toolbar_icons ->
     w_files w' !! ["Toolbar"; icon_name +:+ "_18x18.png"]
     = Some (toolbar_icon icon_type colour 18)
     /\ w_files w' !! ["Toolbar"; icon_name +:+ "_24x24.png"]
        = Some (toolbar_icon icon_type colour 24)
     /\ w_files w' !! ["Toolbar"; icon_name +:+ "_18x18@2x.png"]
        = Some (toolbar_icon icon_type colour 36))
  /\ (forall p, p ∉ toolbar_paths -> w_files w' !! p = w_files w !! p)
  /\ map fst toolbar_icons = toolbar_names
  /\ length toolbar_names = 5%nat
  /\ length toolbar_paths = 15%nat
  /\ NoDup toolbar_paths
  /\ (forall icon_name size,
        (size <= 24 ->
         toolbar_filename icon_name size
         = icon_name +:+ "_" +:+ str size +:+ "x" +:+ str size +:+ ".png")
        /\ (24 < size ->
            toolbar_filename icon_name size
            = icon_name +:+ "_" +:+ str (size / 2) +:+ "x" +:+ str (size / 2)
                +:+ "@2x.png")).
Proof.
  intros Hrun.
  assert (forall p im, saved_as (routine_script P toolbar) p = Some (Ok im) ->
                       w_files w' !! p = Some im) as Hfile.
  { intros p im Hp. destruct (routine_holds toolbar w w' p _ Hrun Hp)
      as (im' & [= <-] & H). exact H. }
  split; [|split; [|split; [reflexivity|split; [reflexivity|
           split; [reflexivity|split; [compute_done|]]]]]].
  - intros icon_name icon_type colour Hin.
    repeat (apply elem_of_cons in Hin as [[= -> -> ->]|Hin];
            [repeat split; apply Hfile; reflexivity|]).
    inversion Hin.
  - intros p Hp. apply (routine_frame toolbar w w' (Ok tt) p Hrun). exact Hp.
  - intros icon_name size. unfold toolbar_filename. split; intros Hsize.
    + rewrite bool_decide_eq_true_2 by exact Hsize. reflexivity.
    + rewrite bool_decide_eq_false_2 by lia. reflexivity.
Qed.

(** ** The pieces (C2) *)

(** C2: [create_pieces] writes exactly 84 files: for each of the sizes 64,
    128 and 256 and each of the styles Traditional and Modern, the fourteen
    files [Red_0.png] .. [Red_6.png] and [Black_0.png] .. [Black_6.png] of
    [PieceStyles/<style>/<size>/], where [Red_i] is the piece of the i-th
    red character and [Black_i] that of the i-th black character in the
    style of the directory. *)
Theorem C2_pieces_84_files (w w' : world) :
  create_pieces P w = (Ok tt, w') ->
  (forall size (i : nat) red_char black_char,
     size ∈ piece_sizes ->
     red_pieces !! i = Some red_char -> black_pieces !! i = Some black_char ->
     holds (w_files w')
       ["PieceStyles"; "Traditional"; str size; "Red_" +:+ str (Z.of_nat i) +:+ ".png"]
       (create_traditional_piece P size red_char "red")
     /\ holds (w_files w')
          ["PieceStyles"; "Traditional"; str size;
           "Black_" +:+ str (Z.of_nat i) +:+ ".png"]
          (create_traditional_piece P size black_char "black")
     /\ holds (w_files w')
          ["PieceStyles"; "Modern"; str size; "Red_" +:+ str (Z.of_nat i) +:+ ".png"]
          (create_modern_piece P size red_char "red")
     /\ holds (w_files w')
          ["PieceStyles"; "Modern"; str size; "Black_" +:+ str (Z.of_nat i) +:+ ".png"]
          (create_modern_piece P size black_char "black"))
  /\ (forall p, p ∈ piece_paths -> is_Some (w_files w' !! p))
  /\ (forall p, p ∉ piece_paths -> w_files w' !! p = w_files w !! p)
  /\ length red_pieces = 7%nat /\ length black_pieces = 7%nat
  /\ piece_file_names
     = map (fun i => "Red_" +:+ str i +:+ ".png") (seqZ 0 7)
       ++ map (fun i => "Black_" +:+ str i +:+ ".png") (seqZ 0 7)
  /\ length piece_file_names = 14%nat /\ NoDup piece_file_names
  /\ length piece_paths = 84%nat /\ NoDup piece_paths.
Proof.
  intros Hrun.
  pose proof (fun p o => routine_holds pieces w w' p o Hrun) as Hfile.
  split; [|split; [|split; [|split; [reflexivity|split; [reflexivity|
           split; [reflexivity|split; [reflexivity|split; [compute_done|
           split; [reflexivity|compute_done]]]]]]]]].
  - intros size i red_char black_char Hsize Hred Hblack.
    repeat (apply elem_of_cons in Hsize as [->|Hsize];
            [do 7 (destruct i as [|i];
                   [injection Hred as <-; injection Hblack as <-;
                    repeat split; apply Hfile; reflexivity|]);
             discriminate|]).
    inversion Hsize.
  - intros p Hp.
    assert (exists dims, (p, dims) ∈ expected_sizes pieces) as (dims & Hin).
    { change (p ∈ map fst (expected_sizes pieces)) in Hp.
      apply list_elem_of_fmap in Hp as ([p' dims] & -> & Hin). eauto. }
    destruct (routine_Ok pieces w w' Hrun) as [Hsaved _].
    destruct (Hsaved p dims Hin) as (im & -> & _). eauto.
  - intros p Hp. apply (routine_frame pieces w w' (Ok tt) p Hrun). exact Hp.
Qed.

(** ** Image sizes (C5) *)

Lemma expected_sizes_positive r :
  Forall (fun e => 0 < fst (snd e) /\ 0 < snd (snd e)) (expected_sizes r).
Proof. destruct r; compute_done. Qed.

(** C5: every file a routine writes has the size of its entry in the
    table of the specification, and the size is not zero: each icon-set
    file is n by n for its entry n and the master 1024 by 1024, each board
    is 1024 by 1024, each piece is s by s, each toolbar icon is as large as
    it was drawn (18, 24 or 36), each overlay is 256 by 256 and each launch
    screen has the width and height of its entry.  Files outside the table
    are left as they were. *)
Theorem C5_generated_sizes (r : routine) (w w' : world) :
  run_routine P r w = (Ok tt, w') ->
  (forall p dims, (p, dims) ∈ expected_sizes r ->
     exists im, w_files w' !! p = Some im /\ im_size im = dims
                /\ 0 < fst dims /\ 0 < snd dims)
  /\ (forall p, p ∉ routine_files r -> w_files w' !! p = w_files w !! p).
Proof.
  intros Hrun. destruct (routine_Ok r w w' Hrun) as [Hsaved Hframe].
  split; [|exact Hframe].
  intros p dims Hin. destruct (Hsaved p dims Hin) as (im & Hfile & Hsize & _).
  pose proof (expected_sizes_positive r) as Hpos.
  rewrite Forall_forall in Hpos. specialize (Hpos _ Hin). simpl in Hpos.
  exists im. tauto.
Qed.

(** ** The wood texture is reproducible (C1) *)

(** The generator state changes at a reseeding only. *)
Lemma step_rng op (w w' : world) o :
  step P op w = (o, w') -> K_reseed <> key_of op -> w_rng w' = w_rng w.
Proof.
  intros Hstep Hk. destruct o as [[]|e].
  - destruct op as [d|o' f|g]; simpl in Hstep.
    + apply makedirs_Ok in Hstep as [_ ->]. reflexivity.
    + apply (step_save_Ok o' f) in Hstep as (im & _ & H).
      apply save_Ok in H as (_ & _ & _ & ->). reflexivity.
    + destruct Hk. reflexivity.
  - apply step_Raise in Hstep as ->. reflexivity.
Qed.

Lemma exec_rng (s : list fs_op) (w w' : world) o :
  exec P s w = (o, w') -> K_reseed ∉ map key_of s -> w_rng w' = w_rng w.
Proof.
  revert w. induction s as [|op s IH]; intros w Hexec Hk.
  - injection Hexec as _ <-. reflexivity.
  - rewrite exec_cons in Hexec. unfold bind in Hexec.
    simpl in Hk. apply not_elem_of_cons in Hk as [Hop Hk].
    destruct (step P op w) as [[[]|e] w1] eqn:Hstep.
    + rewrite (IH w1 Hexec Hk). eapply step_rng; eauto.
    + injection Hexec as _ <-. eapply step_rng; eauto.
Qed.

(** The wood board: the grain drawn from seed 42 with the grid on top. *)
Lemma board_wood_saved (w : world) :
  is_dir w ["BoardStyles"] = true ->
  is_dir w ["BoardStyles"; "Board_Wood.png"] = false ->
  disk_accepts P ["BoardStyles"; "Board_Wood.png"] = true ->
  w_files (snd (create_board_styles P w)) !! ["BoardStyles"; "Board_Wood.png"]
  = Some (draw_all
            (fst (wood_grain P 1024 5000
                    (Image_new mode_RGB (1024, 1024) (Hex "#E8D4A2")) (seed P 42)))
            (board_lines 1024 80 (Hex "#5C4033") 2)).
Proof.
  intros Hdir Hfile Hdisk.
  change (create_board_styles P w) with (run_routine P board_styles w).
  rewrite create_board_styles_exec.
  unfold board_script. cbv zeta.
  set (grain := wood_grain P 1024 5000 _ (seed P 42)).
  set (wood := draw_all (fst grain) _).
  match goal with
  | |- context [exec P (Reseed ?g :: SaveOf (Ok wood) ?p :: ?rest) w] =>
      change (exec P (Reseed g :: SaveOf (Ok wood) p :: rest) w)
        with (bind (Image_save P wood p) (fun _ => exec P rest)
                (World g (w_dirs w) (w_files w)));
      set (tail := rest)
  end.
  unfold bind.
  destruct (Image_save P wood _ _) as [[[]|e] w1] eqn:Hsave.
  - apply save_Ok in Hsave as (_ & _ & _ & ->).
    destruct (exec P tail _) as [o w'] eqn:Hexec. simpl snd.
    transitivity (Some wood);
      [|reflexivity].
    etransitivity;
      [apply (exec_files_frame _ _ _ _ ["BoardStyles"; "Board_Wood.png"] Hexec)|].
    + subst tail. compute_done.
    + simpl. apply lookup_insert_eq.
  - exfalso. unfold Image_save in Hsave.
    change (is_dir (World (snd grain) (w_dirs w) (w_files w)))
      with (is_dir w) in Hsave.
    change (dirname ["BoardStyles"; "Board_Wood.png"]) with ["BoardStyles"] in Hsave.
    rewrite Hdir, Hfile, Hdisk in Hsave. discriminate.
Qed.

(** C1: the wood texture does not depend on the run.  [create_board_styles]
    seeds the generator with 42 before the grain is drawn, so whatever state
    the generator was in and whatever the output tree held, two runs in
    which the save of [Board_Wood.png] goes through (the directory is
    there, the path is not a directory, the disk takes the write) leave the
    same image there: the grain drawn from seed 42 under the grid.  Under
    any encoder, the bytes of the file are the same too. *)
Theorem C1_board_wood_reproducible (w1 w2 : world) :
  is_dir w1 ["BoardStyles"] = true ->
  is_dir w1 ["BoardStyles"; "Board_Wood.png"] = false ->
  is_dir w2 ["BoardStyles"] = true ->
  is_dir w2 ["BoardStyles"; "Board_Wood.png"] = false ->
  disk_accepts P ["BoardStyles"; "Board_Wood.png"] = true ->
  let w1' := snd (create_board_styles P w1) in
  let w2' := snd (create_board_styles P w2) in
  w_files w1' !! ["BoardStyles"; "Board_Wood.png"]
  = Some (draw_all
            (fst (wood_grain P 1024 5000
                    (Image_new mode_RGB (1024, 1024) (Hex "#E8D4A2")) (seed P 42)))
            (board_lines 1024 80 (Hex "#5C4033") 2))
  /\ w_files w1' !! ["BoardStyles"; "Board_Wood.png"]
     = w_files w2' !! ["BoardStyles"; "Board_Wood.png"]
  /\ forall png_bytes : image -> list Byte.byte,
       png_bytes <$> (w_files w1' !! ["BoardStyles"; "Board_Wood.png"])
       = png_bytes <$> (w_files w2' !! ["BoardStyles"; "Board_Wood.png"]).
Proof.
  intros Hd1 Hf1 Hd2 Hf2 Hdisk w1' w2'. subst w1' w2'.
  rewrite (board_wood_saved w1 Hd1 Hf1 Hdisk), (board_wood_saved w2 Hd2 Hf2 Hdisk).
  auto.
Qed.

(** ** Failures of the disk are not handled (C7) *)

Lemma for_app {A} (xs ys : list A) (body : A -> M rng_state font unit) w :
  for_ (xs ++ ys) body w = bind (for_ xs body) (fun _ => for_ ys body) w.
Proof.
  revert w. induction xs as [|x xs IH]; intros w.
  - reflexivity.
  - simpl. rewrite bind_assoc.
    apply bind_ext; [reflexivity | intros _; apply IH].
Qed.

Lemma exec_succeeds (s : list fs_op) (w : world) :
  keys_ok (map key_of s) (w_dirs w) (dom (w_files w)) = true ->
  (forall o p, SaveOf o p ∈ s ->
     (exists im, o = Ok im) /\ disk_accepts P p = true) ->
  exists w', exec P s w = (Ok tt, w').
Proof.
  revert w. induction s as [|op s IH]; intros w Hok Hsaves.
  - eexists. reflexivity.
  - assert (forall o p, SaveOf o p ∈ s ->
              (exists im, o = Ok im) /\ disk_accepts P p = true) as Hrest.
    { intros o p Hin. apply Hsaves. right. exact Hin. }
    destruct op as [d|o f|g]; cbn [map key_of keys_ok] in Hok.
    + apply andb_true_iff in Hok as [Hfree Hok].
      destruct (IH (World (w_rng w) (list_to_set (ancestors d) ∪ w_dirs w)
                      (w_files w)) Hok Hrest) as (w' & Hexec).
      exists w'. apply exec_Ok_cons. eexists. split; [|exact Hexec].
      apply step_makedirs_Ok. split; [|reflexivity].
      intros q Hq. rewrite forallb_forall in Hfree.
      apply list_elem_of_In in Hq. specialize (Hfree q Hq).
      apply bool_decide_eq_true in Hfree. unfold is_file.
      apply bool_decide_eq_false. rewrite <- elem_of_dom. exact Hfree.
    + apply andb_true_iff in Hok as [Hchecks Hok].
      apply andb_true_iff in Hchecks as [Hdir Hnot].
      apply bool_decide_eq_true in Hdir. apply bool_decide_eq_true in Hnot.
      destruct (Hsaves o f) as [(im & ->) Hdisk]; [left|].
      destruct (IH (World (w_rng w) (w_dirs w) (<[f := im]> (w_files w))))
        as (w' & Hexec); [|exact Hrest|].
      { cbn [w_dirs w_files]. rewrite dom_insert_L. exact Hok. }
      exists w'. apply exec_Ok_cons. eexists. split; [|exact Hexec].
      apply step_save_Ok'. exists im. auto.
    + destruct (IH (World g (w_dirs w) (w_files w)) Hok Hrest) as (w' & Hexec).
      exists w'. apply exec_Ok_cons. eexists. split; [apply reseed_step|exact Hexec].
Qed.

Lemma script_saves_produced r o p :
  SaveOf o p ∈ routine_script P r -> exists im, o = Ok im.
Proof.
  intros Hin. pose proof (script_sizes r) as Hsz.
  rewrite Forall_forall in Hsz. destruct (Hsz _ Hin) as (im & -> & _). eauto.
Qed.

(** Without its directory, [create_board_styles] raises at the first save;
    the generator has been used, nothing has been written or created.  The
    exception is [NotADirectoryError] when a file stands on the way to the
    directory, [FileNotFoundError] when nothing does. *)
Lemma board_missing_dir (w : world) :
  is_dir w ["BoardStyles"] = false ->
  exists g, create_board_styles P w
            = (Raise (if is_file w [] || is_file w ["BoardStyles"]
                      then NotADirectoryError else FileNotFoundError),
               World g (w_dirs w) (w_files w)).
Proof.
  intros Hdir.
  change (create_board_styles P w) with (run_routine P board_styles w).
  rewrite create_board_styles_exec. unfold board_script. cbv zeta.
  set (grain := wood_grain P 1024 5000 _ (seed P 42)).
  exists (snd grain).
  match goal with
  | |- exec P (Reseed ?g :: SaveOf (Ok ?wood) ?p :: ?rest) w = _ =>
      change (bind (Image_save P wood p) (fun _ => exec P rest)
                (World g (w_dirs w) (w_files w))
              = (Raise (if is_file w [] || is_file w ["BoardStyles"]
                        then NotADirectoryError else FileNotFoundError),
                 World g (w_dirs w) (w_files w)))
  end.
  unfold bind, Image_save.
  change (is_dir (World (snd grain) (w_dirs w) (w_files w))) with (is_dir w).
  change (is_file (World (snd grain) (w_dirs w) (w_files w))) with (is_file w).
  change (dirname ["BoardStyles"; "Board_Wood.png"]) with ["BoardStyles"].
  change (parents ["BoardStyles"; "Board_Wood.png"]) with [ []; ["BoardStyles"] ].
  rewrite Hdir. cbn [negb existsb]. rewrite orb_false_r. reflexivity.
Qed.

(** C7: failures of the disk are not handled.
    - [create_board_styles] never creates [BoardStyles]: where the
      directory is missing it raises at its first save, having written and
      created nothing.  The exception is [FileNotFoundError] when nothing
      is at the path, and [NotADirectoryError] when a file stands there (or
      in the place of [ASSETS_DIR]).
    - The exception ends the run: when [create_app_icon] has returned and
      [BoardStyles] is missing, [main] raises that exception and the tree
      is as the app icon left it; whichever routine raises, [main] raises
      the same exception in the same world.
    - No routine swallows a refused write: if the disk refuses one of the
      files of a routine, the routine raises.
    - Every routine other than [create_board_styles] creates the
      directories it saves in: from an empty tree, on a disk that takes its
      writes, it returns, and the directory of each of its files exists
      afterwards. *)
Theorem C7_disk_failures_propagate :
  (forall w : world,
     is_dir w ["BoardStyles"] = false ->
     exists g, create_board_styles P w
               = (Raise (if is_file w [] || is_file w ["BoardStyles"]
                         then NotADirectoryError else FileNotFoundError),
                  World g (w_dirs w) (w_files w)))
  /\ (forall (w w1 : world) final_img,
        is_dir w ["BoardStyles"] = false ->
        create_app_icon P w = (Ok final_img, w1) ->
        exists g, main P w
                  = (Raise (if is_file w ["BoardStyles"]
                            then NotADirectoryError else FileNotFoundError),
                     World g (w_dirs w1) (w_files w1)))
  /\ (forall before r after (w w1 w' : world) e,
        main_order = before ++ r :: after ->
        run_in_order P before w = (Ok tt, w1) ->
        run_routine P r w1 = (Raise e, w') ->
        main P w = (Raise e, w'))
  /\ (forall r p (w : world),
        p ∈ routine_files r -> disk_accepts P p = false ->
        exists e w', run_routine P r w = (Raise e, w'))
  /\ (forall r (w : world),
        r <> board_styles ->
        w_dirs w = {[ [] ]} -> w_files w = ∅ ->
        (forall p, p ∈ routine_files r -> disk_accepts P p = true) ->
        exists w', run_routine P r w = (Ok tt, w')
                   /\ forall p, p ∈ routine_files r -> dirname p ∈ w_dirs w').
Proof.
  split; [exact board_missing_dir|].
  split; [|split; [|split]].
  - intros w w1 final_img Hdir Hicon.
    assert (run_routine P app_icon w = (Ok tt, w1)) as Hrun.
    { simpl. unfold bind. rewrite Hicon. reflexivity. }
    rewrite run_routine_exec in Hrun.
    assert (is_dir w1 ["BoardStyles"] = false) as Hdir1.
    { unfold is_dir in *. apply bool_decide_eq_false in Hdir.
      apply bool_decide_eq_false. rewrite (exec_Ok_dirs _ _ _ Hrun).
      apply not_elem_of_union. split; [|exact Hdir].
      rewrite elem_of_list_to_set. compute_done. }
    assert (forall q, q ∈ [ []; ["BoardStyles"] ] -> is_file w1 q = is_file w q)
      as Hsame.
    { intros q Hq. unfold is_file.
      rewrite (exec_files_frame _ _ _ _ q Hrun); [reflexivity|].
      revert q Hq. apply Forall_forall. compute_done. }
    assert (is_file w [] = false) as Hroot.
    { assert (exists rest,
                routine_script P app_icon
                = Makedirs ["Icons"; "AppIcon.iconset"] :: rest) as (rest & Hscript)
        by (eexists; reflexivity).
      rewrite Hscript in Hrun.
      apply exec_Ok_cons in Hrun as (w0 & Hmade & _).
      apply step_makedirs_Ok in Hmade as [Hfree _].
      apply Hfree. compute_done. }
    destruct (board_missing_dir w1 Hdir1) as (g & Hboard).
    rewrite !Hsame, Hroot in Hboard by compute_done. cbn [orb] in Hboard.
    exists g. unfold main, bind. rewrite Hicon, Hboard. reflexivity.
  - intros before r after w w1 w' e Horder Hbefore Hr.
    rewrite main_run_in_order, Horder. unfold run_in_order in *.
    rewrite for_app. unfold bind at 1. rewrite Hbefore.
    simpl for_. unfold bind. rewrite Hr. reflexivity.
  - intros r p w Hp Hdisk.
    destruct (run_routine P r w) as [[[]|e] w'] eqn:Hrun; [|eauto].
    exfalso. destruct (routine_Ok r w w' Hrun) as [Hsaved _].
    apply list_elem_of_fmap in Hp as ([p' dims] & -> & Hin).
    destruct (Hsaved _ _ Hin) as (im & _ & _ & Hacc). simpl in Hdisk.
    congruence.
  - intros r w Hr Hdirs Hfiles Hdisk.
    destruct (exec_succeeds (routine_script P r) w) as (w' & Hexec).
    + rewrite Hdirs, Hfiles, dom_empty_L.
      destruct r; try congruence; vm_compute; reflexivity.
    + intros o p Hin. split; [eapply script_saves_produced; exact Hin|].
      apply Hdisk, routine_files_saved, saved_paths_elem. eauto.
    + exists w'. rewrite run_routine_exec. split; [exact Hexec|].
      intros p Hp. rewrite (exec_Ok_dirs _ _ _ Hexec).
      apply elem_of_union. left. rewrite elem_of_list_to_set.
      revert p Hp. apply Forall_forall.
      destruct r; try congruence; compute_done.
Qed.

(** ** The order of the routines does not matter (C8) *)

Lemma save_unique (s : list fs_op) p o1 o2 :
  NoDup (saved_paths s) -> SaveOf o1 p ∈ s -> SaveOf o2 p ∈ s -> o1 = o2.
Proof.
  induction s as [|op s IH]; intros Hnd H1 H2; [inversion H1|].
  assert (forall o, SaveOf o p ∈ s -> p ∈ saved_paths s) as Hin.
  { intros o Ho. apply saved_paths_elem. eauto. }
  apply elem_of_cons in H1 as [<-|H1]; apply elem_of_cons in H2 as [H2|H2].
  - injection H2 as ->. reflexivity.
  - unfold saved_paths in Hnd. simpl in Hnd.
    apply NoDup_cons in Hnd as [Hnotin _]. destruct Hnotin. eapply Hin, H2.
  - subst op. unfold saved_paths in Hnd. simpl in Hnd.
    apply NoDup_cons in Hnd as [Hnotin _]. destruct Hnotin. eapply Hin, H1.
  - apply IH; [|exact H1|exact H2].
    unfold saved_paths in *. destruct op; simpl in Hnd; try exact Hnd.
    apply NoDup_cons in Hnd as [_ Hnd]. exact Hnd.
Qed.

Lemma routine_files_disjoint r1 r2 p :
  r1 <> r2 -> p ∈ routine_files r1 -> p ∈ routine_files r2 -> False.
Proof.
  intros Hne H1 H2.
  assert (Forall (fun p => p ∉ routine_files r2) (routine_files r1)) as Hdis.
  { destruct r1, r2; try congruence; compute_done. }
  rewrite Forall_forall in Hdis. exact (Hdis p H1 H2).
Qed.

(** A path is saved by one routine only, and by one step of it. *)
Lemma saved_image_unique r1 r2 p o1 o2 :
  SaveOf o1 p ∈ routine_script P r1 -> SaveOf o2 p ∈ routine_script P r2 ->
  o1 = o2.
Proof.
  intros H1 H2. destruct (decide (r1 = r2)) as [<-|Hne].
  - eapply save_unique; [apply (routine_paths_NoDup r1) | exact H1 | exact H2].
  - exfalso. apply (routine_files_disjoint r1 r2 p Hne);
      apply routine_files_saved, saved_paths_elem; eauto.
Qed.

Lemma run_files_written order (w : world) p :
  let w' := snd (run_in_order P order w) in
  w_files w' !! p <> w_files w !! p ->
  exists r o, SaveOf o p ∈ routine_script P r /\ Ok <$> (w_files w' !! p) = Some o.
Proof.
  intros w' Hchanged. subst w'.
  destruct (run_in_order P order w) as [out w'] eqn:Hrun. simpl in *.
  rewrite run_in_order_exec in Hrun.
  destruct (exec_files_written _ _ _ _ p Hrun) as [Hsame|(o & Hin & Ho)];
    [contradiction|].
  apply list_elem_of_In, in_flat_map in Hin as (r & _ & Hin).
  apply list_elem_of_In in Hin. eauto.
Qed.

Lemma board_rng (w : world) :
  w_rng (snd (create_board_styles P w))
  = snd (wood_grain P 1024 5000 (Image_new mode_RGB (1024, 1024) (Hex "#E8D4A2"))
           (seed P 42)).
Proof.
  change (create_board_styles P w) with (run_routine P board_styles w).
  rewrite create_board_styles_exec. unfold board_script. cbv zeta.
  set (grain := wood_grain P 1024 5000 _ (seed P 42)).
  match goal with
  | |- context [exec P (Reseed ?g :: ?rest) w] =>
      change (exec P (Reseed g :: rest) w)
        with (exec P rest (World g (w_dirs w) (w_files w)));
      set (tail := rest)
  end.
  destruct (exec P tail _) as [o w'] eqn:Hexec. simpl snd.
  etransitivity; [apply (exec_rng _ _ _ _ Hexec)|reflexivity].
  subst tail. compute_done.
Qed.

Lemma other_routines_rng r (w : world) :
  r <> board_styles -> w_rng (snd (run_routine P r w)) = w_rng w.
Proof.
  intros Hr. destruct (run_routine P r w) as [o w'] eqn:Hrun. simpl.
  rewrite run_routine_exec in Hrun. apply (exec_rng _ _ _ _ Hrun).
  destruct r; try congruence; compute_done.
Qed.

(** C8: the order of the six routines is cosmetic.
    - [main] returns exactly when the routines run in any other order
      return, and the world they leave (the files with their images, the
      directories, the generator) is the same.
    - Whatever the order and whatever the run started from, even when it
      does not get to its end, a file it has changed holds the same image
      as in any other run that has changed it.
    - The generator is the only state shared through the process:
      [create_board_styles] leaves it in the state that follows seed 42
      whatever state it found, and no other routine touches it. *)
Theorem C8_order_is_cosmetic :
  (forall order, Permutation main_order order ->
     forall w w' : world,
       main P w = (Ok tt, w') <-> run_in_order P order w = (Ok tt, w'))
  /\ (forall order1 order2 (w1 w2 : world) p,
        let w1' := snd (run_in_order P order1 w1) in
        let w2' := snd (run_in_order P order2 w2) in
        w_files w1' !! p <> w_files w1 !! p ->
        w_files w2' !! p <> w_files w2 !! p ->
        w_files w1' !! p = w_files w2' !! p)
  /\ (forall w1 w2 : world,
        w_rng (snd (create_board_styles P w1))
        = w_rng (snd (create_board_styles P w2)))
  /\ (forall r (w : world),
        r <> board_styles -> w_rng (snd (run_routine P r w)) = w_rng w).
Proof.
  split; [|split; [|split]].
  - intros order Hperm w w'.
    assert (NoDup main_order) as Hnd by compute_done.
    rewrite main_run_in_order, !run_in_order_exec.
    rewrite <- (app_nil_r (flat_map _ main_order)),
            <- (app_nil_r (flat_map _ order)).
    split; apply exec_permutation.
    + exact Hperm.
    + exact Hnd.
    + symmetry. exact Hperm.
    + rewrite <- Hperm. exact Hnd.
  - intros order1 order2 w1 w2 p w1' w2' H1 H2.
    destruct (run_files_written order1 w1 p H1) as (r1 & o1 & Hin1 & Ho1).
    destruct (run_files_written order2 w2 p H2) as (r2 & o2 & Hin2 & Ho2).
    fold w1' in Ho1. fold w2' in Ho2.
    rewrite (saved_image_unique r1 r2 p o1 o2 Hin1 Hin2) in Ho1.
    destruct (w_files w1' !! p) as [im1|], (w_files w2' !! p) as [im2|];
      try discriminate.
    simpl in Ho1, Ho2. congruence.
  - intros w1 w2. rewrite !board_rng. reflexivity.
  - exact other_routines_rng.
Qed.

End Properties.

(** * The theorems at work on the demo platform *)

(** The outcome of a run on the demo platform, read off by computation;
    the world the run leaves stays a variable. *)
Ltac run_Ok Hrun :=
  lazymatch type of Hrun with
  | ?run = (?o, ?w') =>
      let H := fresh in
      assert (fst run = Ok tt) as H by (vm_compute; reflexivity);
      rewrite Hrun in H; cbn [fst] in H; subst o
  end.

Ltac run_returns Hrun :=
  lazymatch type of Hrun with
  | ?run = (Raise ?e, ?w') =>
      let H := fresh in
      assert (raised (fst run) = None) as H by (vm_compute; reflexivity);
      rewrite Hrun in H; discriminate H
  end.

(** Two runs of [create_board_styles], from different generator states and
    different trees, leave the same wood board. *)
Lemma C1_board_wood_reproducible_witness :
  let w1 := prepared_tree 7 in
  let w2 := World 2024 {[ []; ["BoardStyles"]; ["Icons"] ]}
              {[ ["Icons"; "old.png"] := Image_new mode_L (1, 1) (Lum 0) ]} in
  w_files (snd (create_board_styles demo_platform w1))
    !! ["BoardStyles"; "Board_Wood.png"]
  = w_files (snd (create_board_styles demo_platform w2))
      !! ["BoardStyles"; "Board_Wood.png"].
Proof.
  intros w1 w2.
  pose proof (C1_board_wood_reproducible demo_platform w1 w2) as H.
  assert (is_dir w1 ["BoardStyles"] = true) as H1 by (vm_compute; reflexivity).
  assert (is_dir w1 ["BoardStyles"; "Board_Wood.png"] = false) as H2
    by (vm_compute; reflexivity).
  assert (is_dir w2 ["BoardStyles"] = true) as H3 by (vm_compute; reflexivity).
  assert (is_dir w2 ["BoardStyles"; "Board_Wood.png"] = false) as H4
    by (vm_compute; reflexivity).
  assert (disk_accepts demo_platform ["BoardStyles"; "Board_Wood.png"] = true) as H5
    by (vm_compute; reflexivity).
  specialize (H H1 H2 H3 H4 H5). destruct H as (_ & H & _). exact H.
Defined.

(** [create_pieces] on the empty tree returns, and the first red piece of
    the traditional style at size 64 is in [Red_0.png]. *)
Lemma C2_pieces_84_files_witness :
  exists w',
    create_pieces demo_platform (empty_tree 0) = (Ok tt, w')
    /\ holds (w_files w') ["PieceStyles"; "Traditional"; "64"; "Red_0.png"]
         (create_traditional_piece demo_platform 64 "帅" "red").
Proof.
  destruct (create_pieces demo_platform (empty_tree 0)) as [o w'] eqn:Hrun.
  run_Ok Hrun. exists w'. split; [reflexivity|].
  pose proof (C2_pieces_84_files demo_platform _ _ Hrun) as (Hfiles & _).
  refine (proj1 (Hfiles 64 0%nat "帅" "将" _ _ _)); [left | reflexivity | reflexivity].
Defined.

(** [save_iconset] on the empty tree returns, and the file of the label
    [32x32] is the image resized to 32 by 32. *)
Lemma C3_iconset_ten_files_witness :
  let im := Image_new mode_RGBA (1024, 1024) (RGBA 0 0 0 0) in
  exists w',
    save_iconset demo_platform im "AppIcon" ["Icons"; "AppIcon.iconset"]
      (empty_tree 0) = (Ok tt, w')
    /\ w_files w' !! ["Icons"; "AppIcon.iconset"; "AppIcon_32x32.png"]
       = Some (resize im (32, 32) LANCZOS).
Proof.
  intros im.
  destruct (save_iconset demo_platform im "AppIcon" ["Icons"; "AppIcon.iconset"]
              (empty_tree 0)) as [o w'] eqn:Hrun.
  run_Ok Hrun. exists w'. split; [reflexivity|].
  pose proof (C3_iconset_ten_files demo_platform im _ _ _ _ Hrun) as (Hfiles & _).
  apply (Hfiles 32 "32x32"). compute_done.
Defined.

(** The claim as it was stated fails on the same run: [save_iconset]
    returns, the labels [16x16@2x] and [32x32] are different, and their
    files are both 32 by 32. *)
Lemma C3_labels_share_a_size :
  ~ (forall (w' : world Z (string * Z)) label1 label2 im1 im2,
       save_iconset demo_platform (Image_new mode_RGBA (1024, 1024) (RGBA 0 0 0 0))
         "AppIcon" ["Icons"; "AppIcon.iconset"] (empty_tree 0) = (Ok tt, w') ->
       label1 ∈ iconset_labels -> label2 ∈ iconset_labels -> label1 <> label2 ->
       w_files w' !! ["Icons"; "AppIcon.iconset"; "AppIcon_" +:+ label1 +:+ ".png"]
       = Some im1 ->
       w_files w' !! ["Icons"; "AppIcon.iconset"; "AppIcon_" +:+ label2 +:+ ".png"]
       = Some im2 ->
       im_size im1 <> im_size im2).
Proof.
  intros Hclaim.
  destruct (save_iconset demo_platform (Image_new mode_RGBA (1024, 1024) (RGBA 0 0 0 0))
              "AppIcon" ["Icons"; "AppIcon.iconset"] (empty_tree 0))
    as [o w'] eqn:Hrun.
  run_Ok Hrun.
  destruct (save_iconset_Ok demo_platform _ _ _ _ _ Hrun) as [Hfiles _].
  assert ((32, "16x16@2x") ∈ iconset_sizes) as Hin1 by compute_done.
  assert ((32, "32x32") ∈ iconset_sizes) as Hin2 by compute_done.
  pose proof (Hfiles 32 "16x16@2x" Hin1) as Hfile1.
  pose proof (Hfiles 32 "32x32" Hin2) as Hfile2.
  assert ("16x16@2x" ∈ iconset_labels) as Hlabel1 by compute_done.
  assert ("32x32" ∈ iconset_labels) as Hlabel2 by compute_done.
  assert ("16x16@2x" <> "32x32") as Hne by discriminate.
  apply (Hclaim w' "16x16@2x" "32x32" _ _ eq_refl Hlabel1 Hlabel2 Hne Hfile1 Hfile2).
  reflexivity.
Qed.

(** [create_toolbar_icons] on the empty tree returns, and the icon of
    [Undo] drawn at 36 is in [Undo_18x18@2x.png]. *)
Lemma C4_toolbar_fifteen_files_witness :
  exists w',
    create_toolbar_icons demo_platform (empty_tree 0) = (Ok tt, w')
    /\ w_files w' !! ["Toolbar"; "Undo_18x18@2x.png"]
       = Some (toolbar_icon "undo" "#5856D6" 36).
Proof.
  destruct (create_toolbar_icons demo_platform (empty_tree 0)) as [o w'] eqn:Hrun.
  run_Ok Hrun. exists w'. split; [reflexivity|].
  pose proof (C4_toolbar_fifteen_files demo_platform _ _ Hrun) as (Hfiles & _).
  apply (Hfiles "Undo" "undo" "#5856D6"). compute_done.
Defined.

(** [create_launch_screen] on the empty tree returns, and the second launch
    screen is 1024 by 768. *)
Lemma C5_generated_sizes_witness :
  exists w' im,
    run_routine demo_platform launch_screen (empty_tree 0) = (Ok tt, w')
    /\ w_files w' !! ["LaunchScreen"; "LaunchScreen_1024x768.png"] = Some im
    /\ im_size im = (1024, 768).
Proof.
  destruct (run_routine demo_platform launch_screen (empty_tree 0))
    as [o w'] eqn:Hrun.
  run_Ok Hrun.
  pose proof (C5_generated_sizes demo_platform launch_screen _ _ Hrun) as (Hsizes & _).
  destruct (Hsizes ["LaunchScreen"; "LaunchScreen_1024x768.png"] (1024, 768))
    as (im & Hfile & Hsize & _); [compute_done|].
  exists w', im. auto.
Defined.

(** A piece of side 64 and a launch screen of 800 by 600 are produced; a
    piece of side -1 and a launch screen of height -600 are refused by
    [Image.new]. *)
Lemma C6_font_lookup_total_witness :
  (exists im, create_traditional_piece demo_platform 64 "帅" "red" = Ok im)
  /\ (exists im, create_modern_piece demo_platform 64 "帅" "red" = Ok im)
  /\ (exists im, launch_image demo_platform 800 600 = Ok im)
  /\ create_traditional_piece demo_platform (-1) "帅" "red" = Raise ValueError
  /\ launch_image demo_platform 800 (-600) = Raise ValueError.
Proof.
  destruct (C6_font_lookup_total demo_platform)
    as (_ & _ & _ & _ & Htraditional & Hmodern & Hlaunch & Hpiece & Hscreen).
  split; [apply Htraditional; lia|].
  split; [apply Hmodern; lia|].
  split; [apply Hlaunch; lia|].
  split; [apply (Hpiece (-1)); lia | apply Hscreen; right; lia].
Defined.

(** [main] on the empty tree: the app icon is written, then
    [create_board_styles] raises [FileNotFoundError] and the run ends
    there.  On a tree where a regular file stands at [BoardStyles],
    [create_board_styles] raises [NotADirectoryError]. *)
Lemma C7_disk_failures_propagate_witness :
  (exists g final_img w1,
     create_app_icon demo_platform (empty_tree 7) = (Ok final_img, w1)
     /\ main demo_platform (empty_tree 7)
        = (Raise FileNotFoundError, World g (w_dirs w1) (w_files w1)))
  /\ (exists g,
        create_board_styles demo_platform (board_file_tree 7)
        = (Raise NotADirectoryError,
           World g (w_dirs (board_file_tree 7)) (w_files (board_file_tree 7)))).
Proof.
  split.
  - destruct (create_app_icon demo_platform (empty_tree 7))
      as [[final_img|e] w1] eqn:Hicon; [|run_returns Hicon].
    destruct (proj1 (proj2 (C7_disk_failures_propagate demo_platform))
                (empty_tree 7) w1 final_img) as (g & Hmain).
    + vm_compute. reflexivity.
    + exact Hicon.
    + exists g, final_img, w1. split; [reflexivity | exact Hmain].
  - destruct (proj1 (C7_disk_failures_propagate demo_platform) (board_file_tree 7))
      as (g & Hboard); [vm_compute; reflexivity|].
    exists g. exact Hboard.
Defined.

(** The routines in the reverse order, on a tree where [BoardStyles] is
    there: [main] returns, and so does the reverse run, in the same world. *)
Lemma C8_order_is_cosmetic_witness :
  exists w',
    main demo_platform (prepared_tree 7) = (Ok tt, w')
    /\ run_in_order demo_platform (reverse main_order) (prepared_tree 7) = (Ok tt, w').
Proof.
  destruct (main demo_platform (prepared_tree 7)) as [o w'] eqn:Hrun.
  run_Ok Hrun. exists w'. split; [reflexivity|].
  assert (Permutation main_order (reverse main_order)) as Hperm
    by (symmetry; apply reverse_Permutation).
  pose proof (proj1 (C8_order_is_cosmetic demo_platform) (reverse main_order) Hperm
                (prepared_tree 7) w') as [Hsame _].
  exact (Hsame Hrun).
Defined.

(** [create_app_icon] on the empty tree returns the master, 1024 by 1024,
    and has saved it as [AppIcon_1024.png]. *)
Lemma C9_app_icon_eleven_files_witness :
  exists final_img w',
    create_app_icon demo_platform (empty_tree 0) = (Ok final_img, w')
    /\ im_size final_img = (1024, 1024)
    /\ w_files w' !! ["Icons"; "AppIcon_1024.png"] = Some final_img.
Proof.
  destruct (create_app_icon demo_platform (empty_tree 0))
    as [[final_img|e] w'] eqn:Hrun; [|run_returns Hrun].
  destruct (C9_app_icon_eleven_files demo_platform _ _ _ Hrun)
    as (_ & Hsize & Hfile & _).
  exists final_img, w'. auto.
Defined.

(** * Further properties of the generator *)

(** ** What the runs do to the tree *)

Section Runs.
Context {rng_state font : Type} (P : platform rng_state font).

#[local] Abbreviation world := (world rng_state font).
#[local] Abbreviation image := (image font).
#[local] Abbreviation fs_op := (@fs_op rng_state font).

Lemma world_eta (w : world) : World (w_rng w) (w_dirs w) (w_files w) = w.
Proof. destruct w; reflexivity. Qed.

(** *** Directories and files only grow *)

Lemma step_grows op (w w' : world) o :
  step P op w = (o, w') ->
  w_dirs w ⊆ w_dirs w' /\ dom (w_files w) ⊆ dom (w_files w').
Proof.
  intros Hstep. destruct o as [[]|e].
  - destruct op as [d|o' f|g].
    + apply step_makedirs_Ok in Hstep as [_ ->]. simpl.
      split; [apply union_subseteq_r | reflexivity].
    + apply step_save_Ok' in Hstep as (im & _ & _ & _ & _ & ->). simpl.
      split; [reflexivity|]. rewrite dom_insert_L. apply union_subseteq_r.
    + injection Hstep as <-. split; reflexivity.
  - apply step_Raise in Hstep as ->. split; reflexivity.
Qed.

Lemma exec_grows (s : list fs_op) (w w' : world) o :
  exec P s w = (o, w') ->
  w_dirs w ⊆ w_dirs w' /\ dom (w_files w) ⊆ dom (w_files w').
Proof.
  revert w. induction s as [|op s IH]; intros w Hexec.
  - injection Hexec as _ <-. split; reflexivity.
  - rewrite exec_cons in Hexec. unfold bind in Hexec.
    destruct (step P op w) as [[[]|e] w1] eqn:Hstep.
    + destruct (step_grows _ _ _ _ Hstep) as [Hd Hf].
      destruct (IH w1 Hexec) as [Hd' Hf'].
      split; etransitivity; eassumption.
    + injection Hexec as _ <-. exact (step_grows _ _ _ _ Hstep).
Qed.

Lemma made_dirs_elem (s : list fs_op) q :
  q ∈ made_dirs s <-> exists d, Makedirs d ∈ s /\ q ∈ ancestors d.
Proof.
  unfold made_dirs. rewrite list_elem_of_In, in_flat_map. split.
  - intros (op & Hin & Hq). destruct op as [d|o f|g]; [|destruct Hq..].
    exists d. rewrite !list_elem_of_In. auto.
  - intros (d & Hin & Hq). exists (Makedirs d). rewrite <- !list_elem_of_In. auto.
Qed.

(** A directory there is after a run was there before or is one the run
    makes, whether the run gets to its end or not. *)
Lemma exec_dirs_made (s : list fs_op) (w w' : world) o d :
  exec P s w = (o, w') -> d ∈ w_dirs w' -> d ∈ made_dirs s \/ d ∈ w_dirs w.
Proof.
  revert w. induction s as [|op s IH]; intros w Hexec Hd.
  - injection Hexec as _ <-. right. exact Hd.
  - rewrite exec_cons in Hexec. unfold bind in Hexec.
    destruct (step P op w) as [[[]|e] w1] eqn:Hstep.
    + destruct (IH w1 Hexec Hd) as [Hmade|Hw1].
      * left. apply made_dirs_elem in Hmade as (d' & Hin & Hq).
        apply made_dirs_elem. exists d'. split; [right; exact Hin | exact Hq].
      * destruct op as [d'|o' f|g].
        -- apply step_makedirs_Ok in Hstep as [_ ->]. cbn [w_dirs] in Hw1.
           apply elem_of_union in Hw1 as [Hq%elem_of_list_to_set|Hw]; [left | right; exact Hw].
           apply made_dirs_elem. exists d'. split; [left | exact Hq].
        -- apply step_save_Ok' in Hstep as (im & _ & _ & _ & _ & ->).
           right. exact Hw1.
        -- injection Hstep as <-. right. exact Hw1.
    + injection Hexec as _ <-. apply step_Raise in Hstep as ->. right. exact Hd.
Qed.

Lemma exec_Ok_dom (s : list fs_op) (w w' : world) :
  exec P s w = (Ok tt, w') ->
  dom (w_files w') = list_to_set (saved_paths s) ∪ dom (w_files w).
Proof.
  revert w. induction s as [|op s IH]; intros w.
  - intros [= <-]. symmetry. apply (left_id_L ∅ (∪)).
  - intros (w1 & Hstep & Hexec)%exec_Ok_cons.
    rewrite (IH w1 Hexec). clear IH Hexec.
    destruct op as [d|o' f|g]; unfold saved_paths; simpl.
    + apply step_makedirs_Ok in Hstep as [_ ->]. reflexivity.
    + apply step_save_Ok' in Hstep as (im & _ & _ & _ & _ & ->). cbn [w_files].
      rewrite dom_insert_L, !(assoc_L (∪)). f_equal. apply (comm_L (∪)).
    + injection Hstep as <-. reflexivity.
Qed.

(** *** Running a sequence a second time *)

Lemma exec_op_inv (s : list fs_op) (w w' : world) op :
  exec P s w = (Ok tt, w') -> op ∈ s ->
  exists w1 w2, step P op w1 = (Ok tt, w2)
    /\ w_dirs w ⊆ w_dirs w1 /\ dom (w_files w) ⊆ dom (w_files w1)
    /\ w_dirs w1 ⊆ w_dirs w'.
Proof.
  revert w. induction s as [|op0 s IH]; intros w Hexec Hop; [inversion Hop|].
  pose proof (exec_grows _ _ _ _ Hexec) as [Hall _].
  apply exec_Ok_cons in Hexec as (wa & Hstep & Hexec).
  apply elem_of_cons in Hop as [->|Hop].
  - exists w, wa. repeat split; try reflexivity; assumption.
  - destruct (IH wa Hexec Hop) as (w1 & w2 & H12 & Hd & Hf & Hd').
    destruct (step_grows _ _ _ _ Hstep) as [Hd0 Hf0].
    exists w1, w2. repeat split; try assumption; etransitivity; eassumption.
Qed.

Lemma exec_settled (s : list fs_op) (w : world) :
  (forall op, op ∈ s -> step P op w = (Ok tt, w)) -> exec P s w = (Ok tt, w).
Proof.
  induction s as [|op s IH]; intros H; [reflexivity|].
  apply exec_Ok_cons. exists w. split; [apply H; left|].
  apply IH. intros op' Hop'. apply H. right. exact Hop'.
Qed.

Lemma reseeds_none ks : reseeds ks = 0%nat -> K_reseed ∉ ks.
Proof.
  induction ks as [|[d|f|] ks IH]; simpl; intros H.
  - intros Hin. inversion Hin.
  - apply not_elem_of_cons. split; [discriminate | auto].
  - apply not_elem_of_cons. split; [discriminate | auto].
  - discriminate.
Qed.

(** With one reseeding at most, the generator is left in its state. *)
Lemma reseed_last (s : list fs_op) (w w' : world) g :
  exec P s w = (Ok tt, w') -> (reseeds (map key_of s) <= 1)%nat ->
  Reseed g ∈ s -> w_rng w' = g.
Proof.
  revert w. induction s as [|op s IH]; intros w Hexec Hone Hin; [inversion Hin|].
  apply exec_Ok_cons in Hexec as (w1 & Hstep & Hexec).
  destruct op as [d|o f|g0]; cbn [map key_of reseeds] in Hone.
  - apply elem_of_cons in Hin as [[=]|Hin]. apply (IH w1); assumption.
  - apply elem_of_cons in Hin as [[=]|Hin]. apply (IH w1); assumption.
  - assert (K_reseed ∉ map key_of s) as Hnone by (apply reseeds_none; lia).
    apply elem_of_cons in Hin as [[= ->]|Hin].
    + rewrite (exec_rng P _ _ _ _ Hexec Hnone).
      injection Hstep as <-. reflexivity.
    + destruct Hnone. apply list_elem_of_fmap. exists (Reseed g). auto.
Qed.

Lemma exec_rerun (s : list fs_op) (w w' : world) :
  exec P s w = (Ok tt, w') ->
  NoDup (saved_paths s) ->
  Forall (fun f => f ∉ made_dirs s) (saved_paths s) ->
  (reseeds (map key_of s) <= 1)%nat ->
  exec P s w' = (Ok tt, w').
Proof.
  intros Hexec Hnd Hdisj Hone. apply exec_settled. intros op Hop.
  pose proof (exec_Ok_dirs P _ _ _ Hexec) as Hdirs.
  pose proof (exec_Ok_dom _ _ _ Hexec) as Hdom.
  rewrite Forall_forall in Hdisj.
  destruct (exec_op_inv _ _ _ _ Hexec Hop) as (w1 & w2 & Hstep & Hd1 & Hf1 & Hd1').
  destruct op as [d|o f|g].
  - apply step_makedirs_Ok in Hstep as [Hfree _]. apply step_makedirs_Ok. split.
    + intros q Hq. unfold is_file. apply bool_decide_eq_false.
      rewrite <- elem_of_dom, Hdom. intros [Hs|Hw]%elem_of_union.
      * apply elem_of_list_to_set in Hs. apply (Hdisj q Hs).
        apply made_dirs_elem. eauto.
      * specialize (Hfree q Hq). unfold is_file in Hfree.
        apply bool_decide_eq_false in Hfree. apply Hfree.
        rewrite <- elem_of_dom. apply Hf1. exact Hw.
    + rewrite subseteq_union_1_L; [symmetry; apply world_eta|].
      intros q Hq%elem_of_list_to_set. rewrite Hdirs.
      apply elem_of_union. left. apply elem_of_list_to_set.
      apply made_dirs_elem. eauto.
  - destruct (exec_Ok_saved P _ _ _ Hexec Hnd _ _ Hop) as [Hfile _].
    apply step_save_Ok' in Hstep as (im & -> & Hdir & Hnot & Hdisk & _).
    apply step_save_Ok'. exists im.
    split; [reflexivity|]. split; [apply Hd1'; exact Hdir|].
    split; [|split; [exact Hdisk|]].
    + rewrite Hdirs. intros [Hm|Hw]%elem_of_union.
      * apply elem_of_list_to_set in Hm.
        apply (Hdisj f); [apply saved_paths_elem; eauto | exact Hm].
      * apply Hnot. apply Hd1. exact Hw.
    + rewrite insert_id; [symmetry; apply world_eta|].
      destruct (w_files w' !! f); [|discriminate].
      injection Hfile as ->. reflexivity.
  - rewrite reseed_step. rewrite <- (reseed_last _ _ _ _ Hexec Hone Hop).
    f_equal. apply world_eta.
Qed.

Lemma Forall_not_elem_eq {A} (l md md' : list A) :
  md = md' -> Forall (fun f => f ∉ md') l -> Forall (fun f => f ∉ md) l.
Proof. intros ->. auto. Qed.

(** X1: running again changes nothing.  When a routine, or [main], has
    returned, running it a second time in the tree it has left returns too
    and leaves that tree as it is: the same directories, the same files
    holding the same images, the same generator state. *)
Theorem X1_rerun_changes_nothing :
  (forall r (w w' : world),
     run_routine P r w = (Ok tt, w') -> run_routine P r w' = (Ok tt, w'))
  /\ (forall w w' : world, main P w = (Ok tt, w') -> main P w' = (Ok tt, w')).
Proof.
  split.
  - intros r w w'. rewrite !run_routine_exec. intros Hexec.
    apply (exec_rerun _ w w' Hexec).
    + apply routine_paths_NoDup.
    + destruct r;
        (eapply Forall_not_elem_eq; [vm_compute; reflexivity | compute_done]).
    + destruct r; compute_done.
  - intros w w'. rewrite !main_run_in_order, !run_in_order_exec. intros Hexec.
    apply (exec_rerun _ w w' Hexec); [compute_done | | compute_done].
    eapply Forall_not_elem_eq; [vm_compute; reflexivity | compute_done].
Qed.

Lemma Forall_elem_eq {A} (l md md' : list A) :
  md = md' -> Forall (fun f => f ∈ md') l -> Forall (fun f => f ∈ md) l.
Proof. intros ->. auto. Qed.

(** The files of the six routines are the saves of [main]'s sequence. *)
Lemma main_files_saved p :
  p ∈ flat_map routine_files main_order
  <-> p ∈ saved_paths (flat_map (routine_script P) main_order).
Proof.
  rewrite saved_paths_elem. rewrite list_elem_of_In, in_flat_map. split.
  - intros (r & Hr & Hp). apply list_elem_of_In in Hp.
    apply (routine_files_saved P), saved_paths_elem in Hp as (o & Ho).
    exists o. apply list_elem_of_In, in_flat_map. exists r.
    split; [exact Hr | apply list_elem_of_In; exact Ho].
  - intros (o & Ho). apply list_elem_of_In, in_flat_map in Ho as (r & Hr & Ho).
    exists r. split; [exact Hr|]. apply list_elem_of_In.
    apply (routine_files_saved P), saved_paths_elem. exists o.
    apply list_elem_of_In. exact Ho.
Qed.

Lemma main_saves_produced o p :
  SaveOf o p ∈ flat_map (routine_script P) main_order -> exists im, o = Ok im.
Proof.
  intros Hin. apply list_elem_of_In, in_flat_map in Hin as (r & _ & Hin).
  apply list_elem_of_In in Hin. eapply script_saves_produced. exact Hin.
Qed.

(** [main] saves no path twice. *)
Lemma main_paths_NoDup :
  NoDup (saved_paths (flat_map (routine_script P) main_order)).
Proof. compute_done. Qed.

(** From a tree that holds [BoardStyles] and nothing else, every check of
    the tree that [main] makes passes. *)
Lemma main_keys_ok :
  keys_ok (map key_of (flat_map (routine_script P) main_order))
    {[ []; ["BoardStyles"] ]} ∅ = true.
Proof. vm_compute. reflexivity. Qed.

Lemma main_checks_pass (w : world) :
  w_dirs w = {[ []; ["BoardStyles"] ]} -> w_files w = ∅ ->
  keys_ok (map key_of (flat_map (routine_script P) main_order))
    (w_dirs w) (dom (w_files w)) = true.
Proof.
  intros Hdirs Hfiles. pose proof main_keys_ok as Hkeys. revert Hkeys.
  generalize (map key_of (flat_map (routine_script P) main_order)).
  intros ks Hkeys. rewrite Hdirs, Hfiles, dom_empty_L. exact Hkeys.
Qed.

(** X2: [main] on a fresh tree.  From a tree that holds the directory
    [BoardStyles] and nothing else, on a disk that takes the writes, [main]
    returns; the files there are afterwards are exactly those of the six
    routines, 121 of them, and the directories exactly the sixteen of
    [output_dirs]. *)
Theorem X2_main_on_prepared_tree (w : world) :
  w_dirs w = {[ []; ["BoardStyles"] ]} -> w_files w = ∅ ->
  (forall p, p ∈ flat_map routine_files main_order -> disk_accepts P p = true) ->
  exists w',
    main P w = (Ok tt, w')
    /\ (forall p, is_Some (w_files w' !! p) <-> p ∈ flat_map routine_files main_order)
    /\ size (w_files w') = 121%nat
    /\ (forall d, d ∈ w_dirs w' <-> d ∈ output_dirs)
    /\ size (w_dirs w') = 16%nat.
Proof.
  intros Hdirs Hfiles Hdisk.
  destruct (exec_succeeds P (flat_map (routine_script P) main_order) w)
    as (w' & Hexec).
  { apply main_checks_pass; assumption. }
  { intros o p Hin. split; [eapply main_saves_produced; exact Hin|].
    apply Hdisk, main_files_saved, saved_paths_elem. eauto. }
  exists w'. rewrite main_run_in_order, run_in_order_exec.
  split; [exact Hexec|].
  pose proof (exec_Ok_dom _ _ _ Hexec) as Hdom.
  rewrite Hfiles, dom_empty_L, (right_id_L ∅ (∪)) in Hdom.
  pose proof (exec_Ok_dirs P _ _ _ Hexec) as Hmade. rewrite Hdirs in Hmade.
  assert (w_dirs w' = list_to_set output_dirs) as Hout.
  { rewrite Hmade. apply set_eq. intros d.
    rewrite elem_of_union, !elem_of_list_to_set, elem_of_union, !elem_of_singleton.
    split.
    - assert (Forall (fun d => d ∈ output_dirs)
                (made_dirs (flat_map (routine_script P) main_order))) as Hsub
        by compute_done.
      rewrite Forall_forall in Hsub.
      intros [Hd|[->| ->]]; [apply Hsub; exact Hd | compute_done | compute_done].
    - assert (Forall (fun d => d ∈ made_dirs (flat_map (routine_script P) main_order)
                               ++ [ ["BoardStyles"] ]) output_dirs) as Hsub.
      { eapply Forall_elem_eq; [vm_compute; reflexivity | compute_done]. }
      rewrite Forall_forall in Hsub. intros Hd.
      apply Hsub, elem_of_app in Hd as [Hd|Hd]; [left; exact Hd|].
      apply list_elem_of_singleton in Hd. auto. }
  split; [|split; [|split]].
  - intros p. rewrite <- elem_of_dom, Hdom, elem_of_list_to_set. symmetry.
    apply main_files_saved.
  - rewrite <- size_dom, Hdom, size_list_to_set by apply main_paths_NoDup. reflexivity.
  - intros d. rewrite Hout. apply elem_of_list_to_set.
  - rewrite Hout, size_list_to_set by compute_done. reflexivity.
Qed.

(** X3: [main] on an empty tree.  From a tree with nothing in it, on a disk
    that takes the writes of the app icon, [main] raises
    [FileNotFoundError]; the tree then holds exactly the eleven files of the
    app icon, and [Icons] and [Icons/AppIcon.iconset] beside the root.  The
    grain of the wood board is drawn before its save fails: the generator is
    left in the state that follows the 5000 rounds from seed 42. *)
Theorem X3_main_on_empty_tree (w : world) :
  w_dirs w = {[ [] ]} -> w_files w = ∅ ->
  (forall p, p ∈ app_icon_paths -> disk_accepts P p = true) ->
  exists w',
    main P w = (Raise FileNotFoundError, w')
    /\ (forall p, is_Some (w_files w' !! p) <-> p ∈ app_icon_paths)
    /\ (forall d, d ∈ w_dirs w' <-> d ∈ [ []; ["Icons"]; ["Icons"; "AppIcon.iconset"] ])
    /\ w_rng w'
       = snd (wood_grain P 1024 5000 (Image_new mode_RGB (1024, 1024) (Hex "#E8D4A2"))
                (seed P 42)).
Proof.
  intros Hdirs Hfiles Hdisk.
  destruct (exec_succeeds P (routine_script P app_icon) w) as (w1 & Hexec).
  { rewrite Hdirs, Hfiles, dom_empty_L. vm_compute. reflexivity. }
  { intros o p Hin. split; [eapply script_saves_produced; exact Hin|].
    apply Hdisk. change app_icon_paths with (routine_files app_icon).
    apply (routine_files_saved P), saved_paths_elem. eauto. }
  pose proof (exec_Ok_dom _ _ _ Hexec) as Hdom.
  rewrite Hfiles, dom_empty_L, (right_id_L ∅ (∪)) in Hdom.
  pose proof (exec_Ok_dirs P _ _ _ Hexec) as Hmade. rewrite Hdirs in Hmade.
  assert (is_dir w1 ["BoardStyles"] = false) as Hmissing.
  { unfold is_dir. apply bool_decide_eq_false. rewrite Hmade.
    rewrite elem_of_union, elem_of_list_to_set, elem_of_singleton.
    intros [Hd|Hd]; [|discriminate]. revert Hd.
    refine (bool_decide_unpack (_ ∉ _) _). vm_compute. exact I. }
  assert (is_file w1 [] || is_file w1 ["BoardStyles"] = false) as Hnofile.
  { assert (Forall (fun q => q ∉ saved_paths (routine_script P app_icon))
              [ []; ["BoardStyles"] ]) as Hfree by compute_done.
    rewrite !Forall_cons in Hfree. destruct Hfree as (H0 & H1 & _).
    unfold is_file. rewrite !bool_decide_eq_false_2; [reflexivity|..];
      rewrite <- elem_of_dom, Hdom, elem_of_list_to_set; assumption. }
  pose proof (board_rng P w1) as Hrng.
  destruct (board_missing_dir P w1 Hmissing) as (g & Hboard).
  rewrite Hnofile in Hboard.
  rewrite Hboard in Hrng. cbn [snd w_rng] in Hrng. subst g.
  rewrite <- run_routine_exec in Hexec.
  eexists. split; [|split; [|split]].
  - rewrite main_run_in_order. unfold run_in_order, main_order. cbn [for_].
    unfold bind at 1. rewrite Hexec.
    unfold bind at 1. cbn [run_routine]. rewrite Hboard. reflexivity.
  - intros p. cbn [w_files]. rewrite <- elem_of_dom, Hdom, elem_of_list_to_set.
    change app_icon_paths with (routine_files app_icon).
    symmetry. apply (routine_files_saved P).
  - intros d. cbn [w_dirs]. rewrite Hmade.
    rewrite elem_of_union, elem_of_list_to_set, elem_of_singleton. split.
    + intros [Hd| ->]; [|left]. revert d Hd. apply Forall_forall. compute_done.
    + intros Hd. apply elem_of_cons in Hd as [->|Hd]; [right; reflexivity|].
      left. revert d Hd. apply Forall_forall. compute_done.
  - reflexivity.
Qed.

(** X4: a routine stays in its directory and removes nothing.  Whatever
    the tree it starts from, and whether it returns or raises: a file whose
    content has changed lies below the routine's own directory; a directory
    that is new is the root or lies at or below that directory; every
    directory and every file there was is still there. *)
Theorem X4_routine_stays_in_its_directory r (w : world) :
  let w' := snd (run_routine P r w) in
  (forall p, w_files w' !! p <> w_files w !! p -> head p = Some (routine_dir r))
  /\ (forall d, d ∈ w_dirs w' ->
        d ∈ w_dirs w \/ d = [] \/ head d = Some (routine_dir r))
  /\ (forall d, d ∈ w_dirs w -> d ∈ w_dirs w')
  /\ (forall p, is_Some (w_files w !! p) -> is_Some (w_files w' !! p)).
Proof.
  destruct (run_routine P r w) as [o w'] eqn:Hrun. cbn [snd].
  pose proof Hrun as Hexec. rewrite run_routine_exec in Hexec.
  destruct (exec_grows _ _ _ _ Hexec) as [Hd Hf].
  split; [|split; [|split]].
  - intros p Hp. destruct (decide (p ∈ routine_files r)) as [Hin|Hout].
    + clear Hp. revert p Hin. apply Forall_forall. destruct r; compute_done.
    + destruct Hp. apply (routine_frame P r w w' o p Hrun Hout).
  - intros d Hin. destruct (exec_dirs_made _ _ _ _ _ Hexec Hin) as [Hmade|Hw];
      [right | left; exact Hw].
    clear Hin. revert d Hmade. apply Forall_forall. destruct r; compute_done.
  - intros d. apply Hd.
  - intros p. rewrite <- !elem_of_dom. apply Hf.
Qed.

(** The outcome of a sequence whose checks of the tree pass is decided by
    the disk. *)
Lemma exec_outcome (s : list fs_op) (w : world) :
  keys_ok (map key_of s) (w_dirs w) (dom (w_files w)) = true ->
  (forall o p, SaveOf o p ∈ s -> exists im, o = Ok im) ->
  fst (exec P s w) = Ok tt \/ fst (exec P s w) = Raise OSError.
Proof.
  revert w. induction s as [|op s IH]; intros w Hok Hsaves.
  - left. reflexivity.
  - assert (forall o p, SaveOf o p ∈ s -> exists im, o = Ok im) as Hrest.
    { intros o p Hin. apply (Hsaves o p). right. exact Hin. }
    rewrite exec_cons. unfold bind.
    destruct op as [d|o f|g]; cbn [map key_of keys_ok] in Hok.
    + apply andb_true_iff in Hok as [Hfree Hok].
      assert (step P (Makedirs d) w
              = (Ok tt, World (w_rng w) (list_to_set (ancestors d) ∪ w_dirs w)
                          (w_files w))) as ->.
      { apply step_makedirs_Ok. split; [|reflexivity].
        intros q Hq. rewrite forallb_forall in Hfree.
        apply list_elem_of_In in Hq. specialize (Hfree q Hq).
        apply bool_decide_eq_true in Hfree. unfold is_file.
        apply bool_decide_eq_false. rewrite <- elem_of_dom. exact Hfree. }
      apply IH; [exact Hok | exact Hrest].
    + apply andb_true_iff in Hok as [Hchecks Hok].
      apply andb_true_iff in Hchecks as [Hdir Hnot].
      destruct (Hsaves o f) as (im & ->); [left|].
      destruct (disk_accepts P f) eqn:Hdisk.
      * assert (step P (SaveOf (Ok im) f) w
                = (Ok tt, World (w_rng w) (w_dirs w) (<[f := im]> (w_files w)))) as ->.
        { apply step_save_Ok'. exists im.
          apply bool_decide_eq_true in Hdir. apply bool_decide_eq_true in Hnot. auto. }
        apply IH; [|exact Hrest]. cbn [w_dirs w_files]. rewrite dom_insert_L. exact Hok.
      * right. cbn [step]. unfold bind, lift, Image_save, is_dir.
        rewrite Hdir. apply bool_decide_eq_true in Hnot.
        rewrite (bool_decide_eq_false_2 _ Hnot), Hdisk. reflexivity.
    + rewrite reseed_step. apply IH; [exact Hok | exact Hrest].
Qed.

(** X5: from a fresh tree the disk alone decides.  From a tree that holds
    [BoardStyles] and nothing else, [main] returns exactly when the disk
    accepts each of the 121 files; when it does not return, what it raises
    is [OSError]. *)
Theorem X5_disk_decides_the_outcome (w : world) :
  w_dirs w = {[ []; ["BoardStyles"] ]} -> w_files w = ∅ ->
  (fst (main P w) = Ok tt
   <-> forall p, p ∈ flat_map routine_files main_order -> disk_accepts P p = true)
  /\ (fst (main P w) = Ok tt \/ fst (main P w) = Raise OSError).
Proof.
  intros Hdirs Hfiles.
  pose proof (main_checks_pass w Hdirs Hfiles) as Hkeys.
  rewrite main_run_in_order, run_in_order_exec. split.
  - split.
    + intros Hok p Hp.
      destruct (exec P _ w) as [o w'] eqn:Hexec. cbn [fst] in Hok. subst o.
      apply main_files_saved, saved_paths_elem in Hp as (o & Ho).
      apply (exec_Ok_saved P _ _ _ Hexec main_paths_NoDup _ _ Ho).
    + intros Hdisk. destruct (exec_succeeds P _ w Hkeys) as (w' & ->);
        [|reflexivity].
      intros o p Hin. split; [eapply main_saves_produced; exact Hin|].
      apply Hdisk, main_files_saved, saved_paths_elem. eauto.
  - apply exec_outcome; [exact Hkeys|]. apply main_saves_produced.
Qed.

(** *** A refused write *)

Lemma saved_paths_split (s : list fs_op) before p after :
  saved_paths s = before ++ p :: after ->
  exists s1 o s2, s = s1 ++ SaveOf o p :: s2 /\ saved_paths s1 = before.
Proof.
  revert before. induction s as [|op s IH]; intros before Hs.
  - destruct before; discriminate.
  - destruct op as [d|o q|g].
    + destruct (IH before Hs) as (s1 & o & s2 & -> & <-).
      exists (Makedirs d :: s1), o, s2. auto.
    + destruct before as [|b before].
      * injection Hs as -> _. exists [], o, s. auto.
      * injection Hs as -> Hs. destruct (IH before Hs) as (s1 & o' & s2 & -> & <-).
        exists (SaveOf o b :: s1), o', s2. auto.
    + destruct (IH before Hs) as (s1 & o & s2 & -> & <-).
      exists (Reseed g :: s1), o, s2. auto.
Qed.

Lemma keys_ok_prefix ks1 ks2 dirs files :
  keys_ok (ks1 ++ ks2) dirs files = true -> keys_ok ks1 dirs files = true.
Proof.
  revert dirs files. induction ks1 as [|[d|f|] ks1 IH]; intros dirs files; simpl.
  - reflexivity.
  - rewrite !andb_true_iff. intros [H1 H2]. eauto.
  - rewrite !andb_true_iff. intros [H1 H2]. eauto.
  - apply IH.
Qed.

(** The checks that pass from the start pass from where a first part of
    the sequence has led. *)
Lemma keys_ok_exec (s1 : list fs_op) ks (w w1 : world) :
  exec P s1 w = (Ok tt, w1) ->
  keys_ok (map key_of s1 ++ ks) (w_dirs w) (dom (w_files w)) = true ->
  keys_ok ks (w_dirs w1) (dom (w_files w1)) = true.
Proof.
  revert w. induction s1 as [|op s1 IH]; intros w.
  - intros [= <-] Hok. exact Hok.
  - intros (wa & Hstep & Hexec)%exec_Ok_cons Hok. apply (IH wa Hexec).
    destruct op as [d|o f|g]; cbn [map key_of app keys_ok] in Hok.
    + apply andb_true_iff in Hok as [_ Hok].
      apply step_makedirs_Ok in Hstep as [_ ->]. exact Hok.
    + apply andb_true_iff in Hok as [_ Hok].
      apply step_save_Ok' in Hstep as (im & _ & _ & _ & _ & ->).
      cbn [w_dirs w_files]. rewrite dom_insert_L. exact Hok.
    + injection Hstep as <-. exact Hok.
Qed.

Lemma exec_refused (s : list fs_op) (w : world) before p after :
  keys_ok (map key_of s) (w_dirs w) (dom (w_files w)) = true ->
  (forall o q, SaveOf o q ∈ s -> exists im, o = Ok im) ->
  saved_paths s = before ++ p :: after ->
  (forall q, q ∈ before -> disk_accepts P q = true) ->
  disk_accepts P p = false ->
  exists w', exec P s w = (Raise OSError, w')
             /\ dom (w_files w') = list_to_set before ∪ dom (w_files w).
Proof.
  intros Hok Hsaves Hsplit Hbefore Hp.
  destruct (saved_paths_split s before p after Hsplit) as (s1 & o & s2 & -> & <-).
  rewrite map_app in Hok.
  destruct (exec_succeeds P s1 w) as (w1 & Hexec).
  { eapply keys_ok_prefix. exact Hok. }
  { intros o' q Hin. split.
    - apply (Hsaves o' q). apply elem_of_app. left. exact Hin.
    - apply Hbefore. apply saved_paths_elem. eauto. }
  pose proof (keys_ok_exec s1 _ w w1 Hexec Hok) as Hnext.
  cbn [map key_of keys_ok] in Hnext.
  apply andb_true_iff in Hnext as [Hchecks _].
  apply andb_true_iff in Hchecks as [Hdir Hnot].
  destruct (Hsaves o p) as (im & ->).
  { apply elem_of_app. right. left. }
  exists w1. split; [|apply (exec_Ok_dom _ _ _ Hexec)].
  rewrite exec_app. unfold bind at 1. rewrite Hexec.
  rewrite exec_cons. unfold bind at 1.
  cbn [step]. unfold bind, lift, Image_save, is_dir.
  rewrite Hdir. apply bool_decide_eq_true in Hnot.
  rewrite (bool_decide_eq_false_2 _ Hnot), Hp. reflexivity.
Qed.

(** X6: a refused write stops the run and undoes nothing.  From a tree
    that holds [BoardStyles] and nothing else, if the disk accepts the files
    [main] saves before [p], in the order in which it saves them, and
    refuses [p], then [main] raises [OSError]; every file saved before [p]
    is in the tree, and no other path than [p] and those holds a file.
    Nothing is said of [p] itself: what a refused write leaves at its own
    path depends on when the disk refuses. *)
Theorem X6_refused_write_keeps_earlier_files (w : world) before p after :
  w_dirs w = {[ []; ["BoardStyles"] ]} -> w_files w = ∅ ->
  saved_paths (flat_map (routine_script P) main_order) = before ++ p :: after ->
  (forall q, q ∈ before -> disk_accepts P q = true) ->
  disk_accepts P p = false ->
  exists w', main P w = (Raise OSError, w')
             /\ (forall q, q ∈ before -> is_Some (w_files w' !! q))
             /\ (forall q, q <> p -> is_Some (w_files w' !! q) -> q ∈ before).
Proof.
  intros Hdirs Hfiles Hsplit Hbefore Hp.
  destruct (exec_refused _ w before p after (main_checks_pass w Hdirs Hfiles)
              main_saves_produced Hsplit Hbefore Hp) as (w' & Hexec & Hdom).
  exists w'. rewrite main_run_in_order, run_in_order_exec.
  split; [exact Hexec|].
  assert (forall q, is_Some (w_files w' !! q) <-> q ∈ before) as Hfound.
  { intros q.
    rewrite <- elem_of_dom, Hdom, Hfiles, dom_empty_L, (right_id_L ∅ (∪)).
    apply elem_of_list_to_set. }
  split; [intros q Hq; apply Hfound; exact Hq | intros q _ Hq; apply Hfound; exact Hq].
Qed.

Lemma script_head r :
  r <> board_styles ->
  exists d rest, routine_script P r = Makedirs d :: rest
                 /\ [routine_dir r] ∈ ancestors d.
Proof.
  intros Hr. destruct r; try congruence; do 2 eexists;
    (split; [reflexivity | compute_done]).
Qed.

(** X7: a file in the place of a directory.  If the path of a routine's
    own directory is a file (and so not a directory), the routine raises and
    leaves the directories and the files as they were. *)
Theorem X7_file_in_the_way r (w : world) :
  is_file w [routine_dir r] = true -> is_dir w [routine_dir r] = false ->
  exists e w', run_routine P r w = (Raise e, w')
               /\ w_dirs w' = w_dirs w /\ w_files w' = w_files w.
Proof.
  intros Hfile Hdir. destruct (decide (r = board_styles)) as [->|Hr].
  - destruct (board_missing_dir P w Hdir) as (g & Hrun).
    do 2 eexists. split; [exact Hrun|]. split; reflexivity.
  - destruct (script_head r Hr) as (d & rest & Hscript & Hin).
    exists (if existsb (is_file w) (parents d) then NotADirectoryError
            else FileExistsError), w.
    split; [|split; reflexivity].
    rewrite run_routine_exec, Hscript, exec_cons. unfold bind.
    cbn [step]. unfold os_makedirs.
    assert (existsb (is_file w) (ancestors d) = true) as ->; [|reflexivity].
    apply existsb_exists. exists [routine_dir r].
    split; [apply list_elem_of_In; exact Hin | exact Hfile].
Qed.

End Runs.

(** ** What the drawings look like *)

Section Drawings.
Context {rng_state font : Type} (P : platform rng_state font).

#[local] Abbreviation image := (image font).

(** A run of calls on a canvas adds them to its history. *)
Lemma im_ops_draw_all (im : image) ops : im_ops (draw_all im ops) = im_ops im ++ ops.
Proof.
  unfold draw_all. revert im.
  induction ops as [|op ops IH]; intros im; simpl.
  - symmetry. apply app_nil_r.
  - rewrite IH. simpl. rewrite <- app_assoc. reflexivity.
Qed.

(** *** The boards *)

Lemma wood_grain_line_shape size g :
  randint_in_range P -> 0 < size ->
  grain_line size (fst (wood_grain_line P size g)).
Proof.
  intros Hrand Hsize. unfold wood_grain_line.
  pose proof (Hrand 0 (size - 1) g ltac:(lia)) as Hx.
  destruct (randint P 0 (size - 1) g) as [x g1].
  pose proof (Hrand 0 (size - 1) g1 ltac:(lia)) as Hy.
  destruct (randint P 0 (size - 1) g1) as [y g2].
  pose proof (Hrand 20 100 g2 ltac:(lia)) as Hlen.
  destruct (randint P 20 100 g2) as [len g3].
  pose proof (Hrand (-20) 20 g3 ltac:(lia)) as Hvar.
  destruct (randint P (-20) 20 g3) as [color_var g4].
  cbn [fst] in *. exists x, y, len, color_var.
  repeat (split; [lia|]).
  unfold clamp. repeat f_equal; lia.
Qed.

Lemma wood_grain_ops size rounds (im : image) g :
  randint_in_range P -> 0 < size ->
  exists ops,
    im_ops (fst (wood_grain P size rounds im g)) = im_ops im ++ ops
    /\ length ops = rounds
    /\ Forall (grain_line size) ops.
Proof.
  intros Hrand Hsize. revert im g.
  induction rounds as [|rounds IH]; intros im g; simpl.
  - exists []. rewrite app_nil_r. auto.
  - pose proof (wood_grain_line_shape size g Hrand Hsize) as Hop.
    destruct (wood_grain_line P size g) as [op g']. cbn [fst] in Hop.
    destruct (IH (draw im op) g') as (ops & Hops & Hlen & Hall).
    exists (op :: ops). simpl in Hops. rewrite <- app_assoc in Hops.
    split; [exact Hops|]. split; [simpl; congruence|].
    constructor; assumption.
Qed.

(** X8: the wood grain.  When [randint] keeps to its bounds and the canvas
    has a positive side, the loop adds exactly one line per round to a new
    canvas; each is vertical, starts on the canvas, is 20 to 100 long and
    one pixel wide, and its colour is the base colour (232, 212, 162) moved
    by the same amount between -20 and 20 on the three channels: the clamp
    to [0, 255] never changes a value.  A line may run up to 100 rows below
    the canvas. *)
Theorem X8_wood_grain_lines size rounds m sz c g :
  randint_in_range P -> 0 < size ->
  let grain := fst (wood_grain P size rounds (Image_new m sz c) g) in
  length (im_ops grain) = rounds
  /\ Forall (grain_line size) (im_ops grain)
  /\ Forall (op_in_box (0, 0, size - 1, size + 99)) (im_ops grain).
Proof.
  intros Hrand Hsize grain. subst grain.
  destruct (wood_grain_ops size rounds (Image_new m sz c) g Hrand Hsize)
    as (ops & -> & Hlen & Hall). simpl.
  split; [exact Hlen|]. split; [exact Hall|].
  eapply Forall_impl; [exact Hall|].
  intros op (x & y & len & cv & Hx & Hy & Hl & _ & ->).
  unfold op_in_box, in_box. simpl. repeat constructor; simpl; lia.
Qed.

(** X9: the grid of a board.  For a margin that leaves room
    ([0 <= margin], [2 * margin <= size]) the grid is 32 lines (ten rows,
    nine columns broken at the river, four palace diagonals), every end
    point lies within the margins, and the first and the last row are the
    top and the bottom edge of the square between the margins. *)
Theorem X9_board_lines_within_margins size margin c width :
  0 <= margin -> 2 * margin <= size ->
  length (board_lines (font:=font) size margin c width) = 32%nat
  /\ Forall (op_in_box (margin, margin, size - margin, size - margin))
       (board_lines (font:=font) size margin c width)
  /\ (line [(margin, margin); (size - margin, margin)] c width
      ∈ board_lines (font:=font) size margin c width)
  /\ (line [(margin, size - margin); (size - margin, size - margin)] c width
      ∈ board_lines (font:=font) size margin c width).
Proof.
  intros Hm Hs. split; [reflexivity|].
  split; [|split].
  2:{ apply elem_of_app. left. apply list_elem_of_fmap. exists 0.
      split; [|apply elem_of_seqZ; lia].
      cbv beta zeta. rewrite Z.mul_0_l, Z.div_0_l, Z.add_0_r by lia. reflexivity. }
  2:{ apply elem_of_app. left. apply list_elem_of_fmap. exists 9.
      split; [|apply elem_of_seqZ; lia].
      cbv beta zeta. rewrite (Z.mul_comm 9), Z.div_mul by lia.
      repeat f_equal; lia. }
  unfold board_lines, op_in_box, in_box. cbv zeta.
  remember (size - 2 * margin) as grid_size eqn:Hgrid.
  assert (0 <= grid_size) as Hg by lia.
  assert (size - margin = margin + grid_size) as -> by lia.
  clear Hgrid Hs size.
  apply Forall_app; split; [|apply Forall_app; split].
  - apply Forall_forall. intros op (i & -> & Hi%elem_of_seqZ)%list_elem_of_fmap.
    simpl. repeat constructor; simpl; try lia.
    all: try (pose proof (Z.div_pos (i * grid_size) 9); nia).
    all: assert (i * grid_size / 9 <= grid_size)
           by (apply Z.div_le_upper_bound; nia); lia.
  - apply Forall_forall. intros op Hop.
    apply list_elem_of_In, in_flat_map in Hop as (i & Hi & Hop).
    apply list_elem_of_In, elem_of_seqZ in Hi.
    assert (0 <= i * grid_size / 8 <= grid_size) as Hx.
    { split; [apply Z.div_pos; nia | apply Z.div_le_upper_bound; nia]. }
    assert (0 <= 4 * grid_size / 9 <= grid_size) as H4.
    { split; [apply Z.div_pos; nia | apply Z.div_le_upper_bound; nia]. }
    assert (0 <= 5 * grid_size / 9 <= grid_size) as H5.
    { split; [apply Z.div_pos; nia | apply Z.div_le_upper_bound; nia]. }
    simpl in Hop. destruct Hop as [<-|[<-|[]]]; simpl;
      repeat constructor; simpl; lia.
  - assert (0 <= 3 * grid_size / 8 /\ 0 <= 2 * grid_size / 8
            /\ 3 * grid_size / 8 + 2 * grid_size / 8 <= grid_size) as H8.
    { Z.to_euclidean_division_equations. lia. }
    assert (0 <= 4 * grid_size / 9 <= grid_size) as H4.
    { split; [apply Z.div_pos; nia | apply Z.div_le_upper_bound; nia]. }
    assert (0 <= 5 * grid_size / 9 <= grid_size) as H5.
    { split; [apply Z.div_pos; nia | apply Z.div_le_upper_bound; nia]. }
    repeat constructor; simpl; lia.
Qed.

(** *** The pieces *)

(** X10: the discs of a piece and the pixels of its canvas.  The two discs
    of a modern piece lie on the canvas (columns and rows 0 to [size - 1])
    at every size from 1 on, those of a traditional piece at every size
    from 41 on; at size 40 the border disc of the traditional piece has the
    box (0, 0, 40, 40) and reaches one past the last column and row.  Floats
    are read as exact rationals: the truncations [int(size * 0.45)],
    [int(size * 0.42)] and [int(size * 0.03)] are those of the rationals. *)
Theorem X10_piece_discs_inside_canvas :
  (forall size char colour im,
     1 <= size -> create_modern_piece P size char colour = Ok im ->
     Forall (op_in_box (canvas_box (size, size))) (im_ops im))
  /\ (forall size char colour im,
        41 <= size -> create_traditional_piece P size char colour = Ok im ->
        Forall (op_in_box (canvas_box (size, size))) (im_ops im))
  /\ (forall char colour im,
        create_traditional_piece P 40 char colour = Ok im ->
        map op_points (take 1 (im_ops im)) = [ [(0, 0); (40, 40)] ]
        /\ ~ Forall (op_in_box (canvas_box (40, 40))) (im_ops im)).
Proof.
  split; [|split].
  - intros size char colour im Hsize.
    unfold create_modern_piece. rewrite new_image_Ok by (simpl; lia).
    cbn [bind_outcome]. rewrite resolve_font_total.
    destruct (decide (colour = "red")); simpl; unfold centred_text;
      destruct (textbbox P _ _) as [[[b0 b1] b2] b3]; intros [= <-]; simpl;
      unfold op_in_box, in_box, canvas_box, int_Q; simpl;
      repeat constructor; simpl;
      Z.to_euclidean_division_equations; lia.
  - intros size char colour im Hsize.
    unfold create_traditional_piece. rewrite new_image_Ok by (simpl; lia).
    cbn [bind_outcome]. rewrite resolve_font_total.
    destruct (decide (colour = "red")); simpl; unfold centred_text;
      destruct (textbbox P _ _) as [[[b0 b1] b2] b3]; intros [= <-]; simpl;
      unfold op_in_box, in_box, canvas_box, int_Q; simpl;
      repeat constructor; simpl;
      Z.to_euclidean_division_equations; lia.
  - intros char colour im.
    unfold create_traditional_piece. rewrite new_image_Ok by (simpl; lia).
    cbn [bind_outcome]. rewrite resolve_font_total.
    destruct (decide (colour = "red")); simpl; unfold centred_text;
      destruct (textbbox P _ _) as [[[b0 b1] b2] b3]; intros [= <-]; simpl;
      (split; [reflexivity|]);
      intros Hall; apply Forall_cons in Hall as [Hop _];
      apply Forall_cons in Hop as [_ Hop];
      apply Forall_cons in Hop as [[[_ Hx] _] _];
      vm_compute in Hx; apply Hx; reflexivity.
Qed.

(** *** [create_rounded_rect] *)

(** X11: [create_rounded_rect].  For a radius that fits the box
    ([0 <= radius], [x1 + 2 * radius <= x2], [y1 + 2 * radius <= y2]) the
    function adds six calls to the image, and eight more when it is given
    an outline that Python counts as true: not [None], and not the colour 0
    or the empty string either.  Every rectangle, corner disc, arc and edge
    lies within the box, the fill calls paint with [fill] and the others
    with the outline colour, and the size of the image is unchanged. *)
Theorem X11_rounded_rect_inside_box (im : image) x1 y1 x2 y2 radius fill outline
    width :
  0 <= radius -> x1 + 2 * radius <= x2 -> y1 + 2 * radius <= y2 ->
  let out := create_rounded_rect im (x1, y1, x2, y2) radius fill outline width in
  let drawn := match outline with
               | Some c => if truthy c then Some c else None
               | None => None
               end in
  exists ops,
    im_ops out = im_ops im ++ ops
    /\ length ops = match drawn with Some _ => 14%nat | None => 6%nat end
    /\ Forall (op_in_box (x1, y1, x2, y2)) ops
    /\ Forall (fun op => Forall (fun c => c = fill \/ drawn = Some c) (op_colors op))
         ops
    /\ im_size out = im_size im.
Proof.
  intros Hr Hx Hy out drawn. subst out drawn. unfold create_rounded_rect.
  destruct outline as [outline|]; [destruct (truthy outline)|].
  - rewrite !im_ops_draw_all, !im_size_draw_all, <- app_assoc.
    eexists. split; [reflexivity|]. split; [reflexivity|].
    split; [|split; [|reflexivity]].
    + unfold op_in_box, in_box. repeat constructor; simpl; lia.
    + repeat (first [apply List.Forall_nil | apply List.Forall_cons]; simpl); auto.
  - rewrite !im_ops_draw_all, !im_size_draw_all.
    eexists. split; [reflexivity|]. split; [reflexivity|].
    split; [|split; [|reflexivity]].
    + unfold op_in_box, in_box. repeat constructor; simpl; lia.
    + repeat (first [apply List.Forall_nil | apply List.Forall_cons]; simpl); auto.
  - rewrite !im_ops_draw_all, !im_size_draw_all.
    eexists. split; [reflexivity|]. split; [reflexivity|].
    split; [|split; [|reflexivity]].
    + unfold op_in_box, in_box. repeat constructor; simpl; lia.
    + repeat (first [apply List.Forall_nil | apply List.Forall_cons]; simpl); auto.
Qed.

(** *** The font of the app icon and the font of the pieces *)

(** X12: the app icon does not look for the font the pieces fall back on.
    On a system where STHeiti and PingFang do not load and Hiragino Sans GB
    is there and loads, the lookup of the pieces and of the launch screen
    yields Hiragino Sans GB at the size asked, and the lookup of the app
    icon, which tries the first two paths only, yields the default font. *)
Theorem X12_hiragino_only_for_pieces (f : Z -> font) :
  (forall size, truetype P "/System/Library/Fonts/STHeiti Light.ttc" size = None) ->
  (forall size, truetype P "/System/Library/Fonts/PingFang.ttc" size = None) ->
  path_exists P "/System/Library/Fonts/Hiragino Sans GB.ttc" = true ->
  (forall size,
     truetype P "/System/Library/Fonts/Hiragino Sans GB.ttc" size = Some (f size)) ->
  (forall font_size, resolve_font P font_size = Ok (f font_size))
  /\ app_icon_font P = Ok (load_default P).
Proof.
  intros H1 H2 He H3. split.
  - intros font_size. rewrite resolve_font_total.
    unfold font_or_default, font_paths. cbn [first_font negb orb].
    rewrite H1, H2, H3, He. clear He.
    repeat destruct (path_exists P _); reflexivity.
  - unfold app_icon_font, ImageFont_truetype. rewrite H1, H2. reflexivity.
Qed.

(** *** The toolbar icons *)

(** X13: a toolbar icon, at a size [Image.new] accepts ([0 <= size]).  The
    canvas is [size] by [size]; every call paints
    with the colour of the icon; the canvas is left blank exactly when the
    icon type is none of the five the script knows.  From size 12 on, every
    shape of the icons other than the hint lies on the canvas (columns and
    rows 0 to [size - 1]).  The base of the hint ends at row
    [size / 2 + size / 3 + 2 * (size / 12)]: the hint lies on the canvas
    exactly when [size] is not a multiple of 12, and at a multiple of 12
    (the script draws it at 24 and 36) its base reaches row [size], one
    past the last.  A drawn size above 24 is saved under half its size
    rounded down, so an odd size shares its file name with the even size
    below it. *)
Theorem X13_toolbar_icon_shapes icon_type colour size :
  0 <= size ->
  let icon := toolbar_icon (font:=font) icon_type colour size in
  im_size icon = (size, size)
  /\ Forall (fun op => Forall (fun c => c = Hex colour) (op_colors op)) (im_ops icon)
  /\ (im_ops icon = [] <-> icon_type ∉ map (fun e => fst (snd e)) toolbar_icons)
  /\ (12 <= size -> icon_type <> "hint" ->
      Forall (op_in_box (canvas_box (size, size))) (im_ops icon))
  /\ (12 <= size -> icon_type = "hint" ->
      (Forall (op_in_box (canvas_box (size, size))) (im_ops icon)
       <-> size mod 12 <> 0)
      /\ Forall (op_in_box (0, 0, size - 1, size)) (im_ops icon))
  /\ (forall icon_name n, 12 < n ->
        toolbar_filename icon_name (2 * n + 1) = toolbar_filename icon_name (2 * n)).
Proof.
  intros _ icon. subst icon.
  split; [|split; [|split; [|split; [|split]]]].
  - unfold toolbar_icon.
    repeat (destruct (decide _); [apply im_size_draw_all|]). reflexivity.
  - unfold toolbar_icon.
    repeat (destruct (decide _);
            [rewrite im_ops_draw_all;
             repeat (first [apply List.Forall_nil | apply List.Forall_cons | reflexivity];
                     simpl)|]).
    constructor.
  - unfold toolbar_icon.
    cbn [map toolbar_icons fst snd]. rewrite !not_elem_of_cons.
    repeat (destruct (decide _) as [->|?];
            [rewrite im_ops_draw_all; split; [discriminate | intros H; exfalso; tauto]|]).
    split; [|reflexivity]. intros _.
    repeat (split; [assumption|]). apply not_elem_of_nil.
  - intros Hsize Hhint. unfold toolbar_icon.
    assert (Z.max 1 (size / 12) = size / 12) as Hstroke.
    { apply Z.max_r. apply Z.div_le_lower_bound; lia. }
    repeat (destruct (decide _);
            [first
               [ contradiction
               | rewrite im_ops_draw_all; cbn [im_ops app]; rewrite Hstroke;
                 unfold op_in_box, in_box, canvas_box;
                 repeat (first [apply List.Forall_nil | apply List.Forall_cons];
                         simpl);
                 Z.to_euclidean_division_equations; lia ]|]).
    constructor.
  - intros Hsize ->.
    assert (Z.max 1 (size / 12) = size / 12) as Hstroke.
    { apply Z.max_r. apply Z.div_le_lower_bound; lia. }
    change (toolbar_icon (font:=font) "hint" colour size)
      with (draw_all (Image_new (font:=font) mode_RGBA (size, size) (RGBA 0 0 0 0))
              (let center := size / 2 in
               let stroke := Z.max 1 (size / 12) in
               let bulb_radius := size / 3 in
               [ ellipse (center - bulb_radius, center - bulb_radius - stroke,
                          center + bulb_radius, center + bulb_radius - stroke)
                   (Some (Hex colour)) (Some (Hex colour)) 1;
                 rectangle (center - stroke, center + stroke,
                            center + stroke, center + bulb_radius + stroke * 2)
                   (Some (Hex colour)) ])).
    rewrite im_ops_draw_all. cbv zeta. cbn [im_ops app]. rewrite Hstroke.
    unfold op_in_box, in_box, canvas_box.
    rewrite !Forall_cons, !Forall_nil. cbn [op_points fst snd].
    rewrite !Forall_cons, !Forall_nil. cbn [fst snd].
    split; [split|]; intros; Z.to_euclidean_division_equations; lia.
  - intros icon_name n Hn. unfold toolbar_filename.
    rewrite !bool_decide_eq_false_2 by lia.
    replace ((2 * n + 1) / 2) with n by (Z.to_euclidean_division_equations; lia).
    replace (2 * n / 2) with n by (Z.to_euclidean_division_equations; lia).
    reflexivity.
Qed.

(** *** The overlays *)

(** X14: the overlays and the pixels of the canvas (columns and rows 0 to
    [size - 1]), for a side of 20 or more.  Of the ten rings of the
    selection highlight the nine inner ones lie on the canvas; the
    outermost, the first drawn, has the box
    (0, 0, 2 * (size / 2), 2 * (size / 2)) and lies on the canvas exactly
    when [size] is odd: at the size of the script, 256, it reaches column
    and row 256, one past the last.  Of the five rings of the check warning
    the two outer ones, the first two drawn, start at -5 and -2 and do not
    lie on the canvas; the other three do.  The move dot and the last-move
    ring lie on the canvas. *)
Theorem X14_overlay_rings_geometry size :
  20 <= size ->
  length (im_ops (font:=font) (selection_image size)) = 10%nat
  /\ (Forall (op_in_box (canvas_box (size, size)))
        (take 1 (im_ops (font:=font) (selection_image size)))
      <-> size mod 2 = 1)
  /\ Forall (op_in_box (canvas_box (size, size)))
       (drop 1 (im_ops (font:=font) (selection_image size)))
  /\ length (im_ops (font:=font) (check_warning_image size)) = 5%nat
  /\ Forall (fun op => ~ op_in_box (canvas_box (size, size)) op)
       (take 2 (im_ops (font:=font) (check_warning_image size)))
  /\ Forall (op_in_box (canvas_box (size, size)))
       (drop 2 (im_ops (font:=font) (check_warning_image size)))
  /\ Forall (op_in_box (canvas_box (size, size)))
       (im_ops (font:=font) (move_dot_image size))
  /\ Forall (op_in_box (canvas_box (size, size)))
       (im_ops (font:=font) (last_move_image size)).
Proof.
  intros Hsize.
  split; [reflexivity|].
  split; [|split; [|split; [reflexivity|split; [|split; [|split]]]]].
  - unfold selection_image. rewrite im_ops_draw_all.
    change (range_down 10) with [10; 9; 8; 7; 6; 5; 4; 3; 2; 1]. simpl.
    unfold op_in_box, in_box, canvas_box.
    rewrite !Forall_cons, !Forall_nil. unfold selection_ring.
    cbn [op_points fst snd].
    rewrite !Forall_cons, !Forall_nil. cbn [fst snd].
    split; intros; Z.to_euclidean_division_equations; lia.
  - unfold selection_image. rewrite im_ops_draw_all.
    change (range_down 10) with [10; 9; 8; 7; 6; 5; 4; 3; 2; 1]. simpl.
    unfold op_in_box, in_box, canvas_box.
    repeat (first [apply List.Forall_nil | apply List.Forall_cons]; simpl);
      Z.to_euclidean_division_equations; lia.
  - unfold check_warning_image. rewrite im_ops_draw_all.
    change (range_down 5) with [5; 4; 3; 2; 1]. simpl.
    unfold op_in_box, in_box, canvas_box.
    repeat (first [apply List.Forall_nil | apply List.Forall_cons]; simpl);
      intros Hin; apply Forall_cons in Hin as [[Hx _] _]; simpl in Hx; lia.
  - unfold check_warning_image. rewrite im_ops_draw_all.
    change (range_down 5) with [5; 4; 3; 2; 1]. simpl.
    unfold op_in_box, in_box, canvas_box.
    repeat (first [apply List.Forall_nil | apply List.Forall_cons]; simpl);
      Z.to_euclidean_division_equations; lia.
  - unfold move_dot_image. simpl.
    unfold op_in_box, in_box, canvas_box.
    repeat (first [apply List.Forall_nil | apply List.Forall_cons]; simpl);
      Z.to_euclidean_division_equations; lia.
  - unfold last_move_image. simpl.
    unfold op_in_box, in_box, canvas_box.
    repeat (first [apply List.Forall_nil | apply List.Forall_cons]; simpl);
      Z.to_euclidean_division_equations; lia.
Qed.

(** *** The gradient of the app icon *)

Lemma gradient_line_rows size y :
  0 < size -> 0 <= y ->
  gradient_line (font:=font) size y
  = line [(0, y); (size, y)]
      (RGB (44 + 16 * y / size) (44 + 16 * y / size) (46 + 18 * y / size)) 0.
Proof.
  intros Hsize Hy. destruct size as [|p|p]; try lia.
  unfold gradient_line, int_Q. cbn. rewrite !Pos.mul_1_l.
  replace ((60 * 1 + - (44) * 1) * (y * 1) * 1) with (16 * y) by lia.
  replace ((64 * 1 + - (46) * 1) * (y * 1) * 1) with (18 * y) by lia.
  rewrite !Z.quot_div_nonneg by lia.
  rewrite !(Z.add_comm (_ * Z.pos p)), !Z.div_add by lia.
  f_equal. f_equal; apply Z.add_comm.
Qed.

(** X15: the background gradient of the app icon.  On a canvas of side
    [size], row [y] is one line across the whole width whose red and green
    channels are [44 + 16 * y / size] and whose blue channel is
    [46 + 18 * y / size] (integer division): the colour starts at
    (44, 44, 46), never gets darker from one row to the next, and stops at
    (59, 59, 63) at most: the end colour (60, 60, 64) of the formula is not
    reached on any row.  At the size of the script, 1024, the quotient and
    the products are exact in floating point. *)
Theorem X15_gradient_never_reaches_its_end size y :
  0 < size -> 0 <= y < size ->
  exists r b,
    gradient_line (font:=font) size y = line [(0, y); (size, y)] (RGB r r b) 0
    /\ r = 44 + 16 * y / size /\ b = 46 + 18 * y / size
    /\ 44 <= r <= 59 /\ 46 <= b <= 63
    /\ (forall y', y <= y' ->
          exists r' b',
            gradient_line (font:=font) size y'
            = line [(0, y'); (size, y')] (RGB r' r' b') 0
            /\ r <= r' /\ b <= b').
Proof.
  intros Hsize Hy. exists (44 + 16 * y / size), (46 + 18 * y / size).
  split; [apply gradient_line_rows; lia|].
  split; [reflexivity|]. split; [reflexivity|].
  assert (0 <= 16 * y / size <= 15) as Hr.
  { split; [apply Z.div_pos; lia|].
    apply Z.lt_succ_r. apply Z.div_lt_upper_bound; lia. }
  assert (0 <= 18 * y / size <= 17) as Hb.
  { split; [apply Z.div_pos; lia|].
    apply Z.lt_succ_r. apply Z.div_lt_upper_bound; lia. }
  split; [lia|]. split; [lia|].
  intros y' Hy'. exists (44 + 16 * y' / size), (46 + 18 * y' / size).
  split; [apply gradient_line_rows; lia|].
  split; apply Z.add_le_mono_l; apply Z.div_le_mono; lia.
Qed.

(** *** The launch screen *)

(** X16: the launch screen.  On a canvas at least 106 high the image has
    the size asked, the two discs of the piece lie within the canvas (on
    its pixels, columns 0 to [width - 1] and rows 0 to [height - 1], when
    the canvas has a column), and the application name, the last thing
    drawn, is placed at [height / 2 + min(width, height) / 8 + 20], above
    the bottom edge.  Floats are read as exact rationals. *)
Theorem X16_launch_discs_inside_canvas width height im :
  0 <= width -> 106 <= height ->
  launch_image P width height = Ok im ->
  im_size im = (width, height)
  /\ Forall (op_in_box (0, 0, width, height)) (im_ops im)
  /\ (1 <= width -> Forall (op_in_box (canvas_box (width, height))) (im_ops im))
  /\ exists x f,
       last (im_ops im)
       = Some (text (x, inject_Z (height / 2 + Z.min width height / 8 + 20))
                 "Chinese Chess" f (Hex "#1C1C1E"))
       /\ height / 2 + Z.min width height / 8 + 20 < height.
Proof.
  intros Hw Hh. unfold launch_image.
  rewrite new_image_Ok by (simpl; lia). cbn [bind_outcome].
  rewrite resolve_font_total, launch_name_font_total. simpl. unfold centred_text.
  destruct (textbbox P "棋" _) as [[[b0 b1] b2] b3].
  destruct (textbbox P "Chinese Chess" _) as [[[c0 c1] c2] c3].
  intros [= <-]. split; [reflexivity|]. split; [|split].
  - simpl. unfold op_in_box, in_box, int_Q. simpl.
    repeat (first [apply List.Forall_nil | apply List.Forall_cons]; simpl);
      Z.to_euclidean_division_equations; lia.
  - intros Hcolumn. simpl. unfold op_in_box, in_box, canvas_box, int_Q. simpl.
    repeat (first [apply List.Forall_nil | apply List.Forall_cons]; simpl);
      Z.to_euclidean_division_equations; lia.
  - simpl. do 2 eexists. split; [reflexivity|].
    Z.to_euclidean_division_equations; lia.
Qed.

(** *** Text placement *)

(** X17: the glyph is centred on the point it is drawn for.  Whatever box
    [textbbox] reports for the text, the text is drawn at a position where
    the reported box has its horizontal middle on [center_x] (to the half
    pixel the integer division loses), and its vertical middle on
    [center_y] moved up by the offset [dy] of the routine. *)
Theorem X17_centred_text_is_centred (im : image) center_x center_y dy s f fill
    b0 b1 b2 b3 :
  textbbox P s f = (b0, b1, b2, b3) ->
  exists x y,
    centred_text P im center_x center_y dy s f fill
    = draw im (text (inject_Z x, y) s f fill)
    /\ 2 * center_x <= (x + b0) + (x + b2) <= 2 * center_x + 1
    /\ exists y0, (y == inject_Z y0 - dy)%Q
                  /\ 2 * center_y <= (y0 + b1) + (y0 + b3) <= 2 * center_y + 1.
Proof.
  intros Hbox. unfold centred_text. rewrite Hbox.
  eexists. eexists. split; [reflexivity|]. split.
  - Z.to_euclidean_division_equations. lia.
  - eexists. split; [reflexivity|].
    Z.to_euclidean_division_equations. lia.
Qed.

End Drawings.

(** * The further properties at work *)

Lemma X1_rerun_changes_nothing_witness :
  exists w', main demo_platform (prepared_tree 7) = (Ok tt, w')
             /\ main demo_platform w' = (Ok tt, w').
Proof.
  destruct (main demo_platform (prepared_tree 7)) as [o w'] eqn:Hrun.
  run_Ok Hrun. exists w'. split; [reflexivity|].
  exact (proj2 (X1_rerun_changes_nothing demo_platform) _ _ Hrun).
Defined.

Lemma X2_main_on_prepared_tree_witness :
  exists w',
    main demo_platform (prepared_tree 7) = (Ok tt, w')
    /\ (forall p, is_Some (w_files w' !! p) <-> p ∈ flat_map routine_files main_order)
    /\ size (w_files w') = 121%nat
    /\ (forall d, d ∈ w_dirs w' <-> d ∈ output_dirs)
    /\ size (w_dirs w') = 16%nat.
Proof.
  apply (X2_main_on_prepared_tree demo_platform (prepared_tree 7));
    [reflexivity | reflexivity | intros p _; reflexivity].
Defined.

Lemma X3_main_on_empty_tree_witness :
  exists w',
    main demo_platform (empty_tree 7) = (Raise FileNotFoundError, w')
    /\ (forall p, is_Some (w_files w' !! p) <-> p ∈ app_icon_paths)
    /\ (forall d, d ∈ w_dirs w' <-> d ∈ [ []; ["Icons"]; ["Icons"; "AppIcon.iconset"] ])
    /\ w_rng w'
       = snd (wood_grain demo_platform 1024 5000
                (Image_new mode_RGB (1024, 1024) (Hex "#E8D4A2")) 42).
Proof.
  apply (X3_main_on_empty_tree demo_platform (empty_tree 7));
    [reflexivity | reflexivity | intros p _; reflexivity].
Defined.

Lemma X4_routine_stays_in_its_directory_witness :
  let w := empty_tree 0 in
  let w' := snd (run_routine demo_platform toolbar w) in
  (forall p, w_files w' !! p <> w_files w !! p -> head p = Some "Toolbar")
  /\ (forall d, d ∈ w_dirs w' -> d ∈ w_dirs w \/ d = [] \/ head d = Some "Toolbar")
  /\ (forall d, d ∈ w_dirs w -> d ∈ w_dirs w')
  /\ (forall p, is_Some (w_files w !! p) -> is_Some (w_files w' !! p)).
Proof.
  exact (X4_routine_stays_in_its_directory demo_platform toolbar (empty_tree 0)).
Defined.

Lemma X5_disk_decides_the_outcome_witness :
  fst (main (refusing_platform ["UI"; "Move_Indicator.png"]) (prepared_tree 0))
  = Raise OSError.
Proof.
  destruct (X5_disk_decides_the_outcome (refusing_platform ["UI"; "Move_Indicator.png"])
              (prepared_tree 0) eq_refl eq_refl) as [Hiff [Hok|Hraise]];
    [exfalso | exact Hraise].
  pose proof (proj1 Hiff Hok ["UI"; "Move_Indicator.png"]) as Haccepts.
  assert (["UI"; "Move_Indicator.png"] ∈ flat_map routine_files main_order) as Hin
    by compute_done.
  specialize (Haccepts Hin). discriminate Haccepts.
Defined.

Lemma X6_refused_write_keeps_earlier_files_witness :
  let refused := ["Icons"; "AppIcon.iconset"; "AppIcon_16x16@2x.png"] in
  exists w', main (refusing_platform refused) (prepared_tree 0) = (Raise OSError, w')
             /\ (forall q, q ∈ [ ["Icons"; "AppIcon.iconset"; "AppIcon_16x16.png"] ] ->
                           is_Some (w_files w' !! q))
             /\ (forall q, q <> refused -> is_Some (w_files w' !! q) ->
                           q ∈ [ ["Icons"; "AppIcon.iconset"; "AppIcon_16x16.png"] ]).
Proof.
  intros refused.
  apply (X6_refused_write_keeps_earlier_files (refusing_platform refused) (prepared_tree 0)
           [ ["Icons"; "AppIcon.iconset"; "AppIcon_16x16.png"] ] refused
           (drop 2 (saved_paths (flat_map (routine_script (refusing_platform refused))
                                   main_order)))).
  - reflexivity.
  - reflexivity.
  - vm_compute. reflexivity.
  - intros q Hq. apply list_elem_of_singleton in Hq as ->. reflexivity.
  - reflexivity.
Defined.

Lemma X7_file_in_the_way_witness :
  let w := World 0 {[ [] ]}
             {[ ["Toolbar"] := Image_new (font:=string * Z) mode_L (1, 1) (Lum 0) ]} in
  exists e w', run_routine demo_platform toolbar w = (Raise e, w')
               /\ w_dirs w' = w_dirs w /\ w_files w' = w_files w.
Proof.
  intros w. apply (X7_file_in_the_way demo_platform toolbar w); vm_compute; reflexivity.
Defined.

Lemma demo_randint_in_range : randint_in_range demo_platform.
Proof.
  intros a b g Hab. cbn [randint demo_platform]. unfold demo_randint. cbn [fst].
  pose proof (Z.mod_pos_bound ((g * 1103515245 + 12345) mod 2147483648) (b - a + 1)).
  lia.
Qed.

Lemma X8_wood_grain_lines_witness :
  let grain := fst (wood_grain demo_platform 1024 3
                      (Image_new mode_RGB (1024, 1024) (Hex "#E8D4A2")) 42) in
  length (im_ops grain) = 3%nat
  /\ Forall (grain_line 1024) (im_ops grain)
  /\ Forall (op_in_box (0, 0, 1023, 1123)) (im_ops grain).
Proof.
  apply (X8_wood_grain_lines demo_platform 1024 3); [apply demo_randint_in_range | lia].
Defined.

Lemma X9_board_lines_within_margins_witness :
  length (board_lines (font:=string * Z) 1024 80 (Hex "#5C4033") 2) = 32%nat
  /\ Forall (op_in_box (80, 80, 944, 944))
       (board_lines (font:=string * Z) 1024 80 (Hex "#5C4033") 2)
  /\ (line [(80, 80); (944, 80)] (Hex "#5C4033") 2
      ∈ board_lines (font:=string * Z) 1024 80 (Hex "#5C4033") 2)
  /\ (line [(80, 944); (944, 944)] (Hex "#5C4033") 2
      ∈ board_lines (font:=string * Z) 1024 80 (Hex "#5C4033") 2).
Proof.
  apply (X9_board_lines_within_margins (font:=string * Z) 1024 80); lia.
Defined.

Lemma X10_piece_discs_inside_canvas_witness :
  exists modern traditional,
    create_modern_piece demo_platform 64 "帅" "red" = Ok modern
    /\ create_traditional_piece demo_platform 64 "帅" "red" = Ok traditional
    /\ Forall (op_in_box (canvas_box (64, 64))) (im_ops modern)
    /\ Forall (op_in_box (canvas_box (64, 64))) (im_ops traditional).
Proof.
  destruct (X10_piece_discs_inside_canvas demo_platform) as (Hmodern & Htraditional & _).
  eexists. eexists.
  split; [reflexivity|]. split; [reflexivity|]. split.
  - apply (Hmodern 64 "帅" "red"); [lia | reflexivity].
  - apply (Htraditional 64 "帅" "red"); [lia | reflexivity].
Defined.

Lemma X11_rounded_rect_inside_box_witness :
  let im := Image_new (font:=string * Z) mode_L (100, 60) (Lum 0) in
  (exists ops,
     im_ops (create_rounded_rect im (10, 10, 90, 50) 8 (Lum 255) (Some (Lum 128)) 2)
     = im_ops im ++ ops
     /\ length ops = 14%nat /\ Forall (op_in_box (10, 10, 90, 50)) ops)
  /\ (exists ops,
        im_ops (create_rounded_rect im (10, 10, 90, 50) 8 (Lum 255) (Some (Lum 0)) 2)
        = im_ops im ++ ops
        /\ length ops = 6%nat /\ Forall (op_in_box (10, 10, 90, 50)) ops).
Proof.
  intros im. split.
  - pose proof (X11_rounded_rect_inside_box im 10 10 90 50 8 (Lum 255)
                  (Some (Lum 128)) 2 ltac:(lia) ltac:(lia) ltac:(lia)) as Hrect.
    destruct Hrect as (ops & Hops & Hlen & Hbox & _). exists ops. auto.
  - pose proof (X11_rounded_rect_inside_box im 10 10 90 50 8 (Lum 255)
                  (Some (Lum 0)) 2 ltac:(lia) ltac:(lia) ltac:(lia)) as Hrect.
    destruct Hrect as (ops & Hops & Hlen & Hbox & _). exists ops. auto.
Defined.

Lemma X12_hiragino_only_for_pieces_witness :
  (forall font_size,
     resolve_font hiragino_platform font_size
     = Ok ("/System/Library/Fonts/Hiragino Sans GB.ttc", font_size))
  /\ app_icon_font hiragino_platform = Ok ("default", 10).
Proof.
  apply (X12_hiragino_only_for_pieces hiragino_platform
           (fun size => ("/System/Library/Fonts/Hiragino Sans GB.ttc", size)));
    [intros size; reflexivity | intros size; reflexivity | reflexivity
    | intros size; reflexivity].
Defined.

Lemma X13_toolbar_icon_shapes_witness :
  Forall (op_in_box (canvas_box (36, 36)))
    (im_ops (toolbar_icon (font:=string * Z) "undo" "#5856D6" 36))
  /\ Forall (op_in_box (canvas_box (18, 18)))
       (im_ops (toolbar_icon (font:=string * Z) "hint" "#FF9500" 18))
  /\ ~ Forall (op_in_box (canvas_box (24, 24)))
         (im_ops (toolbar_icon (font:=string * Z) "hint" "#FF9500" 24))
  /\ Forall (op_in_box (0, 0, 23, 24))
       (im_ops (toolbar_icon (font:=string * Z) "hint" "#FF9500" 24))
  /\ toolbar_filename "Undo" 37 = toolbar_filename "Undo" 36.
Proof.
  destruct (X13_toolbar_icon_shapes (font:=string * Z) "undo" "#5856D6" 36
              ltac:(lia))
    as (_ & _ & _ & Hinside & _ & Hname).
  destruct (X13_toolbar_icon_shapes (font:=string * Z) "hint" "#FF9500" 18
              ltac:(lia))
    as (_ & _ & _ & _ & Hhint18 & _).
  destruct (X13_toolbar_icon_shapes (font:=string * Z) "hint" "#FF9500" 24
              ltac:(lia))
    as (_ & _ & _ & _ & Hhint24 & _).
  destruct (Hhint18 ltac:(lia) eq_refl) as [Hfits18 _].
  destruct (Hhint24 ltac:(lia) eq_refl) as [Hfits24 Hbase24].
  split; [apply Hinside; [lia | discriminate]|].
  split; [apply Hfits18; discriminate|].
  split; [intros Hfits; apply (proj1 Hfits24 Hfits); reflexivity|].
  split; [exact Hbase24 | apply (Hname "Undo" 18); lia].
Defined.

Lemma X14_overlay_rings_geometry_witness :
  ~ Forall (op_in_box (canvas_box (256, 256)))
      (take 1 (im_ops (font:=string * Z) (selection_image 256)))
  /\ Forall (op_in_box (canvas_box (256, 256)))
       (drop 1 (im_ops (font:=string * Z) (selection_image 256)))
  /\ Forall (fun op => ~ op_in_box (canvas_box (256, 256)) op)
       (take 2 (im_ops (font:=string * Z) (check_warning_image 256)))
  /\ Forall (op_in_box (canvas_box (256, 256)))
       (drop 2 (im_ops (font:=string * Z) (check_warning_image 256)))
  /\ Forall (op_in_box (canvas_box (256, 256)))
       (im_ops (font:=string * Z) (move_dot_image 256))
  /\ Forall (op_in_box (canvas_box (256, 256)))
       (im_ops (font:=string * Z) (last_move_image 256)).
Proof.
  destruct (X14_overlay_rings_geometry (font:=string * Z) 256 ltac:(lia))
    as (_ & Houter & Hinner & _ & Hout & Hin & Hdot & Hlast).
  split; [intros Hfits; apply Houter in Hfits; discriminate Hfits|].
  repeat split; assumption.
Defined.

Lemma X15_gradient_never_reaches_its_end_witness :
  exists r b,
    gradient_line (font:=string * Z) 1024 1023
    = line [(0, 1023); (1024, 1023)] (RGB r r b) 0
    /\ r = 44 + 16 * 1023 / 1024 /\ b = 46 + 18 * 1023 / 1024
    /\ 44 <= r <= 59 /\ 46 <= b <= 63
    /\ (forall y', 1023 <= y' ->
          exists r' b',
            gradient_line (font:=string * Z) 1024 y'
            = line [(0, y'); (1024, y')] (RGB r' r' b') 0
            /\ r <= r' /\ b <= b').
Proof.
  apply (X15_gradient_never_reaches_its_end (font:=string * Z) 1024 1023); lia.
Defined.

Lemma X16_launch_discs_inside_canvas_witness :
  exists im,
    launch_image demo_platform 800 600 = Ok im
    /\ im_size im = (800, 600)
    /\ Forall (op_in_box (0, 0, 800, 600)) (im_ops im)
    /\ Forall (op_in_box (canvas_box (800, 600))) (im_ops im)
    /\ exists x f,
         last (im_ops im)
         = Some (text (x, inject_Z (600 / 2 + Z.min 800 600 / 8 + 20))
                   "Chinese Chess" f (Hex "#1C1C1E"))
         /\ 600 / 2 + Z.min 800 600 / 8 + 20 < 600.
Proof.
  eexists. split; [reflexivity|].
  destruct (X16_launch_discs_inside_canvas demo_platform 800 600 _
              ltac:(lia) ltac:(lia) eq_refl) as (Hsize & Hbox & Hpixels & Hname).
  split; [exact Hsize|]. split; [exact Hbox|].
  split; [apply Hpixels; lia | exact Hname].
Defined.

Lemma X17_centred_text_is_centred_witness :
  exists x y,
    centred_text demo_platform (Image_new mode_RGBA (64, 64) (RGBA 0 0 0 0))
      32 32 (16 # 5) "帅" ("/System/Library/Fonts/PingFang.ttc", 35) (Hex "#CC0000")
    = draw (Image_new mode_RGBA (64, 64) (RGBA 0 0 0 0))
        (text (inject_Z x, y) "帅" ("/System/Library/Fonts/PingFang.ttc", 35)
           (Hex "#CC0000"))
    /\ 2 * 32 <= (x + 0) + (x + 35 * 3) <= 2 * 32 + 1
    /\ exists y0, (y == inject_Z y0 - (16 # 5))%Q
                  /\ 2 * 32 <= (y0 + 2) + (y0 + 37) <= 2 * 32 + 1.
Proof.
  apply (X17_centred_text_is_centred demo_platform
           (Image_new mode_RGBA (64, 64) (RGBA 0 0 0 0)) 32 32 (16 # 5) "帅"
           ("/System/Library/Fonts/PingFang.ttc", 35) (Hex "#CC0000") 0 2 (35 * 3) 37).
  reflexivity.
Defined.
